(** * bittrex-api: the signed request executor and its endpoint wrappers

    A shallow embedding of the REST client ([src/rest-client.ts]), of its
    helpers [getNonce] and [getHmac] and of its error classes
    [BittrexHttpError] and [BittrexRestApiError], together with the library
    functions they call: Node's [querystring.stringify], [crypto.randomBytes],
    [crypto.createHmac] and [Buffer#toString('base64')], and the [url-join]
    package.

    Conventions.
    - A JavaScript string is a [string] whose characters are code units below
      256; [utf8] gives the bytes Node writes for it.
    - A byte is an [ascii]; a 64-bit word is a [Z] reduced modulo [2^64].
    - Objects that the code shares and mutates live in a heap of property
      lists and are referred to by [VRef]; an object written in place, which
      nothing else refers to, is a [VObj]. Property lists keep insertion
      order (keys that look like array indices are not moved to the front),
      and inherited properties are not modelled.
    - Numbers are integers.
    - The [debug] log channel is write-only and is left out. *)

From Stdlib Require Import ZArith NArith List String Ascii Lia Bool Arith DecimalString.

Set Warnings "-register-all".
Import ListNotations.

Open Scope list_scope.
Open Scope string_scope.

(** ** Strings *)

Module Str.

Definition dquote : string := String "034"%char EmptyString.

Definition of_Z (n : Z) : string := NilZero.string_of_int (Z.to_int n).

Definition of_nat (n : nat) : string := NilZero.string_of_uint (Nat.to_uint n).

Fixpoint all (p : ascii -> bool) (s : string) : bool :=
  match s with
  | EmptyString => true
  | String c t => p c && all p t
  end.

Fixpoint join (sep : string) (l : list string) : string :=
  match l with
  | [] => EmptyString
  | [x] => x
  | x :: t => x ++ sep ++ join sep t
  end.

Fixpoint repeat (c : ascii) (n : nat) : string :=
  match n with
  | O => EmptyString
  | S k => String c (repeat c k)
  end.

Definition is_empty (s : string) : bool :=
  match s with EmptyString => true | _ => false end.

(** Pieces of [s] between occurrences of [sep], as [String.prototype.split]
    with a one-character separator gives them. *)
Fixpoint split (sep : ascii) (s : string) : list string :=
  match s with
  | EmptyString => [EmptyString]
  | String c t =>
      if Ascii.eqb c sep then EmptyString :: split sep t
      else match split sep t with
           | [] => [String c EmptyString]
           | x :: r => String c x :: r
           end
  end.

Definition code (c : ascii) : N := N_of_ascii c.

(** The UTF-8 bytes of a string of code units below 256. *)
Definition utf8_unit (c : ascii) : list ascii :=
  let n := code c in
  if (n <? 128)%N then [c]
  else [ascii_of_N (192 + n / 64); ascii_of_N (128 + n mod 64)].

Fixpoint utf8 (s : string) : list ascii :=
  match s with
  | EmptyString => []
  | String c t => (utf8_unit c ++ utf8 t)%list
  end.

End Str.

(** ** JavaScript values, objects and the heap *)

Module Js.

Inductive Closure : Set :=
| AlwaysTrue.   (* [() => { return true }] *)

Inductive Value : Type :=
| VUndefined
| VNull
| VBool (b : bool)
| VNum (n : Z)
| VStr (s : string)
| VArr (items : list Value)
| VObj (props : list (string * Value))
| VRef (l : nat)
| VFun (f : Closure).

Definition Obj : Type := list (string * Value).

Definition Heap : Type := list Obj.

(** [ToBoolean]. *)
Definition truthy (v : Value) : bool :=
  match v with
  | VUndefined | VNull => false
  | VBool b => b
  | VNum n => negb (n =? 0)%Z
  | VStr s => negb (Str.is_empty s)
  | VArr _ | VObj _ | VRef _ | VFun _ => true
  end.

(** A parameter's default value: [v = d] in a parameter list. *)
Definition default_to (v d : Value) : Value :=
  match v with VUndefined => d | _ => v end.

(** [typeof v === 'function']. *)
Definition is_function (v : Value) : bool :=
  match v with VFun _ => true | _ => false end.

(** [a || b]. *)
Definition or_else (a b : Value) : Value := if truthy a then a else b.

(** Own properties. *)
Fixpoint lookup (k : string) (o : Obj) : option Value :=
  match o with
  | [] => None
  | (k', v) :: t => if String.eqb k k' then Some v else lookup k t
  end.

Definition prop (k : string) (o : Obj) : Value :=
  match lookup k o with Some v => v | None => VUndefined end.

Definition has (k : string) (o : Obj) : bool :=
  match lookup k o with Some _ => true | None => false end.

(** [o[k] = v]: an existing key keeps its place, a new one goes last. *)
Fixpoint set (k : string) (v : Value) (o : Obj) : Obj :=
  match o with
  | [] => [(k, v)]
  | (k', v') :: t => if String.eqb k k' then (k, v) :: t else (k', v') :: set k v t
  end.

(** [delete o[k]]. *)
Fixpoint delete (k : string) (o : Obj) : Obj :=
  match o with
  | [] => []
  | (k', v') :: t => if String.eqb k k' then delete k t else (k', v') :: delete k t
  end.

(** [Object.assign(target, source)] on property lists: every own enumerable
    property of [source], in order, is written to [target]. *)
Definition assign (target source : Obj) : Obj :=
  fold_left (fun acc kv => set (fst kv) (snd kv) acc) source target.

Definition keys (o : Obj) : list string := map fst o.

(** The heap. *)
Definition deref (h : Heap) (l : nat) : Obj := nth l h [].

Fixpoint store (h : Heap) (l : nat) (o : Obj) : Heap :=
  match h, l with
  | [], _ => []
  | _ :: t, O => o :: t
  | x :: t, S l' => x :: store t l' o
  end.

(** Indexed own properties of an array or of a boxed string. *)
Fixpoint indexed_from (i : nat) (l : list Value) : Obj :=
  match l with
  | [] => []
  | v :: t => (Str.of_nat i, v) :: indexed_from (S i) t
  end.

Fixpoint chars (s : string) : list Value :=
  match s with
  | EmptyString => []
  | String c t => VStr (String c EmptyString) :: chars t
  end.

(** The own enumerable properties an object value starts from when it is used
    as the target of [Object.assign]: a primitive is boxed. *)
Definition own_props (h : Heap) (v : Value) : Obj :=
  match v with
  | VRef l => deref h l
  | VObj props => props
  | VArr items => indexed_from 0 items
  | VStr s => indexed_from 0 (chars s)
  | _ => []
  end.

(** [ToString]. *)
Fixpoint to_string (v : Value) : string :=
  match v with
  | VUndefined => "undefined"
  | VNull => "null"
  | VBool true => "true"
  | VBool false => "false"
  | VNum n => Str.of_Z n
  | VStr s => s
  | VArr items =>
      Str.join ","
        (map (fun x => match x with
                       | VUndefined | VNull => EmptyString
                       | _ => to_string x
                       end) items)
  | VObj _ | VRef _ => "[object Object]"
  | VFun AlwaysTrue => "() => { return true }"
  end.

(** An array index written as a property key. *)
Definition index_of_key (k : string) : option nat :=
  match NilZero.uint_of_string k with
  | Some u => let i := Nat.of_uint u in
              if String.eqb (Str.of_nat i) k then Some i else None
  | None => None
  end.

End Js.

(** ** Node's [crypto] and [Buffer]: random bytes, base64, hex, HMAC-SHA512 *)

Module Crypto.

Local Open Scope list_scope.
Local Open Scope Z_scope.

Definition byte_val (c : ascii) : Z := Z.of_N (N_of_ascii c).

Definition bytes (b : list ascii) : list Z := map byte_val b.

(** [crypto.randomBytes(n)], reading the system's entropy as a stream of
    bytes from a cursor on. *)
Definition randomBytes (n : nat) (entropy : nat -> ascii) (cursor : nat) : list ascii :=
  map entropy (seq cursor n).

(** *** [buf.toString('base64')] *)

Definition b64_alphabet : list ascii :=
  list_ascii_of_string
    "ABCDEFGHIJKLMNOPQRSTUVWXYZabcdefghijklmnopqrstuvwxyz0123456789+/".

Definition b64_pad : ascii := "="%char.

Definition b64_char (n : Z) : ascii := nth (Z.to_nat n) b64_alphabet b64_pad.

Fixpoint base64 (b : list ascii) : string :=
  match b with
  | [] => EmptyString
  | [x] =>
      let x := byte_val x in
      String (b64_char (x / 4))
        (String (b64_char (x mod 4 * 16))
           (String b64_pad (String b64_pad EmptyString)))
  | [x; y] =>
      let x := byte_val x in
      let y := byte_val y in
      String (b64_char (x / 4))
        (String (b64_char (x mod 4 * 16 + y / 16))
           (String (b64_char (y mod 16 * 4))
              (String b64_pad EmptyString)))
  | x :: y :: z :: rest =>
      let x := byte_val x in
      let y := byte_val y in
      let z := byte_val z in
      String (b64_char (x / 4))
        (String (b64_char (x mod 4 * 16 + y / 16))
           (String (b64_char (y mod 16 * 4 + z / 64))
              (String (b64_char (z mod 64)) (base64 rest))))
  end.

(** *** [digest('hex')] *)

Definition hex_alphabet : list ascii := list_ascii_of_string "0123456789abcdef".

Definition hex_digit (n : Z) : ascii := nth (Z.to_nat n) hex_alphabet "0"%char.

Fixpoint hex (b : list Z) : string :=
  match b with
  | [] => EmptyString
  | x :: t => String (hex_digit (x / 16)) (String (hex_digit (x mod 16)) (hex t))
  end.


(** *** SHA-512 (FIPS 180-4) on 64-bit words *)

Definition w64 : Z := 18446744073709551616.

Definition add64 (x y : Z) : Z := (x + y) mod w64.

Definition rotr (n x : Z) : Z :=
  Z.lor (Z.shiftr x n) (Z.shiftl x (64 - n) mod w64).

Definition shr (n x : Z) : Z := Z.shiftr x n.

Definition not64 (x : Z) : Z := Z.lxor x (w64 - 1).

Definition Ch (x y z : Z) : Z := Z.lxor (Z.land x y) (Z.land (not64 x) z).

Definition Maj (x y z : Z) : Z :=
  Z.lxor (Z.lxor (Z.land x y) (Z.land x z)) (Z.land y z).

Definition Sigma0 (x : Z) : Z := Z.lxor (Z.lxor (rotr 28 x) (rotr 34 x)) (rotr 39 x).

Definition Sigma1 (x : Z) : Z := Z.lxor (Z.lxor (rotr 14 x) (rotr 18 x)) (rotr 41 x).

Definition sigma0 (x : Z) : Z := Z.lxor (Z.lxor (rotr 1 x) (rotr 8 x)) (shr 7 x).

Definition sigma1 (x : Z) : Z := Z.lxor (Z.lxor (rotr 19 x) (rotr 61 x)) (shr 6 x).

Definition K512 : list Z :=
 [0x428a2f98d728ae22; 0x7137449123ef65cd; 0xb5c0fbcfec4d3b2f; 0xe9b5dba58189dbbc;
  0x3956c25bf348b538; 0x59f111f1b605d019; 0x923f82a4af194f9b; 0xab1c5ed5da6d8118;
  0xd807aa98a3030242; 0x12835b0145706fbe; 0x243185be4ee4b28c; 0x550c7dc3d5ffb4e2;
  0x72be5d74f27b896f; 0x80deb1fe3b1696b1; 0x9bdc06a725c71235; 0xc19bf174cf692694;
  0xe49b69c19ef14ad2; 0xefbe4786384f25e3; 0x0fc19dc68b8cd5b5; 0x240ca1cc77ac9c65;
  0x2de92c6f592b0275; 0x4a7484aa6ea6e483; 0x5cb0a9dcbd41fbd4; 0x76f988da831153b5;
  0x983e5152ee66dfab; 0xa831c66d2db43210; 0xb00327c898fb213f; 0xbf597fc7beef0ee4;
  0xc6e00bf33da88fc2; 0xd5a79147930aa725; 0x06ca6351e003826f; 0x142929670a0e6e70;
  0x27b70a8546d22ffc; 0x2e1b21385c26c926; 0x4d2c6dfc5ac42aed; 0x53380d139d95b3df;
  0x650a73548baf63de; 0x766a0abb3c77b2a8; 0x81c2c92e47edaee6; 0x92722c851482353b;
  0xa2bfe8a14cf10364; 0xa81a664bbc423001; 0xc24b8b70d0f89791; 0xc76c51a30654be30;
  0xd192e819d6ef5218; 0xd69906245565a910; 0xf40e35855771202a; 0x106aa07032bbd1b8;
  0x19a4c116b8d2d0c8; 0x1e376c085141ab53; 0x2748774cdf8eeb99; 0x34b0bcb5e19b48a8;
  0x391c0cb3c5c95a63; 0x4ed8aa4ae3418acb; 0x5b9cca4f7763e373; 0x682e6ff3d6b2b8a3;
  0x748f82ee5defb2fc; 0x78a5636f43172f60; 0x84c87814a1f0ab72; 0x8cc702081a6439ec;
  0x90befffa23631e28; 0xa4506cebde82bde9; 0xbef9a3f7b2c67915; 0xc67178f2e372532b;
  0xca273eceea26619c; 0xd186b8c721c0c207; 0xeada7dd6cde0eb1e; 0xf57d4f7fee6ed178;
  0x06f067aa72176fba; 0x0a637dc5a2c898a6; 0x113f9804bef90dae; 0x1b710b35131c471b;
  0x28db77f523047d84; 0x32caab7b40c72493; 0x3c9ebe0a15c9bebc; 0x431d67c49c100d4c;
  0x4cc5d4becb3e42b6; 0x597f299cfc657e2a; 0x5fcb6fab3ad6faec; 0x6c44198c4a475817].

Record Hash : Set :=
  mkHash { ha : Z; hb : Z; hc : Z; hd : Z; he : Z; hf : Z; hg : Z; hh : Z }.

Definition H0 : Hash :=
  mkHash
    0x6a09e667f3bcc908 0xbb67ae8584caa73b 0x3c6ef372fe94f82b 0xa54ff53a5f1d36f1
    0x510e527fade682d1 0x9b05688c2b3e6c1f 0x1f83d9abfb41bd6b 0x5be0cd19137e2179.

(** One round; [win] holds the sixteen schedule words [W t .. W (t+15)]. *)
Definition round (st : Hash * list Z) (k : Z) : Hash * list Z :=
  let (s, win) := st in
  let w := nth 0 win 0 in
  let t1 := add64 (add64 (add64 (add64 (hh s) (Sigma1 (he s))) (Ch (he s) (hf s) (hg s))) k) w in
  let t2 := add64 (Sigma0 (ha s)) (Maj (ha s) (hb s) (hc s)) in
  let w16 :=
    add64 (add64 (add64 (sigma1 (nth 14 win 0)) (nth 9 win 0)) (sigma0 (nth 1 win 0))) w in
  (mkHash (add64 t1 t2) (ha s) (hb s) (hc s) (add64 (hd s) t1) (he s) (hf s) (hg s),
   tl win ++ [w16]).

Definition compress (h : Hash) (block : list Z) : Hash :=
  let s := fst (fold_left round K512 (h, block)) in
  mkHash (add64 (ha h) (ha s)) (add64 (hb h) (hb s)) (add64 (hc h) (hc s))
         (add64 (hd h) (hd s)) (add64 (he h) (he s)) (add64 (hf h) (hf s))
         (add64 (hg h) (hg s)) (add64 (hh h) (hh s)).

Definition be (b : list Z) : Z := fold_left (fun acc x => acc * 256 + x) b 0.

Fixpoint words (b : list Z) : list Z :=
  match b with
  | b0 :: b1 :: b2 :: b3 :: b4 :: b5 :: b6 :: b7 :: rest =>
      be [b0; b1; b2; b3; b4; b5; b6; b7] :: words rest
  | _ => []
  end.

Fixpoint blocks (fuel : nat) (w : list Z) : list (list Z) :=
  match fuel, w with
  | S k, _ :: _ => firstn 16 w :: blocks k (skipn 16 w)
  | _, _ => []
  end.

Definition be_bytes (n : nat) (x : Z) : list Z :=
  map (fun i => (x / 2 ^ (8 * Z.of_nat (n - 1 - i))) mod 256) (seq 0 n).

Definition pad (msg : list Z) : list Z :=
  let len := Z.of_nat (List.length msg) in
  msg ++ [128] ++ repeat 0 (Z.to_nat ((111 - len) mod 128)) ++ be_bytes 16 (8 * len).

Definition word_bytes (w : Z) : list Z :=
  [ (w / 2 ^ 56) mod 256; (w / 2 ^ 48) mod 256; (w / 2 ^ 40) mod 256; (w / 2 ^ 32) mod 256;
    (w / 2 ^ 24) mod 256; (w / 2 ^ 16) mod 256; (w / 2 ^ 8) mod 256; w mod 256 ].

Definition digest_bytes (h : Hash) : list Z :=
  word_bytes (ha h) ++ word_bytes (hb h) ++ word_bytes (hc h) ++ word_bytes (hd h) ++
  word_bytes (he h) ++ word_bytes (hf h) ++ word_bytes (hg h) ++ word_bytes (hh h).

Definition sha512 (msg : list Z) : list Z :=
  let w := words (pad msg) in
  digest_bytes (fold_left compress (blocks (List.length w) w) H0).

(** *** HMAC (RFC 2104) with SHA-512: block size 128 *)

Definition hmac_sha512 (key msg : list Z) : list Z :=
  let k0 := if (128 <? Z.of_nat (List.length key)) then sha512 key else key in
  let k := k0 ++ repeat 0 (128 - List.length k0) in
  let ikey := map (Z.lxor 0x36) k in
  let okey := map (Z.lxor 0x5c) k in
  sha512 (okey ++ sha512 (ikey ++ msg)).

End Crypto.

(** ** Node's [querystring] *)

Module QueryString.

Import Js.

Definition in_range (lo hi : N) (c : ascii) : bool :=
  ((lo <=? Str.code c) && (Str.code c <=? hi))%N.

(** The characters [querystring.escape] leaves alone:
    [A-Z a-z 0-9 - _ . ! ~ * ' ( )]. *)
Definition unreserved (c : ascii) : bool :=
  in_range 65 90 c || in_range 97 122 c || in_range 48 57 c ||
  existsb (Ascii.eqb c) (list_ascii_of_string "-_.!~*'()").

Definition HEX_ALPHABET : list ascii := list_ascii_of_string "0123456789ABCDEF".

Definition HEX_digit (n : N) : ascii := nth (N.to_nat n) HEX_ALPHABET "0"%char.

(** [hexTable[b]]: a percent sign and two upper-case hexadecimal digits. *)
Definition percent (b : ascii) : string :=
  String "%"%char
    (String (HEX_digit (Str.code b / 16))
       (String (HEX_digit (Str.code b mod 16)) EmptyString)).

Fixpoint percent_all (b : list ascii) : string :=
  match b with
  | [] => EmptyString
  | x :: t => percent x ++ percent_all t
  end.

Fixpoint escape (s : string) : string :=
  match s with
  | EmptyString => EmptyString
  | String c t =>
      if unreserved c then String c (escape t)
      else percent_all (Str.utf8_unit c) ++ escape t
  end.

Definition stringifyPrimitive (v : Value) : string :=
  match v with
  | VStr s => s
  | VNum n => Str.of_Z n
  | VBool true => "true"
  | VBool false => "false"
  | _ => EmptyString
  end.

(** The inner loop of [stringify] over an array value: one [key=item] field
    per item, separated by [&]. *)
Fixpoint array_fields (ks : string) (items : list Value) : string :=
  match items with
  | [] => EmptyString
  | [v] => ks ++ escape (stringifyPrimitive v)
  | v :: t => ks ++ escape (stringifyPrimitive v) ++ "&" ++ array_fields ks t
  end.

Definition is_nil {A : Type} (l : list A) : bool :=
  match l with [] => true | _ => false end.

(** The outer loop: [rest] are the keys still to come, so [is_nil rest] is
    the test [i < flast] failing. *)
Fixpoint fields (o : Obj) : string :=
  match o with
  | [] => EmptyString
  | (k, v) :: rest =>
      let ks := escape k ++ "=" in
      match v with
      | VArr items =>
          array_fields ks items ++
          (if negb (is_nil items) && negb (is_nil rest) then "&" else EmptyString)
      | _ =>
          ks ++ escape (stringifyPrimitive v) ++
          (if is_nil rest then EmptyString else "&")
      end ++ fields rest
  end.

(** [querystring.stringify(obj)]: the fields of [obj] when it is an object
    ([typeof obj === 'object'], with own properties [o]), and the empty string
    when it is not. *)
Definition stringify (is_object : bool) (o : Obj) : string :=
  if is_object then fields o else EmptyString.

End QueryString.

(** ** The [url-join] package (2.0.2): join with [/], then normalize *)

Module UrlJoin.

Definition is_char (x : string) (c : ascii) : bool :=
  match x with
  | String d EmptyString => Ascii.eqb c d
  | _ => false
  end.

(** [\s] on code units below 256. *)
Definition is_space (c : ascii) : bool :=
  QueryString.in_range 9 13 c || (Str.code c =? 32)%N || (Str.code c =? 160)%N.

(** Line terminators, which [.] does not match. *)
Definition is_newline (c : ascii) : bool :=
  (Str.code c =? 10)%N || (Str.code c =? 13)%N.

(** [str.replace(/:\//g, '://')] *)
Fixpoint protocol_slashes (s : string) : string :=
  match s with
  | EmptyString => EmptyString
  | String c t =>
      if is_char ":" c then
        match t with
        | String d t' =>
            if is_char "/" d then String c (String d (String d (protocol_slashes t')))
            else String c (protocol_slashes t)
        | EmptyString => String c EmptyString
        end
      else String c (protocol_slashes t)
  end.

(** The characters that the class [[^:\s\%\3\A]] of the second pass leaves
    out: [:], white space, [%], U+0003 (the octal escape [\3]) and [A]. A
    run of slashes after one of them is not collapsed onto it. *)
Definition spared (c : ascii) : bool :=
  is_char ":" c || is_space c || is_char "%" c || (Str.code c =? 3)%N || is_char "A" c.

(** [str.replace(/([^:\s\%\3\A])\/+/g, '$1/')]; [skipping] is set while the
    slashes of a match are being consumed. *)
Fixpoint consecutive_slashes (skipping : bool) (s : string) : string :=
  match s with
  | EmptyString => EmptyString
  | String c t =>
      if skipping && is_char "/" c then consecutive_slashes true t
      else
        match t with
        | String d _ =>
            if is_char "/" d && negb (spared c)
            then String c (String d (consecutive_slashes true t))
            else String c (consecutive_slashes false t)
        | EmptyString => String c EmptyString
        end
  end.

(** [str.replace(/\/(\?|&|#[^!])/g, '$1')] *)
Fixpoint trailing_slash (s : string) : string :=
  match s with
  | EmptyString => EmptyString
  | String c t =>
      if is_char "/" c then
        match t with
        | String d t' =>
            if is_char "?" d || is_char "&" d then String d (trailing_slash t')
            else if is_char "#" d then
              match t' with
              | String e t'' =>
                  if is_char "!" e then String c (trailing_slash t)
                  else String d (String e (trailing_slash t''))
              | EmptyString => String c (trailing_slash t)
              end
            else String c (trailing_slash t)
        | EmptyString => String c EmptyString
        end
      else String c (trailing_slash t)
  end.

(** Whether a [?] stands in [s] before the end of its first line. *)
Fixpoint line_has_question (s : string) : bool :=
  match s with
  | EmptyString => false
  | String c t =>
      if is_newline c then false
      else if is_char "?" c then true
      else line_has_question t
  end.

Inductive Mode : Set :=
| Outside       (* no match is open *)
| First         (* after the opening [?]: the first character of [.+] *)
| Inside.       (* further characters of [.+], up to the last [?] of the line *)

(** [str.replace(/(\?.+)\?/g, '$1&')]: [.+] is greedy, so of a line holding
    several [?] the last one becomes [&]. *)
Fixpoint question_marks (m : Mode) (s : string) : string :=
  match s with
  | EmptyString => EmptyString
  | String c t =>
      match m with
      | Outside =>
          if is_char "?" c &&
             match t with
             | String d t' => negb (is_newline d) && line_has_question t'
             | EmptyString => false
             end
          then String c (question_marks First t)
          else String c (question_marks Outside t)
      | First => String c (question_marks Inside t)
      | Inside =>
          if is_char "?" c && negb (line_has_question t)
          then String "&"%char (question_marks Outside t)
          else String c (question_marks Inside t)
      end
  end.

Definition normalize (str : string) : string :=
  let str := protocol_slashes str in
  let str := consecutive_slashes false str in
  let str := trailing_slash str in
  question_marks Outside str.

(** [url(part, ...)] *)
Definition url (parts : list string) : string :=
  normalize (Str.join "/" parts).

End UrlJoin.

(** ** The error classes *)

Module Errors.

Import Js.

(** An [Error] as the transport throws it; [stack] may be missing. *)
Record JsError : Type :=
  mkJsError { name : string; message : string; stack : option string }.

(** [Error.prototype.toString]. *)
Definition toString (name message : string) : string :=
  if Str.is_empty name then message
  else if Str.is_empty message then name
  else name ++ ": " ++ message.

(** The trace of an error made here is the engine's own, taken where the
    error is constructed, unless another error's trace is copied over it. *)
Inductive Trace : Type :=
| OwnTrace
| TraceOf (s : string).

(** The constructor argument [msg: string|any]: a message, or the error
    that the transport threw. *)
Inductive Msg : Type :=
| MsgText (s : string)
| MsgError (e : JsError).

(** [String(msg)], the message [super(msg)] stores. *)
Definition msg_text (msg : Msg) : string :=
  match msg with
  | MsgText s => s
  | MsgError e => toString (name e) (message e)
  end.

(** [msg.stack] *)
Definition msg_stack (msg : Msg) : Value :=
  match msg with
  | MsgText _ => VUndefined
  | MsgError e => match stack e with Some s => VStr s | None => VUndefined end
  end.

End Errors.

Module BittrexHttpError.

Import Js Errors.

Record t : Type :=
  mk { name : string;
       message : string;
       stack : Trace;
       bittexMessage : Value;
       statusCode : Value }.

Definition new (msg : Msg) (bittexMessage statusCode : Value) : t :=
  {| name := "HTTPError";
     message := msg_text msg;
     stack := match msg_stack msg with
              | VStr s => if truthy (VStr s) then TraceOf s else OwnTrace
              | _ => OwnTrace
              end;
     bittexMessage := bittexMessage;
     statusCode := statusCode |}.

Definition toString (e : t) : string := Errors.toString (name e) (message e).

End BittrexHttpError.

Module BittrexRestApiError.

Import Js Errors.

Record t : Type :=
  mk { name : string;
       message : string;
       bittexMessage : Value }.

Definition new (bittexMessage : Value) : t :=
  {| name := "BittrexRestApiError";
     message := "bittrex returned " ++ Str.dquote ++ to_string bittexMessage
                  ++ Str.dquote ++ " error";
     bittexMessage := bittexMessage |}.

Definition toString (e : t) : string := Errors.toString (name e) (message e).

End BittrexRestApiError.

(** The earlier wrapping class of [src/errors.ts], [RestApiError]. *)
Module RestApiError.

Import Js Errors.

Record t : Type :=
  mk { name : string;
       message : string;
       stack : Trace }.

Definition new (msg : Msg) : t :=
  {| name := "BittrexRestApiError";
     message := msg_text msg;
     stack := match msg_stack msg with
              | VStr s => if truthy (VStr s) then TraceOf s else OwnTrace
              | _ => OwnTrace
              end |}.

Definition toString (e : t) : string := Errors.toString (name e) (message e).

End RestApiError.

(** ** The world the client runs in, and asynchronous results *)

Record World : Type :=
  mkWorld { heap : Js.Heap;          (* shared objects *)
            entropy : nat -> ascii;  (* the system's random bytes *)
            cursor : nat }.          (* how many of them were drawn *)

Inductive Exn : Type :=
| HttpFailure (e : BittrexHttpError.t)
| ApiFailure (e : BittrexRestApiError.t)
| TypeError (what : string).

(** How an [async] function settles. *)
Inductive Outcome (A : Type) : Type :=
| Resolved (a : A)
| Rejected (e : Exn).

Arguments Resolved {A} a.
Arguments Rejected {A} e.

Definition M (A : Type) : Type := World -> Outcome A * World.

Definition ret {A : Type} (a : A) : M A := fun w => (Resolved a, w).

Definition throw {A : Type} (e : Exn) : M A := fun w => (Rejected e, w).

Definition bind {A B : Type} (m : M A) (k : A -> M B) : M B :=
  fun w =>
    match m w with
    | (Resolved a, w') => k a w'
    | (Rejected e, w') => (Rejected e, w')
    end.

Notation "x <- m ;; k" := (bind m (fun x => k))
  (at level 61, m at next level, right associativity).

Definition get_heap : M Js.Heap := fun w => (Resolved (heap w), w).

Definition put_heap (h : Js.Heap) : M unit :=
  fun w => (Resolved tt, mkWorld h (entropy w) (cursor w)).

(** [v[k]] for a value [v] that the code dereferences. *)
Definition js_get (v : Js.Value) (k : string) : M Js.Value :=
  fun w =>
    match v with
    | Js.VUndefined => (Rejected (TypeError ("Cannot read property '" ++ k ++ "' of undefined")), w)
    | Js.VNull => (Rejected (TypeError ("Cannot read property '" ++ k ++ "' of null")), w)
    | Js.VObj props => (Resolved (Js.prop k props), w)
    | Js.VRef l => (Resolved (Js.prop k (Js.deref (heap w) l)), w)
    | Js.VArr items =>
        (Resolved
           match Js.index_of_key k with
           | Some i => nth i items Js.VUndefined
           | None => if String.eqb k "length"
                     then Js.VNum (Z.of_nat (List.length items))
                     else Js.VUndefined
           end, w)
    | Js.VStr s =>
        (Resolved
           match Js.index_of_key k with
           | Some i => match String.get i s with
                       | Some c => Js.VStr (String c EmptyString)
                       | None => Js.VUndefined
                       end
           | None => if String.eqb k "length"
                     then Js.VNum (Z.of_nat (String.length s))
                     else Js.VUndefined
           end, w)
    | _ => (Resolved Js.VUndefined, w)
    end.

(** ** [getNonce] and [getHmac] *)

Module Utils.

(** [getNonce()]: sixteen random bytes in base64. *)
Definition getNonce : M string :=
  fun w =>
    let n := Crypto.base64 (Crypto.randomBytes 16 (entropy w) (cursor w)) in
    (Resolved n, mkWorld (heap w) (entropy w) (cursor w + 16)).

(** [getHmac(uri, apisecret)]:
    [createHmac('sha512', new Buffer(apisecret)).update(uri).digest('hex')]. *)
Definition getHmac (uri apisecret : string) : string :=
  Crypto.hex
    (Crypto.hmac_sha512 (Crypto.bytes (Str.utf8 apisecret)) (Crypto.bytes (Str.utf8 uri))).

End Utils.

(** ** [RestClient] ([src/rest-client.ts]) *)

Module RestClient.

Import Js.

(** [Models.BittrexApiOptions] *)
Record BittrexApiOptions : Type :=
  mkOptions { apikey : string;
              apisecret : string;
              axiosOptions : option Obj;
              apiVersion : option string }.

(** [Models.ApiResponse] is the shape [http] reads a body at; the response
    itself carries whatever the transport parsed. *)
Record AxiosResponse : Type :=
  mkResponse { status : Z;
               statusText : Value;
               headers : Obj;
               data : Value }.

Inductive TransportResult : Type :=
| Threw (e : Errors.JsError)
| Responded (r : AxiosResponse).

(** An axios instance keeps its own copy of the configuration it was
    created with. *)
Record AxiosInstance : Type := mkAxios { defaults : Obj }.

Definition axios_create (config : Obj) : AxiosInstance := mkAxios config.

Record t : Type := mkClient { options : BittrexApiOptions; axios : AxiosInstance }.

(** The module-level constant [AXIOS_DEFAULTS] is one object, at a fixed
    place of the heap. *)
Definition AXIOS_DEFAULTS : nat := 0.

Definition initial_heap : Heap := [[("timeout", VNum 15000)]].

(** [constructor (options)]; the two interceptors it installs only log. *)
Definition constructor (options : BittrexApiOptions) : M t :=
  h <- get_heap ;;
  let overrides := match axiosOptions options with Some o => o | None => [] end in
  let merged := assign (deref h AXIOS_DEFAULTS) overrides in
  _ <- put_heap (store h AXIOS_DEFAULTS merged) ;;
  ret (mkClient options (axios_create merged)).

(** What [http] has built when it hands the request to axios. *)
Record Prepared : Type :=
  mkPrepared { querystring : string;
               fullUrl : string;
               signature : string;
               requestOptions : Obj }.

(** [delete v[k]], giving the value back when it is held in place. *)
Definition js_delete (v : Value) (k : string) : M Value :=
  match v with
  | VRef l =>
      h <- get_heap ;;
      _ <- put_heap (store h l (delete k (deref h l))) ;;
      ret v
  | VObj props => ret (VObj (delete k props))
  | _ => ret v
  end.

(** [Object.assign(target, source)] where [target] is a value: a shared
    object is updated in place. The own properties of the object returned
    (the target, or the wrapper of a primitive) are given back. *)
Definition js_assign (target : Value) (source : Obj) : M Obj :=
  h <- get_heap ;;
  let merged := assign (own_props h target) source in
  _ <- match target with
       | VRef l => put_heap (store h l merged)
       | _ => ret tt
       end ;;
  ret merged.

Definition or_default (o : option string) (d : string) : string :=
  match o with
  | Some s => if Str.is_empty s then d else s
  | None => d
  end.

(** The first half of [http]: everything up to the call of
    [this.axios.request]. *)
Definition prepare (this : t) (path : string) (options : Value) : M Prepared :=
  let options := default_to options (VObj []) in
  params <- js_get options "params" ;;
  nonce <- Utils.getNonce ;;
  let target := or_else params (VObj []) in
  merged <- js_assign target
              [("apikey", VStr (apikey (RestClient.options this))); ("nonce", VStr nonce)] ;;
  let querystring := QueryString.stringify (negb (is_function target)) merged in
  options <- js_delete options "params" ;;
  let fullUrl :=
    UrlJoin.url
      [ "https://bittrex.com/api/";
        or_default (apiVersion (RestClient.options this)) "v1.1";
        path;
        "?" ++ querystring ] in
  let apisign := Utils.getHmac fullUrl (apisecret (RestClient.options this)) in
  h <- get_heap ;;
  let requestOptions :=
    assign [ ("url", VStr fullUrl);
             ("headers", VObj [("apisign", VStr apisign)]);
             ("validateStatus", VFun AlwaysTrue) ]
           (own_props h options) in
  ret (mkPrepared querystring fullUrl apisign requestOptions).

(** The second half of [http]: what becomes of the transport's answer. *)
Definition settle (answer : TransportResult) : M AxiosResponse :=
  match answer with
  | Threw e =>
      throw (HttpFailure (BittrexHttpError.new (Errors.MsgError e) VUndefined VUndefined))
  | Responded result =>
      if negb (status result =? 200)%Z then
        throw (HttpFailure
                 (BittrexHttpError.new
                    (Errors.MsgText
                       ("received http " ++ Str.of_Z (status result)
                        ++ " from bittrex with message " ++ Str.dquote
                        ++ to_string (statusText result) ++ Str.dquote))
                    (statusText result)
                    (VNum (status result))))
      else
        let body := data result in
        success <- js_get body "success" ;;
        if truthy success then ret result
        else
          message <- js_get body "message" ;;
          throw (ApiFailure (BittrexRestApiError.new message))
  end.

Section Transport.

(** [this.axios.request]: the transport, which answers a request made with
    an instance's defaults and the request's options. *)
Variable request : AxiosInstance -> Obj -> TransportResult.

(** [async http (path, options = {})] *)
Definition http (this : t) (path : string) (options : Value) : M AxiosResponse :=
  p <- prepare this path options ;;
  settle (request (axios this) (requestOptions p)).

(** [ret.data.result] *)
Definition result_of (r : AxiosResponse) : M Value := js_get (data r) "result".

Definition market_of (tickerA tickerB : string) : string := tickerA ++ "-" ++ tickerB.

Definition with_params (params : Obj) : Value := VObj [("params", VObj params)].

Definition getMarkets (this : t) : M Value :=
  r <- http this "/public/getmarkets" VUndefined ;;
  result_of r.

Definition getCurrencies (this : t) : M Value :=
  r <- http this "/public/getcurrencies" VUndefined ;;
  result_of r.

Definition getTicker (this : t) (tickerA tickerB : string) : M Value :=
  let market := market_of tickerA tickerB in
  r <- http this "/public/getticker" (with_params [("market", VStr market)]) ;;
  result_of r.

Definition getMarketSummaries (this : t) : M Value :=
  r <- http this "/public/getmarketsummaries" VUndefined ;;
  result_of r.

Definition getMarketSummary (this : t) (tickerA tickerB : string) : M Value :=
  r <- http this "/public/getmarketsummary"
         (with_params [("market", VStr (market_of tickerA tickerB))]) ;;
  result <- result_of r ;;
  js_get result "0".

(** [String.prototype.toLowerCase] on code units below 256. *)
Definition lower (c : ascii) : ascii :=
  let n := Str.code c in
  if QueryString.in_range 65 90 c || QueryString.in_range 192 214 c
     || QueryString.in_range 216 222 c
  then ascii_of_N (n + 32) else c.

Fixpoint toLowerCase (s : string) : string :=
  match s with
  | EmptyString => EmptyString
  | String c t => String (lower c) (toLowerCase t)
  end.

Definition getOrderBook (this : t) (tickerA tickerB type : string) : M Value :=
  r <- http this "/public/getorderbook"
         (with_params [ ("market", VStr (market_of tickerA tickerB));
                        ("type", VStr (toLowerCase type)) ]) ;;
  result_of r.

Definition getMarketHistory (this : t) (tickerA tickerB : string) : M Value :=
  r <- http this "/public/getmarkethistory"
         (with_params [("market", VStr (market_of tickerA tickerB))]) ;;
  result_of r.

Definition getBalances (this : t) : M Value :=
  r <- http this "/account/getbalances" VUndefined ;;
  result_of r.

Definition getBalance (this : t) (currency : string) : M Value :=
  r <- http this "/account/getbalance" (with_params [("currency", VStr currency)]) ;;
  result_of r.

(** An optional string argument: [None] is an argument left out. *)
Definition optional (o : option string) : Value :=
  match o with Some s => VStr s | None => VUndefined end.

(** The options of [getOrderHistory] and [getOpenOrders]: a market only
    when both tickers are given and not empty. *)
Definition market_opts (tickerA tickerB : option string) : Value :=
  if truthy (optional tickerA) && truthy (optional tickerB)
  then with_params
         [("market", VStr (market_of (to_string (optional tickerA))
                                      (to_string (optional tickerB))))]
  else VUndefined.

Definition getOrderHistory (this : t) (tickerA tickerB : option string) : M Value :=
  let opts := market_opts tickerA tickerB in
  r <- http this "/account/getorderhistory" opts ;;
  result_of r.

Definition getDepositHistory (this : t) (currency : option string) : M Value :=
  r <- http this "/account/getdeposithistory"
         (with_params [("currency", optional currency)]) ;;
  result_of r.

Definition getDepositAddress (this : t) (currency : string) : M Value :=
  r <- http this "/account/getdepositaddress" (with_params [("currency", VStr currency)]) ;;
  result_of r.

Definition getOrder (this : t) (uuid : string) : M Value :=
  r <- http this "/account/getorder" (with_params [("uuid", VStr uuid)]) ;;
  result_of r.

(** [withdraw (params)]: [{ params }] holds the caller's own object. *)
Definition withdraw (this : t) (params : Value) : M Value :=
  r <- http this "/account/withdraw" (VObj [("params", params)]) ;;
  result_of r.

Definition getWithdrawlHistory (this : t) (currency : option string) : M Value :=
  r <- http this "/account/getwithdrawalhistory"
         (with_params [("currency", optional currency)]) ;;
  result_of r.

Definition buyLimit (this : t) (tickerA tickerB quantity rate : string) : M Value :=
  let market := market_of tickerA tickerB in
  r <- http this "/market/buylimit"
         (with_params [ ("market", VStr market);
                        ("quantity", VStr quantity);
                        ("rate", VStr rate) ]) ;;
  result_of r.

Definition sellLimit (this : t) (tickerA tickerB quantity rate : string) : M Value :=
  let market := market_of tickerA tickerB in
  r <- http this "/market/selllimit"
         (with_params [ ("market", VStr market);
                        ("quantity", VStr quantity);
                        ("rate", VStr rate) ]) ;;
  result_of r.

Definition cancelOrder (this : t) (uuid : string) : M Value :=
  _ <- http this "/market/cancel" (with_params [("uuid", VStr uuid)]) ;;
  ret VUndefined.

Definition getOpenOrders (this : t) (tickerA tickerB : option string) : M Value :=
  let market := market_of (to_string (optional tickerA)) (to_string (optional tickerB)) in
  let opts := market_opts tickerA tickerB in
  r <- http this "/market/getopenorders" opts ;;
  result_of r.

(** The wrapper methods, by name and arguments. *)
Inductive Call : Type :=
| GetMarkets
| GetCurrencies
| GetTicker (tickerA tickerB : string)
| GetMarketSummaries
| GetMarketSummary (tickerA tickerB : string)
| GetOrderBook (tickerA tickerB type : string)
| GetMarketHistory (tickerA tickerB : string)
| GetBalances
| GetBalance (currency : string)
| GetOrderHistory (tickerA tickerB : option string)
| GetDepositHistory (currency : option string)
| GetDepositAddress (currency : string)
| GetOrder (uuid : string)
| Withdraw (params : Value)
| GetWithdrawlHistory (currency : option string)
| BuyLimit (tickerA tickerB quantity rate : string)
| SellLimit (tickerA tickerB quantity rate : string)
| CancelOrder (uuid : string)
| GetOpenOrders (tickerA tickerB : option string).

Definition invoke (this : t) (c : Call) : M Value :=
  match c with
  | GetMarkets => getMarkets this
  | GetCurrencies => getCurrencies this
  | GetTicker a b => getTicker this a b
  | GetMarketSummaries => getMarketSummaries this
  | GetMarketSummary a b => getMarketSummary this a b
  | GetOrderBook a b ty => getOrderBook this a b ty
  | GetMarketHistory a b => getMarketHistory this a b
  | GetBalances => getBalances this
  | GetBalance c => getBalance this c
  | GetOrderHistory a b => getOrderHistory this a b
  | GetDepositHistory c => getDepositHistory this c
  | GetDepositAddress c => getDepositAddress this c
  | GetOrder u => getOrder this u
  | Withdraw p => withdraw this p
  | GetWithdrawlHistory c => getWithdrawlHistory this c
  | BuyLimit a b q r => buyLimit this a b q r
  | SellLimit a b q r => sellLimit this a b q r
  | CancelOrder u => cancelOrder this u
  | GetOpenOrders a b => getOpenOrders this a b
  end.

End Transport.

End RestClient.

(** * Vocabulary of the statements *)

Import Js QueryString UrlJoin RestClient.

(** The position of a character in the alphabet, 64 when it is not there. *)
Fixpoint b64_find (c : ascii) (l : list ascii) : nat :=
  match l with
  | [] => O
  | x :: t => if Ascii.eqb c x then O else S (b64_find c t)
  end.

(** Goals about [/] and [mod] on bytes. *)
Ltac euclid := Z.to_euclidean_division_equations; lia.

(** An entropy stream to run the code on. *)
Definition sample_entropy (i : nat) : ascii := ascii_of_nat (7 * i + 3).

(** The object literal [{apikey, nonce}] that [http] merges into the
    parameters, with the nonce drawn in world [w]. *)
Definition credentials (this : RestClient.t) (w : World) : Obj :=
  [ ("apikey", VStr (apikey (options this)));
    ("nonce", VStr (Crypto.base64 (Crypto.randomBytes 16 (entropy w) (cursor w)))) ].

(** The object literal that per-call options are merged over. *)
Definition request_literal (fullUrl apisign : string) : Obj :=
  [ ("url", VStr fullUrl);
    ("headers", VObj [("apisign", VStr apisign)]);
    ("validateStatus", VFun AlwaysTrue) ].

(** The keys [http] neither deletes nor injects. *)
Definition untouched (k : string) : Prop :=
  k <> "params" /\ k <> "apikey" /\ k <> "nonce".

(** The heap once [Object.assign] has written [merged] to [target]. *)
Definition heap_after_assign (h : Heap) (target : Value) (merged : Obj) : Heap :=
  match target with
  | VRef l => store h l merged
  | _ => h
  end.


(** A character of a path segment: none of [/ : ? # &] and no white space. *)
Definition plain (c : ascii) : bool :=
  negb (is_char "/" c || is_char ":" c || is_char "?" c || is_char "#" c
        || is_char "&" c || is_space c).

(** A character that no pass of [normalize] reacts to after a [?]. *)
Definition quiet (c : ascii) : bool :=
  negb (is_char "/" c || is_char ":" c || is_char "?" c || is_char "#" c).

(** A path segment: not empty, plain characters only. *)
Definition segment (s : string) : Prop := s <> EmptyString /\ Str.all plain s = true.

Fixpoint last_char (s : string) : option ascii :=
  match s with
  | EmptyString => None
  | String c EmptyString => Some c
  | String _ t => last_char t
  end.

(** A part after which a run of slashes is collapsed: its last character is
    none of those the second pass spares. *)
Definition joint (s : string) : bool :=
  match last_char s with
  | Some c => negb (spared c)
  | None => true
  end.

Definition starts_slash (s : string) : bool :=
  match s with
  | String c _ => is_char "/" c
  | EmptyString => false
  end.

Definition all_ascii : list ascii := map ascii_of_nat (seq 0 256).

(** What [escape] writes. *)
Definition escaped (c : ascii) : bool := unreserved c || is_char "%" c.

(** What [stringify] writes. *)
Definition qs_char (c : ascii) : bool := escaped c || is_char "=" c || is_char "&" c.

(** The fixed first part of every URL. *)
Definition base : string := "https://bittrex.com/api/".

(** The tail of the joined string, after the base: version, path, query. *)
Definition tail (ver : string) (k m : nat) (segs : list string) (qs : string) : string :=
  ver ++ String "/"
    ((Str.repeat "/" k ++ Str.join "/" segs ++ Str.repeat "/" m) ++ String "/" (String "?" qs)).

Definition amp : ascii := "&"%char.

Definition not_amp (c : ascii) : bool := negb (Ascii.eqb c amp).

(** One [key=value] field. *)
Definition field (k : string) (v : Value) : string :=
  (escape k ++ "=") ++ escape (stringifyPrimitive v).

(** The fields of an object, an array value giving one per item. *)
Definition entry_fields (kv : string * Value) : list string :=
  match snd kv with
  | VArr items => map (field (fst kv)) items
  | v => [field (fst kv) v]
  end.

(** All fields of an object, in order. *)
Definition field_list (o : Obj) : list string := flat_map entry_fields o.

Definition not_eq (c : ascii) : bool := negb (is_char "=" c).

(** The shape [Models.ApiResponse] that [http] reads a 200 body at. *)
Definition is_ApiResponse (v : Value) : Prop :=
  exists (body : Obj) (success : bool),
    v = VObj body /\ prop "success" body = VBool success.

(** The credentials of the test suite. *)
Definition sample_options : BittrexApiOptions :=
  mkOptions "an-api-key-should-go-here" "an-api-secret-should-go-here" None None.

Definition sample_world : World := mkWorld initial_heap sample_entropy 0.

(** The client of the test suite, as [constructor] makes it. *)
Definition sample_client : RestClient.t :=
  mkClient sample_options (axios_create [("timeout", VNum 15000)]).

(** A client configured for a version of its own. *)
Definition versioned_client : RestClient.t :=
  mkClient
    (mkOptions "an-api-key-should-go-here" "an-api-secret-should-go-here" None (Some "vA"))
    (axios_create [("timeout", VNum 15000)]).

Definition v2_client : RestClient.t :=
  mkClient
    (mkOptions "an-api-key-should-go-here" "an-api-secret-should-go-here" None (Some "v2.0"))
    (axios_create [("timeout", VNum 15000)]).

(** A transport that answers every request alike. *)
Definition answer (status : Z) (statusText body : Value) :
    AxiosInstance -> Obj -> TransportResult :=
  fun _ _ => Responded (mkResponse status statusText [] body).

(** A 404 with an empty body, whose status text the transport gives as
    [null]. *)
Definition not_found : AxiosInstance -> Obj -> TransportResult :=
  answer 404 VNull (VObj []).

(** A caller's own objects: a parameter mapping at place 1 and the options
    that hold it at place 2. *)
Definition caller_world : World :=
  mkWorld
    (initial_heap ++
     [ [("market", VStr "BTC-LTC")];
       [("params", VRef 1); ("timeout", VNum 5000)] ])%list
    sample_entropy 0.

Definition ticker_body : Value :=
  VObj [ ("success", VBool true);
         ("message", VStr EmptyString);
         ("result", VObj [("Bid", VNum 2); ("Ask", VNum 3); ("Last", VNum 3)]) ].

Definition order_body : Value :=
  VObj [ ("success", VBool true);
         ("message", VStr EmptyString);
         ("result", VObj [("uuid", VStr "e606d53c-8d70-11e3-94b5-425861b86ab6")]) ].

Definition failed_body : Value :=
  VObj [("success", VBool false); ("message", VStr "something went wrong")].

Definition own_credentials : Value :=
  VObj [("params", VObj [ ("apikey", VStr "mine");
                          ("market", VStr "BTC-LTC");
                          ("nonce", VStr "old") ])].

Definition summary_body : Obj :=
  [ ("success", VBool true);
    ("message", VStr EmptyString);
    ("result", VArr [VObj [("MarketName", VStr "BTC-LTC"); ("Last", VNum 3)]]) ].

(** The heap once [delete v[k]] has run. *)
Definition heap_after_delete (h : Heap) (v : Value) (k : string) : Heap :=
  match v with
  | VRef l => store h l (delete k (deref h l))
  | _ => h
  end.

(** The value [delete v[k]] leaves in a variable that held [v]. *)
Definition after_delete (v : Value) (k : string) : Value :=
  match v with
  | VObj props => VObj (delete k props)
  | _ => v
  end.

(** The heap a call of [http] leaves, when [options.params] was [params]. *)
Definition heap_after_http (this : RestClient.t) (w : World) (opts params : Value) : Heap :=
  let target := or_else params (VObj []) in
  heap_after_delete
    (heap_after_assign (heap w) target
       (assign (own_props (heap w) target) (credentials this w)))
    (default_to opts (VObj [])) "params".

(** The per-call options as [http] merges them over the request, when
    [options.params] was [params]. *)
Definition final_options (this : RestClient.t) (w : World) (opts params : Value) : Obj :=
  own_props (heap_after_http this w opts params)
            (after_delete (default_to opts (VObj [])) "params").

(** The letters [A-Z]. *)
Definition is_upper (c : ascii) : bool := in_range 65 90 c.

(** The overrides a client is constructed with: [options.axiosOptions || {}]. *)
Definition overrides (options : BittrexApiOptions) : Obj :=
  match axiosOptions options with Some o => o | None => [] end.

(** The field [market=A-B] and its separator, when [getOrderHistory] and
    [getOpenOrders] send one. *)
Definition market_field (tickerA tickerB : option string) : string :=
  match tickerA, tickerB with
  | Some a, Some b =>
      if Str.is_empty a || Str.is_empty b then EmptyString
      else "market=" ++ escape (a ++ "-" ++ b) ++ "&"
  | _, _ => EmptyString
  end.

(** A character of the base64 alphabet. *)
Definition is_b64 (c : ascii) : bool := existsb (Ascii.eqb c) Crypto.b64_alphabet.

(** The trace a wrapping error ends with, given the trace of what it wraps:
    an empty or missing one is not copied. *)
Definition kept_trace (stack : option string) : Errors.Trace :=
  match stack with
  | Some s => if Str.is_empty s then Errors.OwnTrace else Errors.TraceOf s
  | None => Errors.OwnTrace
  end.

(** A decimal digit. *)
Definition is_digit (c : ascii) : bool := in_range 48 57 c.

(** A parameter value that [stringify] writes as one field: not an array. *)
Definition scalar (kv : string * Value) : Prop := forall items, snd kv <> VArr items.

(** The field of one entry. *)
Definition entry_field (kv : string * Value) : string := field (fst kv) (snd kv).

(** Scheme, host and first path segment of every request. *)
Definition origin : string := "https://bittrex.com/api".

(** The group and the method of the endpoint that a wrapper calls. *)
Definition endpoint (c : Call) : list string :=
  match c with
  | GetMarkets => ["public"; "getmarkets"]
  | GetCurrencies => ["public"; "getcurrencies"]
  | GetTicker _ _ => ["public"; "getticker"]
  | GetMarketSummaries => ["public"; "getmarketsummaries"]
  | GetMarketSummary _ _ => ["public"; "getmarketsummary"]
  | GetOrderBook _ _ _ => ["public"; "getorderbook"]
  | GetMarketHistory _ _ => ["public"; "getmarkethistory"]
  | GetBalances => ["account"; "getbalances"]
  | GetBalance _ => ["account"; "getbalance"]
  | GetOrderHistory _ _ => ["account"; "getorderhistory"]
  | GetDepositHistory _ => ["account"; "getdeposithistory"]
  | GetDepositAddress _ => ["account"; "getdepositaddress"]
  | GetOrder _ => ["account"; "getorder"]
  | Withdraw _ => ["account"; "withdraw"]
  | GetWithdrawlHistory _ => ["account"; "getwithdrawalhistory"]
  | BuyLimit _ _ _ _ => ["market"; "buylimit"]
  | SellLimit _ _ _ _ => ["market"; "selllimit"]
  | CancelOrder _ => ["market"; "cancel"]
  | GetOpenOrders _ _ => ["market"; "getopenorders"]
  end.

(** The NUL character. *)
Definition nul : string := String zero EmptyString.

(** What [escape] writes for a character it does not keep. *)
Definition enc (c : ascii) : string := percent_all (Str.utf8_unit c).

(** A key and the text of its value, as a query string spells them. *)
Definition entry_text (kv : string * Value) : string * string :=
  (fst kv, stringifyPrimitive (snd kv)).

(** * Proofs *)

(** ** Strings *)

Lemma append_nil_r (s : string) : s ++ EmptyString = s.
Proof. induction s as [|c s IH]; simpl; [reflexivity | now rewrite IH]. Qed.

Lemma append_assoc (a b c : string) : (a ++ b) ++ c = a ++ (b ++ c).
Proof. induction a as [|x a IH]; simpl; [reflexivity | now rewrite IH]. Qed.

Lemma all_append (p : ascii -> bool) (a b : string) :
  Str.all p (a ++ b) = Str.all p a && Str.all p b.
Proof.
  induction a as [|x a IH]; simpl; [reflexivity |].
  now rewrite IH, andb_assoc.
Qed.

Lemma all_impl (p q : ascii -> bool) (s : string) :
  (forall c, p c = true -> q c = true) -> Str.all p s = true -> Str.all q s = true.
Proof.
  intros Hpq. induction s as [|c s IH]; simpl; [reflexivity |].
  rewrite !andb_true_iff. intros [Hc Hs]. split; auto.
Qed.

(** ** Base64 *)

Section Base64.

Local Open Scope Z_scope.

Lemma byte_val_range (c : ascii) : 0 <= Crypto.byte_val c < 256.
Proof.
  unfold Crypto.byte_val. pose proof (N_ascii_bounded c). lia.
Qed.

Lemma byte_val_inj (a b : ascii) : Crypto.byte_val a = Crypto.byte_val b -> a = b.
Proof.
  unfold Crypto.byte_val. intros H. apply N2Z.inj in H.
  rewrite <- (ascii_N_embedding a), <- (ascii_N_embedding b). now rewrite H.
Qed.

Lemma b64_find_char :
  forallb (fun i => Nat.eqb (b64_find (Crypto.b64_char (Z.of_nat i)) Crypto.b64_alphabet) i)
          (seq 0 64) = true.
Proof. vm_compute. reflexivity. Qed.

Lemma b64_char_inj (n m : Z) :
  0 <= n < 64 -> 0 <= m < 64 -> Crypto.b64_char n = Crypto.b64_char m -> n = m.
Proof.
  intros Hn Hm H.
  pose proof b64_find_char as F. rewrite forallb_forall in F.
  assert (Fn := F (Z.to_nat n)). assert (Fm := F (Z.to_nat m)).
  rewrite in_seq, Z2Nat.id, Nat.eqb_eq in Fn, Fm by lia.
  rewrite H in Fn. rewrite Fn in Fm by lia. lia.
Qed.

Lemma b64_char_not_pad (n : Z) : 0 <= n < 64 -> Crypto.b64_char n <> Crypto.b64_pad.
Proof.
  intros Hn H.
  assert (F : forallb (fun i => negb (Ascii.eqb (Crypto.b64_char (Z.of_nat i)) Crypto.b64_pad))
                (seq 0 64) = true) by (vm_compute; reflexivity).
  rewrite forallb_forall in F. specialize (F (Z.to_nat n)).
  rewrite in_seq, Z2Nat.id, H in F by lia.
  rewrite Ascii.eqb_refl in F. simpl in F. specialize (F ltac:(lia)). discriminate.
Qed.

Lemma base64_length (b : list ascii) :
  String.length (Crypto.base64 b) = (4 * ((List.length b + 2) / 3))%nat.
Proof.
  revert b.
  assert (H : forall n (b : list ascii), (List.length b < n)%nat ->
            String.length (Crypto.base64 b) = (4 * ((List.length b + 2) / 3))%nat).
  { induction n as [|n IH]; intros b Hb; [lia |].
    destruct b as [|x [|y [|z rest]]]; try reflexivity.
    cbn [Crypto.base64 String.length List.length].
    rewrite IH by (simpl in Hb; lia).
    replace (S (S (S (List.length rest))) + 2)%nat with (1 * 3 + (List.length rest + 2))%nat by lia.
    rewrite Nat.div_add_l by lia. lia. }
  intros b. apply (H (S (List.length b))). lia.
Qed.

End Base64.

Section Base64Inj.

Local Open Scope Z_scope.

Lemma sextet_ranges (x y z : Z) :
  0 <= x < 256 -> 0 <= y < 256 -> 0 <= z < 256 ->
  0 <= x / 4 < 64 /\ 0 <= x mod 4 * 16 < 64 /\ 0 <= x mod 4 * 16 + y / 16 < 64 /\
  0 <= y mod 16 * 4 < 64 /\ 0 <= y mod 16 * 4 + z / 64 < 64 /\ 0 <= z mod 64 < 64.
Proof. intros. repeat split; euclid. Qed.

Lemma sextets1_inj (x x' : Z) :
  x / 4 = x' / 4 -> x mod 4 * 16 = x' mod 4 * 16 -> x = x'.
Proof. intros. euclid. Qed.

Lemma sextets2_inj (x y x' y' : Z) :
  0 <= y < 256 -> 0 <= y' < 256 ->
  x / 4 = x' / 4 -> x mod 4 * 16 + y / 16 = x' mod 4 * 16 + y' / 16 ->
  y mod 16 * 4 = y' mod 16 * 4 -> x = x' /\ y = y'.
Proof. intros. split; euclid. Qed.

Lemma sextets3_inj (x y z x' y' z' : Z) :
  0 <= y < 256 -> 0 <= y' < 256 -> 0 <= z < 256 -> 0 <= z' < 256 ->
  x / 4 = x' / 4 -> x mod 4 * 16 + y / 16 = x' mod 4 * 16 + y' / 16 ->
  y mod 16 * 4 + z / 64 = y' mod 16 * 4 + z' / 64 -> z mod 64 = z' mod 64 ->
  x = x' /\ y = y' /\ z = z'.
Proof. intros. repeat split; euclid. Qed.

Lemma base64_inj_bounded (n : nat) :
  forall a b : list ascii,
    (List.length a < n)%nat -> Crypto.base64 a = Crypto.base64 b -> a = b.
Proof.
  induction n as [|n IH]; intros a b Hlen H; [lia |].
  destruct a as [|x [|y [|z ra]]]; destruct b as [|x' [|y' [|z' rb]]];
    cbn [Crypto.base64] in H; try discriminate H; try reflexivity;
    pose proof (byte_val_range x) as Bx; pose proof (byte_val_range x') as Bx';
    try pose proof (byte_val_range y) as By; try pose proof (byte_val_range y') as By';
    try pose proof (byte_val_range z) as Bz; try pose proof (byte_val_range z') as Bz'.
  - (* one byte each *)
    injection H as H1 H2.
    destruct (sextet_ranges _ 0 0 Bx ltac:(lia) ltac:(lia)) as (R1 & R2 & _).
    destruct (sextet_ranges _ 0 0 Bx' ltac:(lia) ltac:(lia)) as (R1' & R2' & _).
    apply b64_char_inj in H1, H2; try assumption.
    f_equal. apply byte_val_inj. eapply sextets1_inj; eassumption.
  - (* one byte against two *)
    injection H as H1 H2 H3.
    destruct (sextet_ranges _ _ 0 Bx' By' ltac:(lia)) as (_ & _ & _ & R & _).
    symmetry in H3. now apply b64_char_not_pad in H3.
  - injection H as H1 H2 H3 H4.
    destruct (sextet_ranges _ _ _ Bx' By' Bz') as (_ & _ & _ & _ & R & _).
    symmetry in H3. now apply b64_char_not_pad in H3.
  - injection H as H1 H2 H3.
    destruct (sextet_ranges _ _ 0 Bx By ltac:(lia)) as (_ & _ & _ & R & _).
    now apply b64_char_not_pad in H3.
  - (* two bytes each *)
    injection H as H1 H2 H3.
    destruct (sextet_ranges _ _ 0 Bx By ltac:(lia)) as (R1 & _ & R2 & R3 & _).
    destruct (sextet_ranges _ _ 0 Bx' By' ltac:(lia)) as (R1' & _ & R2' & R3' & _).
    apply b64_char_inj in H1, H2, H3; try assumption.
    destruct (sextets2_inj _ _ _ _ By By' H1 H2 H3) as [Ex Ey].
    apply byte_val_inj in Ex, Ey. now subst.
  - injection H as H1 H2 H3 H4 H5.
    destruct (sextet_ranges _ _ _ Bx' By' Bz') as (_ & _ & _ & _ & _ & R).
    symmetry in H4. now apply b64_char_not_pad in H4.
  - injection H as H1 H2 H3 H4.
    destruct (sextet_ranges _ _ _ Bx By Bz) as (_ & _ & _ & _ & R & _).
    now apply b64_char_not_pad in H3.
  - injection H as H1 H2 H3 H4 H5.
    destruct (sextet_ranges _ _ _ Bx By Bz) as (_ & _ & _ & _ & _ & R).
    now apply b64_char_not_pad in H4.
  - (* three bytes and more *)
    injection H as H1 H2 H3 H4 H5.
    destruct (sextet_ranges _ _ _ Bx By Bz) as (R1 & _ & R2 & _ & R3 & R4).
    destruct (sextet_ranges _ _ _ Bx' By' Bz') as (R1' & _ & R2' & _ & R3' & R4').
    apply b64_char_inj in H1, H2, H3, H4; try assumption.
    destruct (sextets3_inj _ _ _ _ _ _ By By' Bz Bz' H1 H2 H3 H4) as (Ex & Ey & Ez).
    apply byte_val_inj in Ex, Ey, Ez. subst.
    f_equal. f_equal. f_equal. apply IH; [simpl in Hlen; lia | assumption].
Qed.

Lemma base64_inj (a b : list ascii) : Crypto.base64 a = Crypto.base64 b -> a = b.
Proof. apply (base64_inj_bounded (S (List.length a))). lia. Qed.

End Base64Inj.

(** ** The nonce *)

Lemma randomBytes_length (n : nat) (e : nat -> ascii) (c : nat) :
  List.length (Crypto.randomBytes n e c) = n.
Proof. unfold Crypto.randomBytes. now rewrite length_map, length_seq. Qed.

Lemma map_nth_seq {A : Type} (d : A) (x : list A) (c : nat) :
  map (fun i => nth (i - c) x d) (seq c (List.length x)) = x.
Proof.
  revert c. induction x as [|a x IH]; intros c; [reflexivity |].
  cbn [List.length seq map]. rewrite Nat.sub_diag. cbn [nth]. f_equal.
  etransitivity; [| apply (IH (S c))].
  apply map_ext_in. intros i Hi. apply in_seq in Hi.
  replace (i - c) with (S (i - S c)) by lia. reflexivity.
Qed.

(** Any two blocks of sixteen bytes are what some entropy stream holds at two
    places that do not overlap. *)
Lemma randomBytes_any (c1 c2 : nat) (x y : list ascii) :
  c1 + 16 <= c2 -> List.length x = 16 -> List.length y = 16 ->
  exists e, Crypto.randomBytes 16 e c1 = x /\ Crypto.randomBytes 16 e c2 = y.
Proof.
  intros Hc Hx Hy.
  exists (fun i => if (i <? c2)%nat then nth (i - c1) x zero else nth (i - c2) y zero).
  unfold Crypto.randomBytes. split.
  - etransitivity; [| apply (map_nth_seq zero x c1)]. rewrite Hx.
    apply map_ext_in. intros i Hi. apply in_seq in Hi.
    destruct (Nat.ltb_spec i c2); [reflexivity | lia].
  - etransitivity; [| apply (map_nth_seq zero y c2)]. rewrite Hy.
    apply map_ext_in. intros i Hi. apply in_seq in Hi.
    destruct (Nat.ltb_spec i c2); [lia | reflexivity].
Qed.

(** C4. Every call of [getNonce] returns the base64 text of the sixteen bytes
    it draws next from the system's entropy, which is 24 characters long. Two
    calls draw from places of the stream that do not overlap, any two blocks
    can come out of them, and the two nonces are equal exactly when the two
    blocks drawn are. *)
Theorem getNonce_fresh (w1 w2 : World) :
  entropy w2 = entropy w1 ->
  cursor w1 + 16 <= cursor w2 ->
  let b1 := Crypto.randomBytes 16 (entropy w1) (cursor w1) in
  let b2 := Crypto.randomBytes 16 (entropy w2) (cursor w2) in
  exists n1 n2 : string,
    Utils.getNonce w1 = (Resolved n1, mkWorld (heap w1) (entropy w1) (cursor w1 + 16)) /\
    Utils.getNonce w2 = (Resolved n2, mkWorld (heap w2) (entropy w2) (cursor w2 + 16)) /\
    n1 = Crypto.base64 b1 /\ n2 = Crypto.base64 b2 /\
    List.length b1 = 16 /\ List.length b2 = 16 /\
    String.length n1 = 24 /\ String.length n2 = 24 /\
    (forall i j, i < 16 -> j < 16 -> cursor w1 + i <> cursor w2 + j) /\
    (forall x y, List.length x = 16 -> List.length y = 16 ->
       exists e, Crypto.randomBytes 16 e (cursor w1) = x /\
                 Crypto.randomBytes 16 e (cursor w2) = y) /\
    (n1 = n2 <-> b1 = b2).
Proof.
  intros He Hc b1 b2.
  exists (Crypto.base64 b1), (Crypto.base64 b2).
  assert (L1 : List.length b1 = 16) by apply randomBytes_length.
  assert (L2 : List.length b2 = 16) by apply randomBytes_length.
  assert (N1 : String.length (Crypto.base64 b1) = 24)
    by (rewrite base64_length, L1; reflexivity).
  assert (N2 : String.length (Crypto.base64 b2) = 24)
    by (rewrite base64_length, L2; reflexivity).
  split; [reflexivity |]. split; [reflexivity |].
  split; [reflexivity |]. split; [reflexivity |].
  split; [exact L1 |]. split; [exact L2 |].
  split; [exact N1 |]. split; [exact N2 |].
  split; [intros i j Hi Hj; lia |].
  split.
  - intros x y Hx Hy. now apply randomBytes_any.
  - split; [apply base64_inj | intros ->; reflexivity].
Qed.

Lemma getNonce_fresh_witness :
  let w1 := mkWorld RestClient.initial_heap sample_entropy 0 in
  let w2 := mkWorld RestClient.initial_heap sample_entropy 16 in
  entropy w2 = entropy w1 /\ cursor w1 + 16 <= cursor w2 /\
  exists n1 n2 : string,
    fst (Utils.getNonce w1) = Resolved n1 /\ fst (Utils.getNonce w2) = Resolved n2 /\
    String.length n1 = 24 /\ n1 <> n2.
Proof.
  intros w1 w2.
  assert (He : entropy w2 = entropy w1) by reflexivity.
  assert (Hc : cursor w1 + 16 <= cursor w2) by (simpl; lia).
  split; [exact He |]. split; [exact Hc |].
  destruct (getNonce_fresh w1 w2 He Hc)
    as (n1 & n2 & G1 & G2 & _ & _ & _ & _ & L1 & _ & _ & _ & Heq).
  exists n1, n2. rewrite G1, G2. repeat split; try assumption.
  intros E. apply Heq in E. vm_compute in E. discriminate E.
Defined.

(** ** Property lists and the heap *)

Section Objects.

Import Js.

Lemma lookup_set_same (k : string) (v : Value) (o : Obj) :
  lookup k (set k v o) = Some v.
Proof.
  induction o as [|[k' v'] o IH]; simpl.
  - now rewrite String.eqb_refl.
  - destruct (String.eqb k k') eqn:E; simpl; rewrite ?String.eqb_refl, ?E; auto.
Qed.

Lemma lookup_set_other (k k' : string) (v : Value) (o : Obj) :
  k <> k' -> lookup k (set k' v o) = lookup k o.
Proof.
  intros Hk. apply String.eqb_neq in Hk.
  induction o as [|[k2 v2] o IH]; simpl.
  - now rewrite Hk.
  - destruct (String.eqb k' k2) eqn:E; simpl.
    + apply String.eqb_eq in E. subst k2. now rewrite Hk.
    + now rewrite IH.
Qed.

Lemma lookup_delete_other (k k' : string) (o : Obj) :
  k <> k' -> lookup k (delete k' o) = lookup k o.
Proof.
  intros Hk. apply String.eqb_neq in Hk.
  induction o as [|[k2 v2] o IH]; simpl; [reflexivity |].
  destruct (String.eqb k' k2) eqn:E; simpl.
  - apply String.eqb_eq in E. subst k2. now rewrite Hk.
  - now rewrite IH.
Qed.

Lemma lookup_assign_absent (k : string) (source target : Obj) :
  has k source = false -> lookup k (assign target source) = lookup k target.
Proof.
  unfold assign, has. revert target.
  induction source as [|[k' v'] s IH]; intros target H; simpl in *; [reflexivity |].
  destruct (String.eqb k k') eqn:E; [discriminate H |].
  rewrite IH by assumption. apply lookup_set_other. now apply String.eqb_neq.
Qed.

Lemma deref_store_same (h : Heap) (l : nat) (o : Obj) :
  l < List.length h -> deref (store h l o) l = o.
Proof.
  unfold deref. revert l. induction h as [|x h IH]; intros [|l] H; simpl in *; try lia; auto.
  apply IH. lia.
Qed.

Lemma deref_store_other (h : Heap) (l l' : nat) (o : Obj) :
  l' <> l -> deref (store h l o) l' = deref h l'.
Proof.
  unfold deref. revert l l'.
  induction h as [|x h IH]; intros [|l] [|l'] H; simpl; try reflexivity; try congruence.
  apply IH. congruence.
Qed.

Lemma store_outside (h : Heap) (l : nat) (o : Obj) :
  List.length h <= l -> store h l o = h.
Proof.
  revert l. induction h as [|x h IH]; intros [|l] H; simpl in *; try reflexivity; try lia.
  f_equal. apply IH. lia.
Qed.

End Objects.

(** ** What [prepare] builds *)

Section Prepare.

Import Js RestClient.

Lemma js_get_total (v : Value) (k : string) (w : World) :
  v <> VUndefined -> v <> VNull -> exists x, js_get v k w = (Resolved x, w).
Proof. intros H1 H2. destruct v; try congruence; eexists; reflexivity. Qed.

Lemma js_assign_eq (target : Value) (source : Obj) (h : Heap) (e : nat -> ascii) (c : nat) :
  let merged := assign (own_props h target) source in
  js_assign target source (mkWorld h e c) =
    (Resolved merged, mkWorld (heap_after_assign h target merged) e c).
Proof. destruct target; reflexivity. Qed.

Lemma own_props_after_assign (h : Heap) (target v : Value) (source : Obj) (k : string) :
  has k source = false ->
  lookup k (own_props (heap_after_assign h target (assign (own_props h target) source)) v)
  = lookup k (own_props h v).
Proof.
  intros Hk.
  destruct v; try reflexivity.
  destruct target; try reflexivity.
  cbn [own_props heap_after_assign].
  destruct (Nat.eq_dec l l0) as [-> | Hne].
  - destruct (Nat.lt_ge_cases l0 (List.length h)) as [Hin | Hout].
    + rewrite deref_store_same by assumption. now apply lookup_assign_absent.
    + now rewrite store_outside.
  - now rewrite deref_store_other.
Qed.

Lemma js_delete_spec (v : Value) (k : string) (h : Heap) (e : nat -> ascii) (c : nat) :
  exists (v' : Value) (h' : Heap),
    js_delete v k (mkWorld h e c) = (Resolved v', mkWorld h' e c) /\
    forall k', k' <> k -> lookup k' (own_props h' v') = lookup k' (own_props h v).
Proof.
  destruct v;
    try (eexists; exists h; split; [reflexivity | intros; reflexivity]).
  - exists (VObj (delete k props)), h. split; [reflexivity |].
    intros k' Hk. cbn [own_props]. now apply lookup_delete_other.
  - exists (VRef l), (store h l (delete k (deref h l))). split; [reflexivity |].
    intros k' Hk. cbn [own_props].
    destruct (Nat.lt_ge_cases l (List.length h)) as [Hin | Hout].
    + rewrite deref_store_same by assumption. now apply lookup_delete_other.
    + now rewrite store_outside.
Qed.

Lemma own_props_default (h : Heap) (v : Value) :
  own_props h (default_to v (VObj [])) = own_props h v.
Proof. destruct v; reflexivity. Qed.

Lemma prepare_spec (this : t) (path : string) (opts params : Value) (w : World) :
  js_get (default_to opts (VObj [])) "params" w = (Resolved params, w) ->
  exists (p : Prepared) (w' : World) (final : Obj),
    prepare this path opts w = (Resolved p, w') /\
    querystring p =
      QueryString.stringify
        (negb (is_function (or_else params (VObj []))))
        (assign (own_props (heap w) (or_else params (VObj []))) (credentials this w)) /\
    fullUrl p =
      UrlJoin.url [ "https://bittrex.com/api/";
                    or_default (apiVersion (options this)) "v1.1";
                    path;
                    "?" ++ querystring p ] /\
    signature p = Utils.getHmac (fullUrl p) (apisecret (options this)) /\
    requestOptions p = assign (request_literal (fullUrl p) (signature p)) final /\
    (forall k, untouched k -> lookup k final = lookup k (own_props (heap w) opts)) /\
    entropy w' = entropy w /\ cursor w' = cursor w + 16.
Proof.
  destruct w as [h e c]. cbn [heap entropy cursor]. intros G.
  unfold prepare, bind. rewrite G.
  cbv beta iota. unfold Utils.getNonce. cbv beta iota zeta.
  cbn [heap entropy cursor].
  rewrite js_assign_eq. cbv beta iota zeta.
  fold (credentials this (mkWorld h e c)).
  set (merged := assign (own_props h (or_else params (VObj []))) _).
  set (h1 := heap_after_assign h _ merged).
  destruct (js_delete_spec (default_to opts (VObj [])) "params" h1 e (c + 16))
    as (opts' & h2 & D & Frame).
  rewrite D. unfold ret. cbn [heap].
  eexists. eexists. exists (own_props h2 opts').
  split; [reflexivity |].
  cbn [querystring fullUrl signature requestOptions entropy cursor].
  repeat (split; [reflexivity |]).
  split; [| split; reflexivity].
  intros k (K1 & K2 & K3).
  rewrite Frame by assumption.
  subst h1 merged. rewrite own_props_after_assign.
  - now rewrite own_props_default.
  - unfold has, credentials. cbn [lookup].
    apply String.eqb_neq in K2, K3. now rewrite K2, K3.
Qed.

End Prepare.

(** ** The signature *)

Section Signature.

Local Open Scope Z_scope.









(** The digests of FIPS 180-4 and RFC 4231 (test case 2). *)
Example sha512_abc :
  Crypto.hex (Crypto.sha512 (Crypto.bytes (Str.utf8 "abc"))) =
  "ddaf35a193617abacc417349ae20413112e6fa4e89a97ea20a9eeee64b55d39a"
  ++ "2192992a274fc1a836ba3c23a3feebbd454d4423643ce80e2a9ac94fa54ca49f".
Proof. vm_compute. reflexivity. Qed.

Example getHmac_rfc4231 :
  Utils.getHmac "what do ya want for nothing?" "Jefe" =
  "164b7a7bfcf819e2e395fbe73b56e0a387bd64222e831fd610270cd7ea250554"
  ++ "9758bf75c05a994a6d034f65f8f0e6fdcaeab1a34d4a6b4b636e070a38bce737".
Proof. vm_compute. reflexivity. Qed.

End Signature.

Section Headers.

Import Js RestClient.

Lemma prepare_total (this : t) (path : string) (opts : Value) (w : World) :
  opts <> VNull ->
  exists params, js_get (default_to opts (VObj [])) "params" w = (Resolved params, w).
Proof.
  intros H. apply js_get_total; destruct opts; simpl; congruence.
Qed.


Lemma untouched_url : untouched "url".
Proof. repeat split; discriminate. Qed.


End Headers.

(** ** Joining the URL *)

Section Url.

Import UrlJoin.

#[local] Arguments is_char : simpl never.
#[local] Arguments is_space : simpl never.
#[local] Arguments is_newline : simpl never.

Lemma plain_facts (c : ascii) :
  plain c = true ->
  is_char "/" c = false /\ is_char ":" c = false /\ is_char "?" c = false /\
  is_char "#" c = false /\ is_char "&" c = false /\ is_space c = false.
Proof.
  unfold plain. rewrite negb_true_iff, !orb_false_iff. tauto.
Qed.

Lemma quiet_facts (c : ascii) :
  quiet c = true ->
  is_char "/" c = false /\ is_char ":" c = false /\ is_char "?" c = false /\
  is_char "#" c = false.
Proof.
  unfold quiet. rewrite negb_true_iff, !orb_false_iff. tauto.
Qed.

Lemma slash_is_slash : is_char "/" "/" = true.
Proof. reflexivity. Qed.

(** *** First pass *)

Lemma protocol_slashes_id (s : string) :
  Str.all (fun c => negb (is_char ":" c)) s = true -> protocol_slashes s = s.
Proof.
  induction s as [|c s IH]; simpl; [reflexivity |].
  rewrite andb_true_iff, negb_true_iff. intros [-> Hs]. now rewrite IH.
Qed.

(** *** Second pass *)

Lemma consecutive_slashes_id (b : bool) (s : string) :
  Str.all (fun c => negb (is_char "/" c)) s = true -> consecutive_slashes b s = s.
Proof.
  revert b. induction s as [|c s IH]; intros b; simpl; [reflexivity |].
  rewrite andb_true_iff, negb_true_iff. intros [Hc Hs].
  rewrite Hc, andb_false_r.
  destruct s as [|d s']; [reflexivity |].
  simpl in Hs. rewrite andb_true_iff, negb_true_iff in Hs. destruct Hs as [Hd Hs'].
  rewrite Hd. cbn [andb]. f_equal. apply IH. simpl. now rewrite Hd, Hs'.
Qed.

Lemma consecutive_slashes_skip (k : nat) (rest : string) :
  consecutive_slashes true (Str.repeat "/" k ++ rest) = consecutive_slashes true rest.
Proof. induction k as [|k IH]; simpl; [reflexivity | exact IH]. Qed.

Lemma consecutive_slashes_started (rest : string) :
  starts_slash rest = false ->
  consecutive_slashes false rest = consecutive_slashes true rest.
Proof.
  destruct rest as [|c rest]; [reflexivity |]. cbn [starts_slash]. intros H.
  cbn [consecutive_slashes]. now rewrite H, andb_false_r.
Qed.

Lemma starts_slash_segment (s rest : string) : segment s -> starts_slash (s ++ rest) = false.
Proof.
  intros [Hne Hs]. destruct s as [|c s]; [congruence |].
  simpl in Hs. apply andb_true_iff in Hs. destruct Hs as [Hc _].
  now destruct (plain_facts c Hc) as (C1 & _).
Qed.

(** A segment and the slash after it are kept, and the slashes that follow
    are dropped, when the segment is a joint or when no slash follows. *)
Lemma consecutive_slashes_plain (b : bool) (s rest : string) :
  segment s -> joint s = true \/ starts_slash rest = false ->
  consecutive_slashes b (s ++ String "/" rest) = s ++ String "/" (consecutive_slashes true rest).
Proof.
  intros [Hne Hs] Hj. revert b Hj.
  induction s as [|c s IH]; intros b Hj; [congruence |].
  simpl in Hs. apply andb_true_iff in Hs. destruct Hs as [Hc Hs].
  destruct (plain_facts c Hc) as (C1 & _).
  cbn [append consecutive_slashes]. rewrite C1, andb_false_r.
  destruct s as [|d s'].
  - cbn [append]. rewrite slash_is_slash. cbn [andb].
    destruct (spared c) eqn:Sp; cbn [negb].
    + destruct Hj as [Hj | Hj]; [unfold joint in Hj; cbn [last_char] in Hj;
                                 rewrite Sp in Hj; discriminate Hj |].
      f_equal. rewrite <- (consecutive_slashes_started rest Hj).
      destruct rest as [|e rest]; [reflexivity |].
      cbn [starts_slash] in Hj. cbn [consecutive_slashes]. now rewrite Hj.
    + reflexivity.
  - cbn [append]. simpl in Hs. apply andb_true_iff in Hs. destruct Hs as [Hd Hs'].
    destruct (plain_facts d Hd) as (D1 & _).
    rewrite D1. cbn [andb]. f_equal.
    apply (IH ltac:(discriminate)); [simpl; now rewrite Hd, Hs' |].
    destruct Hj as [Hj | Hj]; [left | now right]. exact Hj.
Qed.

Lemma join_cons (s : string) (l : list string) :
  l <> [] -> Str.join "/" (s :: l) = s ++ String "/" (Str.join "/" l).
Proof. destruct l; [congruence | reflexivity]. Qed.

Lemma consecutive_slashes_join (b : bool) (segs : list string) (rest : string) :
  segs <> [] -> Forall segment segs ->
  joint (last segs EmptyString) = true \/ starts_slash rest = false ->
  consecutive_slashes b (Str.join "/" segs ++ String "/" rest)
  = Str.join "/" segs ++ String "/" (consecutive_slashes true rest).
Proof.
  intros Hne Hall Hj. revert b.
  induction Hall as [|s l Hs Hl IH]; intros b; [congruence |].
  destruct l as [|s2 l].
  - cbn [Str.join]. now apply consecutive_slashes_plain.
  - rewrite join_cons by discriminate.
    rewrite !append_assoc. cbn [append].
    rewrite consecutive_slashes_plain.
    + rewrite IH by (discriminate || exact Hj). reflexivity.
    + exact Hs.
    + right. destruct l as [|s3 l].
      * cbn [Str.join]. apply starts_slash_segment. now inversion Hl.
      * rewrite join_cons by discriminate. rewrite append_assoc.
        apply starts_slash_segment. now inversion Hl.
Qed.

(** *** Third pass *)

Lemma trailing_slash_id (s : string) :
  Str.all (fun c => negb (is_char "/" c)) s = true -> trailing_slash s = s.
Proof.
  induction s as [|c s IH]; simpl; [reflexivity |].
  rewrite andb_true_iff, negb_true_iff. intros [-> Hs]. now rewrite IH.
Qed.

Lemma trailing_slash_plain (s rest : string) :
  Str.all plain s = true -> trailing_slash (s ++ rest) = s ++ trailing_slash rest.
Proof.
  induction s as [|c s IH]; simpl; [reflexivity |].
  rewrite andb_true_iff. intros [Hc Hs].
  destruct (plain_facts c Hc) as (-> & _). now rewrite IH.
Qed.

Lemma trailing_slash_segment (s rest : string) :
  segment s ->
  trailing_slash (String "/" (s ++ rest)) = String "/" (s ++ trailing_slash rest).
Proof.
  intros [Hne Hs]. destruct s as [|c s]; [congruence |].
  simpl in Hs. apply andb_true_iff in Hs. destruct Hs as [Hc Hs].
  destruct (plain_facts c Hc) as (C1 & _ & C3 & C4 & C5 & _).
  cbn [append trailing_slash]. rewrite slash_is_slash, C3, C5, C4, C1. cbn [orb].
  now rewrite trailing_slash_plain.
Qed.

Lemma trailing_slash_join (segs : list string) (rest : string) :
  segs <> [] -> Forall segment segs ->
  trailing_slash (String "/" (Str.join "/" segs ++ rest))
  = String "/" (Str.join "/" segs ++ trailing_slash rest).
Proof.
  intros Hne Hall.
  induction Hall as [|s l Hs Hl IH]; [congruence |].
  destruct l as [|s2 l].
  - cbn [Str.join]. now apply trailing_slash_segment.
  - rewrite join_cons by discriminate.
    rewrite !append_assoc. cbn [append].
    rewrite trailing_slash_segment by assumption.
    rewrite IH by discriminate. reflexivity.
Qed.

(** *** Fourth pass *)

Lemma line_has_question_none (s : string) :
  Str.all (fun c => negb (is_char "?" c)) s = true -> line_has_question s = false.
Proof.
  induction s as [|c s IH]; simpl; [reflexivity |].
  rewrite andb_true_iff, negb_true_iff. intros [-> Hs].
  destruct (is_newline c); auto.
Qed.

Lemma question_marks_prefix (s rest : string) :
  Str.all (fun c => negb (is_char "?" c)) s = true ->
  question_marks Outside (s ++ rest) = s ++ question_marks Outside rest.
Proof.
  induction s as [|c s IH]; simpl; [reflexivity |].
  rewrite andb_true_iff, negb_true_iff. intros [-> Hs]. cbn [andb]. now rewrite IH.
Qed.

Lemma question_marks_single (s : string) :
  Str.all (fun c => negb (is_char "?" c)) s = true ->
  question_marks Outside (String "?" s) = String "?" s.
Proof.
  intros Hs. cbn [question_marks]. 
  replace (question_marks Outside s) with s
    by (rewrite <- (append_nil_r s) at 2; rewrite question_marks_prefix by assumption;
        now rewrite append_nil_r).
  destruct s as [|d s']; [reflexivity |].
  simpl in Hs. apply andb_true_iff in Hs. destruct Hs as [_ Hs].
  rewrite (line_has_question_none _ Hs), andb_false_r. reflexivity.
Qed.

End Url.

(** ** Characters of a query string *)

Section QueryChars.

Import QueryString UrlJoin.

Lemma forall_ascii (P : ascii -> bool) :
  forallb P all_ascii = true -> forall c, P c = true.
Proof.
  intros H c. rewrite forallb_forall in H. apply H.
  rewrite <- (ascii_nat_embedding c). apply in_map, in_seq.
  pose proof (nat_ascii_bounded c). lia.
Qed.

Lemma escaped_qs_char (c : ascii) : escaped c = true -> qs_char c = true.
Proof. unfold qs_char. now intros ->. Qed.

Lemma qs_char_quiet (c : ascii) : qs_char c = true -> quiet c = true.
Proof.
  revert c.
  assert (H : forall c, implb (qs_char c) (quiet c) = true)
    by (apply forall_ascii; vm_compute; reflexivity).
  intros c Hc. specialize (H c). now rewrite Hc in H.
Qed.

Lemma escaped_not_separator (c : ascii) :
  escaped c = true -> is_char "=" c = false /\ is_char "&" c = false.
Proof.
  revert c.
  assert (H : forall c, implb (escaped c) (negb (is_char "=" c) && negb (is_char "&" c)) = true)
    by (apply forall_ascii; vm_compute; reflexivity).
  intros c Hc. specialize (H c). rewrite Hc in H. simpl in H.
  apply andb_true_iff in H. now rewrite !negb_true_iff in H.
Qed.

Lemma HEX_digit_escaped (n : N) : escaped (HEX_digit n) = true.
Proof.
  unfold HEX_digit.
  destruct (Nat.lt_ge_cases (N.to_nat n) 16) as [Hlt | Hge].
  - assert (F : forallb (fun i => escaped (nth i HEX_ALPHABET "0"%char)) (seq 0 16) = true)
      by (vm_compute; reflexivity).
    rewrite forallb_forall in F. apply F, in_seq. lia.
  - rewrite nth_overflow by exact Hge. reflexivity.
Qed.

Lemma percent_escaped (b : ascii) : Str.all escaped (percent b) = true.
Proof.
  unfold percent. cbn [Str.all]. rewrite !HEX_digit_escaped. reflexivity.
Qed.

Lemma percent_all_escaped (b : list ascii) : Str.all escaped (percent_all b) = true.
Proof.
  induction b as [|x b IH]; [reflexivity |].
  cbn [percent_all]. now rewrite all_append, percent_escaped, IH.
Qed.

Lemma escape_escaped (s : string) : Str.all escaped (escape s) = true.
Proof.
  induction s as [|c s IH]; [reflexivity |].
  cbn [escape]. destruct (unreserved c) eqn:U.
  - cbn [Str.all]. unfold escaped at 1. now rewrite U, IH.
  - now rewrite all_append, percent_all_escaped, IH.
Qed.

Lemma escape_qs_char (s : string) : Str.all qs_char (escape s) = true.
Proof. apply (all_impl escaped); [apply escaped_qs_char | apply escape_escaped]. Qed.

Lemma array_fields_qs_char (ks : string) (items : list Js.Value) :
  Str.all qs_char ks = true -> Str.all qs_char (array_fields ks items) = true.
Proof.
  intros Hks. induction items as [|v items IH]; [reflexivity |].
  destruct items as [|v2 items].
  - cbn [array_fields]. now rewrite all_append, Hks, escape_qs_char.
  - change (array_fields ks (v :: v2 :: items))
      with (ks ++ escape (stringifyPrimitive v) ++ "&" ++ array_fields ks (v2 :: items)).
    now rewrite !all_append, Hks, escape_qs_char, IH.
Qed.

Lemma stringify_qs_char (is_object : bool) (o : Js.Obj) :
  Str.all qs_char (stringify is_object o) = true.
Proof.
  unfold stringify. destruct is_object; [| reflexivity].
  induction o as [|[k v] o IH]; [reflexivity |].
  cbn [fields].
  assert (Hks : Str.all qs_char (escape k ++ "=") = true)
    by now rewrite all_append, escape_qs_char.
  rewrite all_append, IH, andb_true_r.
  assert (Hsep : forall b : bool, Str.all qs_char (if b then "&" else EmptyString) = true)
    by (intros []; reflexivity).
  assert (Hsep' : forall b : bool, Str.all qs_char (if b then EmptyString else "&") = true)
    by (intros []; reflexivity).
  destruct v;
    try (rewrite !all_append, !escape_qs_char, Hsep'; reflexivity).
  rewrite all_append, Hsep, andb_true_r. now apply array_fields_qs_char.
Qed.

End QueryChars.

Section UrlShape.

Import UrlJoin.

#[local] Arguments is_char : simpl never.
#[local] Arguments is_space : simpl never.
#[local] Arguments is_newline : simpl never.

Lemma all_repeat (p : ascii -> bool) (c : ascii) (n : nat) :
  p c = true -> Str.all p (Str.repeat c n) = true.
Proof. intros H. induction n as [|n IH]; simpl; [reflexivity | now rewrite H, IH]. Qed.

Lemma all_join (p : ascii -> bool) (segs : list string) :
  p "/"%char = true -> Forall (fun s => Str.all p s = true) segs ->
  Str.all p (Str.join "/" segs) = true.
Proof.
  intros Hp Hall. induction Hall as [|s l Hs Hl IH]; [reflexivity |].
  destruct l as [|s2 l]; [exact Hs |].
  change (Str.join "/" (s :: s2 :: l)) with (s ++ String "/" (Str.join "/" (s2 :: l))).
  rewrite all_append, Hs. cbn [Str.all andb]. now rewrite Hp, IH.
Qed.

Lemma segments_all (p : ascii -> bool) (segs : list string) :
  (forall c, plain c = true -> p c = true) ->
  Forall segment segs -> Forall (fun s => Str.all p s = true) segs.
Proof.
  intros Hp Hall. eapply Forall_impl; [| exact Hall].
  intros s [_ Hs]. now apply (all_impl plain).
Qed.

Lemma tail_all (p : ascii -> bool) (ver : string) (k m : nat) (segs : list string)
    (qs : string) :
  p "/"%char = true -> p "?"%char = true ->
  (forall c, plain c = true -> p c = true) ->
  (forall c, quiet c = true -> p c = true) ->
  segment ver -> Forall segment segs -> Str.all quiet qs = true ->
  Str.all p (tail ver k m segs qs) = true.
Proof.
  intros Hs Hq Hplain Hquiet [_ Hver] Hsegs Hqs. unfold tail.
  rewrite all_append, (all_impl plain p ver Hplain Hver).
  cbn [Str.all andb]. rewrite Hs. cbn [andb].
  rewrite !all_append, !all_repeat by exact Hs.
  rewrite all_join by (try exact Hs; now apply segments_all).
  cbn [Str.all andb]. rewrite Hs, Hq. cbn [andb].
  now apply (all_impl quiet).
Qed.

Lemma repeat_slash_comm (m : nat) (rest : string) :
  Str.repeat "/" m ++ String "/" rest = String "/" (Str.repeat "/" m ++ rest).
Proof. induction m as [|m IH]; simpl; [reflexivity | now rewrite IH]. Qed.

Lemma no_slash_query (qs : string) :
  Str.all quiet qs = true ->
  Str.all (fun c => negb (is_char "/" c)) (String "?" qs) = true.
Proof.
  intros H. cbn [Str.all]. change (negb (is_char "/" "?")) with true. cbn [andb].
  apply (all_impl quiet); [| exact H].
  intros c Hc. apply quiet_facts in Hc. destruct Hc as (-> & _). reflexivity.
Qed.

Lemma no_question (p : string) :
  Str.all plain p = true -> Str.all (fun c => negb (is_char "?" c)) p = true.
Proof.
  apply all_impl. intros c Hc. apply plain_facts in Hc.
  destruct Hc as (_ & _ & -> & _). reflexivity.
Qed.

(** The joined URL has exactly one slash between the version and the path
    and none before the query, when the slashes that the path starts with
    follow a version that is a joint, and those it ends with a segment that
    is one. *)
Lemma url_shape (ver : string) (k m : nat) (segs : list string) (qs : string) :
  segment ver -> segs <> [] -> Forall segment segs -> Str.all quiet qs = true ->
  (0 < k -> joint ver = true) ->
  (0 < m -> joint (last segs EmptyString) = true) ->
  url [ base; ver; Str.repeat "/" k ++ Str.join "/" segs ++ Str.repeat "/" m; "?" ++ qs ]
  = base ++ ver ++ "/" ++ Str.join "/" segs ++ "?" ++ qs.
Proof.
  intros Hver Hne Hsegs Hqs Hk Hm.
  unfold url, normalize.
  change (Str.join "/" [base; ver;
            Str.repeat "/" k ++ Str.join "/" segs ++ Str.repeat "/" m; "?" ++ qs])
    with (base ++ String "/" (tail ver k m segs qs)).
  (* first pass *)
  assert (P1 : protocol_slashes (base ++ String "/" (tail ver k m segs qs))
               = "https:///bittrex.com/api/" ++ String "/" (tail ver k m segs qs)).
  { change (protocol_slashes (base ++ String "/" (tail ver k m segs qs)))
      with ("https:///bittrex.com/api/"
            ++ String "/" (protocol_slashes (tail ver k m segs qs))).
    rewrite protocol_slashes_id; [reflexivity |].
    apply tail_all; try assumption; try reflexivity.
    - intros c Hc. apply plain_facts in Hc. destruct Hc as (_ & -> & _). reflexivity.
    - intros c Hc. apply quiet_facts in Hc. destruct Hc as (_ & -> & _). reflexivity. }
  rewrite P1. clear P1.
  (* second pass *)
  assert (P2 : consecutive_slashes false
                 ("https:///bittrex.com/api/" ++ String "/" (tail ver k m segs qs))
               = base ++ ver ++ String "/" (Str.join "/" segs ++ String "/" (String "?" qs))).
  { change (consecutive_slashes false
              ("https:///bittrex.com/api/" ++ String "/" (tail ver k m segs qs)))
      with (base ++ consecutive_slashes true (tail ver k m segs qs)).
    unfold tail. rewrite consecutive_slashes_plain.
    - rewrite !append_assoc, consecutive_slashes_skip.
      rewrite repeat_slash_comm.
      rewrite consecutive_slashes_join.
      + rewrite consecutive_slashes_skip.
        rewrite consecutive_slashes_id by now apply no_slash_query.
        reflexivity.
      + exact Hne.
      + exact Hsegs.
      + destruct m as [|m]; [now right | left; apply Hm; lia].
    - exact Hver.
    - destruct k as [|k]; [right | left; apply Hk; lia].
      cbn [Str.repeat append]. rewrite append_assoc.
      destruct segs as [|s1 [|s2 l]]; [congruence | |].
      + cbn [Str.join]. apply starts_slash_segment. now inversion Hsegs.
      + rewrite join_cons by discriminate. rewrite append_assoc.
        apply starts_slash_segment. now inversion Hsegs. }
  rewrite P2. clear P2.
  (* third pass *)
  assert (P3 : trailing_slash
                 (base ++ ver ++ String "/" (Str.join "/" segs ++ String "/" (String "?" qs)))
               = base ++ ver ++ String "/" (Str.join "/" segs ++ String "?" qs)).
  { change (trailing_slash
              (base ++ ver ++ String "/" (Str.join "/" segs ++ String "/" (String "?" qs))))
      with ("https://bittrex.com/api"
            ++ trailing_slash
                 (String "/" (ver ++ String "/"
                                (Str.join "/" segs ++ String "/" (String "?" qs))))).
    rewrite trailing_slash_segment by assumption.
    rewrite trailing_slash_join by assumption.
    change (trailing_slash (String "/" (String "?" qs)))
      with (String "?" (trailing_slash qs)).
    rewrite trailing_slash_id; [reflexivity |].
    apply (all_impl quiet); [| exact Hqs].
    intros c Hc. apply quiet_facts in Hc. destruct Hc as (-> & _). reflexivity. }
  rewrite P3. clear P3.
  (* fourth pass *)
  assert (Q : Str.all (fun c => negb (is_char "?" c)) qs = true).
  { apply (all_impl quiet); [| exact Hqs].
    intros c Hc. apply quiet_facts in Hc. destruct Hc as (_ & _ & -> & _). reflexivity. }
  replace (base ++ ver ++ String "/" (Str.join "/" segs ++ String "?" qs))
    with ((base ++ ver ++ String "/" (Str.join "/" segs)) ++ String "?" qs)
    by (rewrite !append_assoc; cbn [append]; reflexivity).
  assert (Hpre : Str.all (fun c => negb (is_char "?" c))
                    (base ++ ver ++ String "/" (Str.join "/" segs)) = true).
  { rewrite !all_append. cbn [Str.all].
    rewrite (no_question ver (proj2 Hver)).
    rewrite all_join.
    - reflexivity.
    - reflexivity.
    - apply segments_all; [| exact Hsegs].
      intros c Hc. apply plain_facts in Hc. destruct Hc as (_ & _ & -> & _). reflexivity. }
  rewrite question_marks_prefix by exact Hpre.
  rewrite question_marks_single by exact Q.
  rewrite !append_assoc. reflexivity.
Qed.

End UrlShape.

(** ** The fields of a query string *)

Section Fields.

Import Js QueryString UrlJoin.

#[local] Arguments is_char : simpl never.

Lemma split_not_nil (sep : ascii) (s : string) : Str.split sep s <> [].
Proof.
  destruct s as [|c s]; simpl; [discriminate |].
  destruct (Ascii.eqb c sep); [discriminate |].
  destruct (Str.split sep s); discriminate.
Qed.

Lemma split_whole (s : string) : Str.all not_amp s = true -> Str.split amp s = [s].
Proof.
  induction s as [|c s IH]; simpl; [reflexivity |].
  unfold not_amp at 1. rewrite andb_true_iff, negb_true_iff. intros [-> Hs].
  now rewrite IH.
Qed.

Lemma split_append (a b : string) :
  Str.split amp (a ++ String amp b) = (Str.split amp a ++ Str.split amp b)%list.
Proof.
  induction a as [|c a IH]; simpl.
  - reflexivity.
  - destruct (Ascii.eqb c amp); rewrite IH; [reflexivity |].
    pose proof (split_not_nil amp a) as Hne.
    destruct (Str.split amp a); [congruence | reflexivity].
Qed.

Lemma escaped_not_amp (c : ascii) : escaped c = true -> not_amp c = true.
Proof.
  intros H. apply escaped_not_separator in H. destruct H as [_ H].
  unfold not_amp, amp. unfold is_char in H. now rewrite H.
Qed.

Lemma field_not_amp (k : string) (v : Value) : Str.all not_amp (field k v) = true.
Proof.
  unfold field. rewrite !all_append.
  rewrite !(all_impl escaped not_amp _ escaped_not_amp (escape_escaped _)).
  reflexivity.
Qed.

Lemma array_fields_cons (k : string) (v v2 : Value) (items : list Value) :
  array_fields (escape k ++ "=") (v :: v2 :: items)
  = field k v ++ String amp (array_fields (escape k ++ "=") (v2 :: items)).
Proof.
  unfold field. cbn [array_fields]. rewrite !append_assoc. reflexivity.
Qed.

Lemma split_array_fields (k : string) (items : list Value) :
  items <> [] ->
  Str.split amp (array_fields (escape k ++ "=") items) = map (field k) items.
Proof.
  induction items as [|v items IH]; [congruence |]. intros _.
  destruct items as [|v2 items].
  - cbn [array_fields map]. apply split_whole, field_not_amp.
  - rewrite array_fields_cons, split_append, IH by discriminate.
    rewrite split_whole by apply field_not_amp. reflexivity.
Qed.

(** [fields] unfolded one entry, in the three ways its separators allow. *)
Lemma fields_scalar_last (k : string) (v : Value) :
  (forall items, v <> VArr items) -> fields [(k, v)] = field k v.
Proof.
  intros Hv. unfold field. cbn [fields is_nil].
  destruct v; try (rewrite !append_nil_r; reflexivity).
  now elim (Hv items).
Qed.

Lemma fields_scalar_more (k : string) (v : Value) (kv : string * Value) (rest : Obj) :
  (forall items, v <> VArr items) ->
  fields ((k, v) :: kv :: rest) = field k v ++ String amp (fields (kv :: rest)).
Proof.
  intros Hv. unfold field.
  change (fields ((k, v) :: kv :: rest))
    with (match v with
          | VArr items =>
              array_fields (escape k ++ "=") items ++
              (if negb (is_nil items) && true then "&" else EmptyString)
          | _ => (escape k ++ "=") ++ escape (stringifyPrimitive v) ++ "&"
          end ++ fields (kv :: rest)).
  destruct v; try (rewrite !append_assoc; reflexivity).
  now elim (Hv items).
Qed.

Lemma fields_array_empty (k : string) (rest : Obj) :
  fields ((k, VArr []) :: rest) = fields rest.
Proof. reflexivity. Qed.

Lemma fields_array_last (k : string) (items : list Value) :
  fields [(k, VArr items)] = array_fields (escape k ++ "=") items.
Proof.
  cbn [fields is_nil]. rewrite andb_false_r. now rewrite !append_nil_r.
Qed.

Lemma fields_array_more (k : string) (v : Value) (items : list Value)
    (kv : string * Value) (rest : Obj) :
  fields ((k, VArr (v :: items)) :: kv :: rest)
  = array_fields (escape k ++ "=") (v :: items) ++ String amp (fields (kv :: rest)).
Proof.
  change (fields ((k, VArr (v :: items)) :: kv :: rest))
    with ((array_fields (escape k ++ "=") (v :: items) ++ "&") ++ fields (kv :: rest)).
  now rewrite append_assoc.
Qed.

Lemma entry_fields_scalar (k : string) (v : Value) :
  (forall items, v <> VArr items) -> entry_fields (k, v) = [field k v].
Proof. intros Hv. destruct v; try reflexivity. now elim (Hv items). Qed.

Lemma field_list_cons (e : string * Value) (o : Obj) :
  field_list (e :: o) = (entry_fields e ++ field_list o)%list.
Proof. reflexivity. Qed.

(** The pieces between the [&] of a serialized object are its fields, and at
    most an empty piece besides. *)
Lemma split_fields (o : Obj) :
  exists extra : list string,
    (forall f, In f (Str.split amp (fields o)) <-> In f (field_list o) \/ In f extra) /\
    (forall f, In f extra -> f = EmptyString).
Proof.
  induction o as [|[k v] rest IH].
  - exists [EmptyString]. split.
    + intros f. simpl. tauto.
    + intros f [<- | []]. reflexivity.
  - destruct IH as (extra & IH & Hextra).
    assert (Arr : (exists items, v = VArr items) \/ (forall items, v <> VArr items))
      by (destruct v; try (right; discriminate); left; eauto).
    destruct Arr as [[items ->] | Hv].
    + (* an array *)
      destruct items as [|x items].
      * exists extra. split; [| exact Hextra].
        intros f. rewrite fields_array_empty. exact (IH f).
      * destruct rest as [|kv rest].
        -- exists []. split; [| intros f []].
           intros f. rewrite fields_array_last, split_array_fields by discriminate.
           unfold field_list. cbn [flat_map entry_fields snd fst].
           rewrite app_nil_r.
           split; [intros H; left; exact H | intros [H | []]; exact H].
        -- exists extra. split; [| exact Hextra].
           intros f. rewrite field_list_cons, in_app_iff.
           rewrite fields_array_more, split_append, in_app_iff.
           rewrite split_array_fields by discriminate. rewrite IH.
           cbn [entry_fields snd fst]. tauto.
    + (* any other value *)
      destruct rest as [|kv rest].
      * exists []. split; [| intros f []].
        intros f. rewrite fields_scalar_last by assumption.
        rewrite split_whole by apply field_not_amp.
        unfold field_list. cbn [flat_map]. rewrite entry_fields_scalar by assumption.
        rewrite app_nil_r.
        split; [intros H; left; exact H | intros [H | []]; exact H].
      * exists extra. split; [| exact Hextra].
        intros f. rewrite field_list_cons, in_app_iff.
        rewrite fields_scalar_more, split_append, in_app_iff by assumption.
        rewrite split_whole by apply field_not_amp. rewrite IH.
        rewrite entry_fields_scalar by assumption. tauto.
Qed.

End Fields.

Section Keys.

Import Js QueryString UrlJoin.

#[local] Arguments is_char : simpl never.

Lemma in_keys_set (x k : string) (v : Value) (o : Obj) :
  In x (keys (set k v o)) -> x = k \/ In x (keys o).
Proof.
  unfold keys. induction o as [|[k' v'] o IH]; simpl.
  - intros [<- | []]. now left.
  - destruct (String.eqb k k') eqn:E; simpl.
    + apply String.eqb_eq in E. subst k'. tauto.
    + intros [<- | H]; [tauto |]. apply IH in H. tauto.
Qed.

Lemma NoDup_set (k : string) (v : Value) (o : Obj) :
  NoDup (keys o) -> NoDup (keys (set k v o)).
Proof.
  unfold keys. induction o as [|[k' v'] o IH]; simpl; intros H.
  - constructor; [intros [] | constructor].
  - inversion H as [|? ? Hnotin Hnd]; subst.
    destruct (String.eqb k k') eqn:E; simpl.
    + apply String.eqb_eq in E. subst k'. now constructor.
    + constructor; [| now apply IH].
      intros Hin. apply in_keys_set in Hin. destruct Hin as [-> | Hin]; [| contradiction].
      now rewrite String.eqb_refl in E.
Qed.

Lemma NoDup_assign (target source : Obj) :
  NoDup (keys target) -> NoDup (keys (assign target source)).
Proof.
  unfold assign. revert target.
  induction source as [|[k v] s IH]; intros target H; simpl; [exact H |].
  apply IH. now apply NoDup_set.
Qed.

Lemma lookup_unique (k : string) (v : Value) (o : Obj) :
  NoDup (keys o) -> In (k, v) o -> lookup k o = Some v.
Proof.
  unfold keys. induction o as [|[k' v'] o IH]; simpl; intros Hnd Hin; [contradiction |].
  inversion Hnd as [|? ? Hnotin Hnd']; subst.
  destruct Hin as [E | Hin].
  - injection E as -> ->. now rewrite String.eqb_refl.
  - destruct (String.eqb k k') eqn:E.
    + apply String.eqb_eq in E. subst k'.
      elim Hnotin. change k with (fst (k, v)). now apply in_map.
    + now apply IH.
Qed.

Lemma lookup_in (k : string) (v : Value) (o : Obj) : lookup k o = Some v -> In (k, v) o.
Proof.
  induction o as [|[k' v'] o IH]; simpl; [discriminate |].
  destruct (String.eqb k k') eqn:E.
  - apply String.eqb_eq in E. subst k'. intros [= ->]. now left.
  - intros H. right. now apply IH.
Qed.

(** Where a field comes from. *)
Lemma field_list_origin (f : string) (o : Obj) :
  In f (field_list o) ->
  exists k v x, In (k, v) o /\ f = field k x /\
                ((forall items, v <> VArr items) -> x = v).
Proof.
  unfold field_list. rewrite in_flat_map. intros ([k v] & Hin & Hf).
  exists k, v. unfold entry_fields in Hf. cbn [fst snd] in Hf.
  destruct v;
    try (destruct Hf as [<- | []]; eexists; split; [exact Hin | split; [reflexivity | auto]]).
  apply in_map_iff in Hf. destruct Hf as (x & <- & Hx).
  exists x. split; [exact Hin | split; [reflexivity |]].
  intros Hv. now elim (Hv items).
Qed.

Lemma field_list_scalar (k : string) (v : Value) (o : Obj) :
  (forall items, v <> VArr items) -> In (k, v) o -> In (field k v) (field_list o).
Proof.
  intros Hv Hin. unfold field_list. rewrite in_flat_map.
  exists (k, v). split; [exact Hin |].
  rewrite entry_fields_scalar by assumption. now left.
Qed.

Lemma escaped_not_eq (c : ascii) : escaped c = true -> not_eq c = true.
Proof.
  intros H. apply escaped_not_separator in H. destruct H as [H _].
  unfold not_eq. now rewrite H.
Qed.

Lemma unreserved_escaped (c : ascii) : unreserved c = true -> escaped c = true.
Proof. unfold escaped. now intros ->. Qed.

(** A key is read off a field up to its first [=]. *)
Lemma prefix_key (x a b : string) :
  Str.all not_eq x = true -> Str.all not_eq a = true ->
  String.prefix (x ++ "=") ((a ++ "=") ++ b) = true -> a = x.
Proof.
  revert a. induction x as [|d x IH]; intros a Hx Ha H.
  - destruct a as [|c a]; [reflexivity |].
    cbn [append String.prefix] in H.
    destruct (ascii_dec "=" c) as [<- | _]; [| discriminate H].
    simpl in Ha. discriminate Ha.
  - cbn [Str.all] in Hx. apply andb_true_iff in Hx. destruct Hx as [Hd Hx].
    destruct a as [|c a]; cbn [append String.prefix] in H.
    + destruct (ascii_dec d "=") as [-> | _]; [| discriminate H].
      discriminate Hd.
    + destruct (ascii_dec d c) as [<- | _]; [| discriminate H].
      cbn [Str.all] in Ha. apply andb_true_iff in Ha. destruct Ha as [_ Ha].
      f_equal. now apply IH.
Qed.

Lemma percent_all_head (c : ascii) :
  exists t, percent_all (Str.utf8_unit c) = String "%" t.
Proof.
  unfold Str.utf8_unit. destruct (Str.code c <? 128)%N; eexists; reflexivity.
Qed.

(** A text that [escape] leaves without a [%] was not changed by it. *)
Lemma escape_unreserved_inv (k s : string) :
  Str.all unreserved s = true -> escape k = s -> k = s.
Proof.
  revert s. induction k as [|c k IH]; intros s Hs E; [exact E |].
  cbn [escape] in E. destruct (unreserved c) eqn:U.
  - subst s. cbn [Str.all] in Hs. apply andb_true_iff in Hs. destruct Hs as [_ Hs].
    f_equal. now apply IH.
  - destruct (percent_all_head c) as (t & Ht). rewrite Ht in E.
    subst s. discriminate Hs.
Qed.

(** In the serialization of an object with distinct keys, the only field that
    starts with [key=] is the one of the value held under [key]. *)
Lemma field_of_key (key : string) (v : Value) (o : Obj) (f : string) :
  Str.all unreserved key = true -> key <> EmptyString ->
  (forall items, v <> VArr items) ->
  NoDup (keys o) -> lookup key o = Some v ->
  In f (Str.split amp (stringify true o)) ->
  String.prefix (key ++ "=") f = true ->
  f = field key v.
Proof.
  intros Hkey Hne Hv Hnd Hlook Hin Hpre.
  destruct (split_fields o) as (extra & Hsplit & Hextra).
  apply Hsplit in Hin. destruct Hin as [Hin | Hin].
  - destruct (field_list_origin f o Hin) as (k & v' & x & Hkv & -> & Hx).
    assert (Ek : escape k = key).
    { unfold field in Hpre. apply prefix_key in Hpre; [exact Hpre | |].
      - apply (all_impl unreserved); [| exact Hkey].
        intros c Hc. now apply escaped_not_eq, unreserved_escaped.
      - apply (all_impl escaped); [apply escaped_not_eq | apply escape_escaped]. }
    apply escape_unreserved_inv in Ek; [| exact Hkey]. subst k.
    rewrite (lookup_unique _ _ _ Hnd Hkv) in Hlook. injection Hlook as ->.
    now rewrite (Hx Hv).
  - apply Hextra in Hin. subst f.
    destruct key as [|c key]; [congruence |]. discriminate Hpre.
Qed.

Lemma field_present (key : string) (v : Value) (o : Obj) :
  (forall items, v <> VArr items) -> lookup key o = Some v ->
  In (field key v) (Str.split amp (stringify true o)).
Proof.
  intros Hv Hlook.
  destruct (split_fields o) as (extra & Hsplit & _).
  apply Hsplit. left. apply field_list_scalar; [exact Hv | now apply lookup_in].
Qed.

End Keys.

(** ** The executor *)

Section Executor.

Import Js RestClient.

Variable request : AxiosInstance -> Obj -> TransportResult.

Lemma http_unfold (this : t) (path : string) (opts : Value) (w w' : World) (p : Prepared) :
  prepare this path opts w = (Resolved p, w') ->
  http request this path opts w = settle (request (axios this) (requestOptions p)) w'.
Proof. intros P. unfold http, bind. now rewrite P. Qed.

Lemma or_else_props (h : Heap) (params : Value) :
  NoDup (keys (own_props h params)) ->
  NoDup (keys (own_props h (or_else params (VObj [])))).
Proof.
  intros H. unfold or_else. destruct (truthy params); [exact H | constructor].
Qed.

Lemma or_else_object (params : Value) :
  is_function params = false -> is_function (or_else params (VObj [])) = false.
Proof.
  intros H. unfold or_else. destruct (truthy params); [exact H | reflexivity].
Qed.

Lemma credentials_lookup (this : t) (w : World) (target : Obj) :
  lookup "apikey" (assign target (credentials this w))
    = Some (VStr (apikey (options this))) /\
  lookup "nonce" (assign target (credentials this w))
    = Some (VStr (Crypto.base64 (Crypto.randomBytes 16 (entropy w) (cursor w)))).
Proof.
  unfold assign, credentials. cbn [fold_left fst snd]. split.
  - rewrite lookup_set_other by discriminate. apply lookup_set_same.
  - apply lookup_set_same.
Qed.

Lemma not_array_string (s : string) : forall items, VStr s <> VArr items.
Proof. discriminate. Qed.

(** C2. Whatever parameters the caller supplies - none, or a mapping (an
    object, with distinct keys) that may already hold [apikey] or [nonce] -
    the serialized query string has a field [apikey=] with the configured key
    and a field [nonce=] with the nonce drawn for this call, and has no other
    field under either name. *)
Theorem http_query_credentials (this : t) (path : string) (opts : Value) (w : World) :
  opts <> VNull ->
  (forall params,
      js_get (default_to opts (VObj [])) "params" w = (Resolved params, w) ->
      is_function params = false /\ NoDup (keys (own_props (heap w) params))) ->
  let key := apikey (options this) in
  let nonce := Crypto.base64 (Crypto.randomBytes 16 (entropy w) (cursor w)) in
  exists (p : Prepared) (w' : World),
    prepare this path opts w = (Resolved p, w') /\
    http request this path opts w = settle (request (axios this) (requestOptions p)) w' /\
    fst (Utils.getNonce w) = Resolved nonce /\
    In ("apikey=" ++ QueryString.escape key) (Str.split "&" (querystring p)) /\
    In ("nonce=" ++ QueryString.escape nonce) (Str.split "&" (querystring p)) /\
    (forall f, In f (Str.split "&" (querystring p)) ->
               String.prefix "apikey=" f = true -> f = "apikey=" ++ QueryString.escape key) /\
    (forall f, In f (Str.split "&" (querystring p)) ->
               String.prefix "nonce=" f = true -> f = "nonce=" ++ QueryString.escape nonce).
Proof.
  intros Hnull Hwf key nonce.
  destruct (prepare_total this path opts w Hnull) as (params & G).
  destruct (prepare_spec this path opts params w G)
    as (p & w' & final & P & Q & _).
  exists p, w'. split; [exact P |]. split; [now apply http_unfold |].
  split; [reflexivity |].
  destruct (Hwf params G) as [Hfun Hparams].
  rewrite (or_else_object params Hfun) in Q. cbn [negb] in Q.
  set (target := own_props (heap w) (or_else params (VObj []))) in Q.
  destruct (credentials_lookup this w target) as [La Ln].
  assert (Hnd : NoDup (keys (assign target (credentials this w))))
    by now apply NoDup_assign, or_else_props.
  rewrite Q. repeat split.
  - apply (field_present "apikey" _ _ (not_array_string _) La).
  - apply (field_present "nonce" _ _ (not_array_string _) Ln).
  - intros f Hin Hpre.
    apply (field_of_key "apikey" _ _ f eq_refl ltac:(discriminate)
             (not_array_string _) Hnd La Hin Hpre).
  - intros f Hin Hpre.
    apply (field_of_key "nonce" _ _ f eq_refl ltac:(discriminate)
             (not_array_string _) Hnd Ln Hin Hpre).
Qed.

Lemma or_default_given (v : string) : v <> EmptyString -> or_default (Some v) "v1.1" = v.
Proof. destruct v; [congruence | reflexivity]. Qed.

Lemma or_default_missing (o : option string) :
  o = None \/ o = Some EmptyString -> or_default o "v1.1" = "v1.1".
Proof. intros [-> | ->]; reflexivity. Qed.

Lemma segment_v1_1 : segment "v1.1".
Proof. split; [discriminate | reflexivity]. Qed.

Lemma joint_v1_1 : joint "v1.1" = true.
Proof. reflexivity. Qed.

(** X24. When the per-call options have no [url] entry of their own, the URL
    handed to the transport is the one [http] built and signed. For a path
    of plain segments, whose slashes at the end - if it has any - follow a
    segment that does not end in [A], [%] or U+0003, that URL is the base,
    the version, one slash, the path without the slashes around it, [?] and
    the query string: with a configured version that is a plain segment
    (and, when the path starts with a slash, does not end in one of these
    characters either), and with [v1.1] when none or an empty one is
    configured. *)
Theorem http_url_joined
    (this : t) (path : string) (opts : Value) (w : World)
    (k m : nat) (segs : list string) :
  opts <> VNull ->
  has "url" (own_props (heap w) opts) = false ->
  path = Str.repeat "/" k ++ Str.join "/" segs ++ Str.repeat "/" m ->
  segs <> [] -> Forall segment segs ->
  (0 < m -> joint (last segs EmptyString) = true) ->
  exists (p : Prepared) (w' : World),
    prepare this path opts w = (Resolved p, w') /\
    http request this path opts w = settle (request (axios this) (requestOptions p)) w' /\
    prop "url" (requestOptions p) = VStr (fullUrl p) /\
    signature p = Utils.getHmac (fullUrl p) (apisecret (options this)) /\
    (forall v, apiVersion (options this) = Some v ->
               segment v -> (0 < k -> joint v = true) ->
               fullUrl p = "https://bittrex.com/api/" ++ v ++ "/" ++ Str.join "/" segs
                           ++ "?" ++ querystring p) /\
    (apiVersion (options this) = None \/ apiVersion (options this) = Some EmptyString ->
     fullUrl p = "https://bittrex.com/api/v1.1/" ++ Str.join "/" segs ++ "?" ++ querystring p).
Proof.
  intros Hnull Hurl Hpath Hne Hsegs Hm.
  destruct (prepare_total this path opts w Hnull) as (params & G).
  destruct (prepare_spec this path opts params w G)
    as (p & w' & final & P & Q & U & S & R & Frame & _).
  exists p, w'. split; [exact P |]. split; [now apply http_unfold |].
  assert (Hqs : Str.all quiet (querystring p) = true)
    by (rewrite Q; apply (all_impl qs_char); [apply qs_char_quiet | apply stringify_qs_char]).
  split; [| split; [exact S | split]].
  - unfold prop. rewrite R, lookup_assign_absent; [reflexivity |].
    unfold has. rewrite (Frame _ untouched_url). exact Hurl.
  - intros v Hv Hseg Hk. rewrite U, Hpath, Hv, (or_default_given v (proj1 Hseg)).
    now apply url_shape.
  - intros Hv. rewrite U, Hpath, (or_default_missing _ Hv).
    apply (url_shape "v1.1" k m segs (querystring p)); try assumption.
    + exact segment_v1_1.
    + intros _. exact joint_v1_1.
Qed.

End Executor.

Section Outcomes.

Import Js RestClient.

Variable request : AxiosInstance -> Obj -> TransportResult.

(** C1. With options that are an object or left out, and a transport whose
    200 answers carry a body of the declared shape [Models.ApiResponse], a
    call of [http] settles in one of four ways, decided by the transport's
    answer alone: the transport threw, and the call is rejected
    with a [BittrexHttpError] that wraps what it threw; the status is not
    200, and the call is rejected with a [BittrexHttpError] carrying status
    code and status text; the status is 200 and the body's [success] is
    false, and the call is rejected with a [BittrexRestApiError] carrying the
    body's [message]; the status is 200 and [success] is true, and the call
    resolves with the transport's response. *)
Theorem http_outcomes (this : t) (path : string) (opts : Value) (w : World) :
  opts <> VNull ->
  (forall o r, request (axios this) o = Responded r -> status r = 200%Z ->
               is_ApiResponse (data r)) ->
  exists (p : Prepared) (w' : World) (out : Outcome AxiosResponse),
    prepare this path opts w = (Resolved p, w') /\
    http request this path opts w = (out, w') /\
    let answer := request (axios this) (requestOptions p) in
    (exists e h,
        answer = Threw e /\ out = Rejected (HttpFailure h) /\
        h = BittrexHttpError.new (Errors.MsgError e) VUndefined VUndefined /\
        BittrexHttpError.message h = Errors.toString (Errors.name e) (Errors.message e) /\
        (forall s, Errors.stack e = Some s -> s <> EmptyString ->
                   BittrexHttpError.stack h = Errors.TraceOf s))
    \/ (exists r h,
        answer = Responded r /\ status r <> 200%Z /\ out = Rejected (HttpFailure h) /\
        BittrexHttpError.statusCode h = VNum (status r) /\
        BittrexHttpError.bittexMessage h = statusText r)
    \/ (exists r body a,
        answer = Responded r /\ status r = 200%Z /\ data r = VObj body /\
        prop "success" body = VBool false /\ out = Rejected (ApiFailure a) /\
        BittrexRestApiError.bittexMessage a = prop "message" body)
    \/ (exists r body,
        answer = Responded r /\ status r = 200%Z /\ data r = VObj body /\
        prop "success" body = VBool true /\ out = Resolved r).
Proof.
  intros Hnull Htyped.
  destruct (prepare_total this path opts w Hnull) as (params & G).
  destruct (prepare_spec this path opts params w G) as (p & w' & final & P & _).
  exists p, w'. rewrite (http_unfold request _ _ _ _ _ _ P).
  specialize (Htyped (requestOptions p)).
  destruct (request (axios this) (requestOptions p)) as [e | r].
  - (* the transport threw *)
    eexists. split; [exact P |]. split; [reflexivity |].
    left. exists e. eexists. split; [reflexivity |]. split; [reflexivity |].
    split; [reflexivity |]. split; [reflexivity |].
    intros s Hs Hne. cbn. rewrite Hs. destruct s; [congruence | reflexivity].
  - destruct (Z.eqb_spec (status r) 200) as [E | N].
    + (* status 200 *)
      destruct (Htyped r eq_refl E) as (body & b & D & S).
      destruct b.
      * exists (Resolved r). split; [exact P |]. split.
        -- unfold settle. rewrite E. cbn [Z.eqb Pos.eqb negb]. rewrite D.
           unfold bind, js_get. now rewrite S.
        -- right. right. right. now exists r, body.
      * eexists. split; [exact P |]. split.
        -- unfold settle. rewrite E. cbn [Z.eqb Pos.eqb negb]. rewrite D.
           unfold bind, js_get. rewrite S. reflexivity.
        -- right. right. left. exists r, body. eexists. repeat split; assumption.
    + (* any other status *)
      eexists. split; [exact P |]. split.
      * unfold settle. apply Z.eqb_neq in N. rewrite N. reflexivity.
      * right. left. exists r. eexists. repeat split. exact N.
Qed.

(** *** The wrappers *)

Lemma http_success (this : t) (path : string) (opts : Value) (w : World)
    (r : AxiosResponse) (body : Obj) :
  (forall o, request (axios this) o = Responded r) ->
  status r = 200%Z -> data r = VObj body -> truthy (prop "success" body) = true ->
  opts <> VNull ->
  exists w', http request this path opts w = (Resolved r, w').
Proof.
  intros Hreq Hs Hd Ht Hnull.
  destruct (prepare_total this path opts w Hnull) as (params & G).
  destruct (prepare_spec this path opts params w G) as (p & w' & final & P & _).
  exists w'. rewrite (http_unfold request _ _ _ _ _ _ P), Hreq.
  unfold settle. rewrite Hs. cbn [Z.eqb Pos.eqb negb]. rewrite Hd.
  unfold bind, js_get. now rewrite Ht.
Qed.

Lemma market_opts_not_null (a b : option string) : market_opts a b <> VNull.
Proof. unfold market_opts. destruct (_ && _); discriminate. Qed.

(** C7, as the code has it. After a successful call, [getMarketSummary]
    returns the first element of the envelope's [result] array,
    [cancelOrder] returns nothing, and every other wrapper returns the
    envelope's [result] as it is. *)
Theorem wrappers_return (this : t) (call : Call) (w : World)
    (r : AxiosResponse) (body : Obj) :
  (forall o, request (axios this) o = Responded r) ->
  status r = 200%Z -> data r = VObj body -> truthy (prop "success" body) = true ->
  exists w',
    match call with
    | GetMarketSummary _ _ =>
        forall x rest, prop "result" body = VArr (x :: rest) ->
                       invoke request this call w = (Resolved x, w')
    | CancelOrder _ => invoke request this call w = (Resolved VUndefined, w')
    | _ => invoke request this call w = (Resolved (prop "result" body), w')
    end.
Proof.
  intros Hreq Hs Hd Ht.
  assert (H : forall path opts, opts <> VNull ->
            exists w', http request this path opts w = (Resolved r, w'))
    by (intros; now apply (http_success this _ _ w r body)).
  destruct call; cbn [invoke];
    unfold getMarkets, getCurrencies, getTicker, getMarketSummaries, getMarketSummary,
           getOrderBook, getMarketHistory, getBalances, getBalance, getOrderHistory,
           getDepositHistory, getDepositAddress, getOrder, withdraw, getWithdrawlHistory,
           buyLimit, sellLimit, cancelOrder, getOpenOrders, with_params, result_of, bind;
    match goal with
    | |- context [http request this ?path ?opts w] =>
        let Hn := fresh in
        assert (Hn : opts <> VNull) by (try apply market_opts_not_null; discriminate);
        destruct (H path opts Hn) as (w' & ->); exists w'
    end;
    rewrite ?Hd; try reflexivity.
  intros x rest Hx. cbn [js_get]. now rewrite Hx.
Qed.

End Outcomes.

Section History.

Import Js RestClient.

Variable request : AxiosInstance -> Obj -> TransportResult.

(** C10. Called without a currency, [getDepositHistory] and
    [getWithdrawlHistory] still pass [http] a parameter mapping that has the
    key [currency], and the query string sent starts with the field
    [currency=], its value empty. *)
Theorem history_sends_currency (this : t) (w : World) :
  let params := [("currency", VUndefined)] in
  has "currency" params = true /\
  getDepositHistory request this None =
    (r <- http request this "/account/getdeposithistory" (with_params params) ;;
     result_of r) /\
  getWithdrawlHistory request this None =
    (r <- http request this "/account/getwithdrawalhistory" (with_params params) ;;
     result_of r) /\
  forall path,
  exists (p : Prepared) (w' : World),
    prepare this path (with_params params) w = (Resolved p, w') /\
    http request this path (with_params params) w
      = settle (request (axios this) (requestOptions p)) w' /\
    querystring p =
      "currency=&apikey=" ++ QueryString.escape (apikey (options this))
      ++ "&nonce="
      ++ QueryString.escape
           (Crypto.base64 (Crypto.randomBytes 16 (entropy w) (cursor w))) /\
    In "currency=" (Str.split "&" (querystring p)).
Proof.
  intros params. split; [reflexivity |]. split; [reflexivity |]. split; [reflexivity |].
  intros path.
  assert (G : js_get (default_to (with_params params) (VObj [])) "params" w
              = (Resolved (VObj params), w)) by reflexivity.
  destruct (prepare_spec this path _ _ w G) as (p & w' & final & P & Q & _).
  exists p, w'. split; [exact P |]. split; [now apply http_unfold |].
  assert (E : querystring p =
              "currency=" ++ String "&"
                ("apikey=" ++ QueryString.escape (apikey (options this))
                 ++ "&nonce="
                 ++ QueryString.escape
                      (Crypto.base64 (Crypto.randomBytes 16 (entropy w) (cursor w))))).
  { rewrite Q. unfold QueryString.stringify, credentials, params.
    cbn [or_else truthy own_props assign fold_left fst snd set String.eqb Ascii.eqb Bool.eqb].
    cbn [QueryString.fields QueryString.is_nil QueryString.stringifyPrimitive].
    change (QueryString.escape "currency") with "currency".
    change (QueryString.escape "apikey") with "apikey".
    change (QueryString.escape "nonce") with "nonce".
    change (QueryString.escape EmptyString) with EmptyString.
    rewrite !append_assoc, !append_nil_r. cbn [append]. reflexivity. }
  split; [exact E |].
  rewrite E. change (String "&" ?x) with (String amp x).
  rewrite split_append. left. reflexivity.
Qed.

End History.

(** ** The code at concrete inputs *)

Section Samples.

Import Js RestClient.

Lemma sample_client_constructed :
  constructor sample_options sample_world = (Resolved sample_client, sample_world).
Proof. reflexivity. Qed.

(** C6, on the code: the error of a 404 reads [HTTPError: received http 404
    from bittrex with message "null"]. *)
Lemma http_404_display :
  exists (e : BittrexHttpError.t) (w' : World),
    http not_found sample_client "/missing/endpoint" VUndefined sample_world
      = (Rejected (HttpFailure e), w') /\
    BittrexHttpError.name e = "HTTPError" /\
    BittrexHttpError.message e
      = "received http 404 from bittrex with message " ++ Str.dquote ++ "null" ++ Str.dquote /\
    BittrexHttpError.toString e
      = "HTTPError: received http 404 from bittrex with message "
        ++ Str.dquote ++ "null" ++ Str.dquote /\
    BittrexHttpError.message e
      <> "received status code 404 and text " ++ Str.dquote ++ "null" ++ Str.dquote.
Proof.
  eexists. eexists. split; [reflexivity |].
  repeat split. discriminate.
Qed.

(** C5, on the code: a run of slashes stays double after a part that ends
    in [A]. With the version [vA] the path of [getMarkets], which starts with
    a slash, is requested at [vA//public/getmarkets]; and with the default
    version the path [/public/DATA/] keeps a slash before the [?], where
    [/public/DATA] and [/public/data/] keep none. *)
Lemma http_url_keeps_slashes :
  exists (p1 p2 p3 p4 : Prepared) (w1 w2 w3 w4 : World),
    prepare versioned_client "/public/getmarkets" VUndefined sample_world
      = (Resolved p1, w1) /\
    getMarkets not_found versioned_client sample_world
      = (r <- settle (not_found (axios versioned_client) (requestOptions p1)) ;; result_of r) w1 /\
    prop "url" (requestOptions p1) = VStr (fullUrl p1) /\
    fullUrl p1 = "https://bittrex.com/api/vA//public/getmarkets?" ++ querystring p1 /\
    prepare sample_client "/public/DATA/" VUndefined sample_world = (Resolved p2, w2) /\
    prop "url" (requestOptions p2) = VStr (fullUrl p2) /\
    fullUrl p2 = "https://bittrex.com/api/v1.1/public/DATA/?" ++ querystring p2 /\
    prepare sample_client "/public/DATA" VUndefined sample_world = (Resolved p3, w3) /\
    fullUrl p3 = "https://bittrex.com/api/v1.1/public/DATA?" ++ querystring p3 /\
    prepare sample_client "/public/data/" VUndefined sample_world = (Resolved p4, w4) /\
    fullUrl p4 = "https://bittrex.com/api/v1.1/public/data?" ++ querystring p4.
Proof.
  do 8 eexists.
  split; [cbv -[Utils.getHmac]; reflexivity |].
  split; [cbv -[Utils.getHmac]; reflexivity |].
  split; [reflexivity |]. split; [reflexivity |].
  split; [cbv -[Utils.getHmac]; reflexivity |].
  split; [reflexivity |]. split; [reflexivity |].
  split; [cbv -[Utils.getHmac]; reflexivity |]. split; [reflexivity |].
  split; [cbv -[Utils.getHmac]; reflexivity | reflexivity].
Qed.

(** C8, on the code: the overrides of one client stay in the shared
    [AXIOS_DEFAULTS], and a client made afterwards without overrides gets
    them. *)
Lemma constructor_shares_defaults :
  let first := mkOptions "key-1" "secret-1" (Some [("timeout", VNum 100)]) None in
  let second := mkOptions "key-2" "secret-2" None None in
  exists (c1 c2 : t) (w1 w2 : World),
    constructor first sample_world = (Resolved c1, w1) /\
    constructor second w1 = (Resolved c2, w2) /\
    deref (heap sample_world) AXIOS_DEFAULTS = [("timeout", VNum 15000)] /\
    deref (heap w1) AXIOS_DEFAULTS = [("timeout", VNum 100)] /\
    defaults (axios c2) = [("timeout", VNum 100)].
Proof.
  do 4 eexists. split; [lazy; reflexivity |]. split; [lazy; reflexivity |].
  repeat split.
Qed.

(** C9, on the code: after the call the caller's parameter mapping holds
    the API key and the nonce, and the caller's options have lost [params]. *)
Lemma http_leaves_nonce_in_params :
  exists (r : AxiosResponse) (w' : World),
    http (answer 200 (VStr "OK") ticker_body) sample_client "/public/getticker"
         (VRef 2) caller_world = (Resolved r, w') /\
    deref (heap caller_world) 1 = [("market", VStr "BTC-LTC")] /\
    deref (heap w') 1 =
      [ ("market", VStr "BTC-LTC");
        ("apikey", VStr "an-api-key-should-go-here");
        ("nonce", VStr "AwoRGB8mLTQ7QklQV15lbA==") ] /\
    deref (heap w') 2 = [("timeout", VNum 5000)].
Proof.
  eexists. eexists. split; [reflexivity |]. repeat split.
Qed.


(** C7 fails as stated: [cancelOrder] does not return the envelope's
    [result]. *)
Lemma cancelOrder_returns_nothing :
  exists w',
    cancelOrder (answer 200 (VStr "OK") order_body) sample_client
      "e606d53c-8d70-11e3-94b5-425861b86ab6" sample_world = (Resolved VUndefined, w') /\
    js_get order_body "result" w'
      = (Resolved (VObj [("uuid", VStr "e606d53c-8d70-11e3-94b5-425861b86ab6")]), w').
Proof.
  eexists. split; [cbv -[Utils.getHmac]; reflexivity | reflexivity].
Qed.

End Samples.

(** ** The theorems at concrete inputs *)

Section Witnesses.

Import Js RestClient.

Lemma http_outcomes_witness :
  VUndefined <> VNull /\
  exists (e : BittrexRestApiError.t) (w' : World),
    http (answer 200 (VStr "OK") failed_body) sample_client "/valid/endpoint"
         VUndefined sample_world = (Rejected (ApiFailure e), w') /\
    BittrexRestApiError.bittexMessage e = VStr "something went wrong".
Proof.
  assert (H1 : VUndefined <> VNull) by discriminate.
  assert (H2 : forall o r,
             answer 200 (VStr "OK") failed_body (axios sample_client) o = Responded r ->
             status r = 200%Z -> is_ApiResponse (data r)).
  { intros o r E _. injection E as <-.
    exists [("success", VBool false); ("message", VStr "something went wrong")], false.
    split; reflexivity. }
  split; [exact H1 |].
  destruct (http_outcomes (answer 200 (VStr "OK") failed_body) sample_client
              "/valid/endpoint" VUndefined sample_world H1 H2)
    as (p & w' & out & _ & E & [C | [C | [C | C]]]).
  - destruct C as (e & h & A & _). discriminate A.
  - destruct C as (r & h & A & N & _). injection A as <-. now elim N.
  - destruct C as (r & body & a & A & _ & D & _ & O & M).
    injection A as <-. injection D as <-.
    exists a, w'. rewrite E, O. split; [reflexivity | exact M].
  - destruct C as (r & body & A & _ & D & S & _).
    injection A as <-. injection D as <-. discriminate S.
Defined.

Lemma http_query_credentials_witness :
  own_credentials <> VNull /\
  exists (p : Prepared) (w' : World),
    prepare sample_client "/public/getticker" own_credentials sample_world
      = (Resolved p, w') /\
    Str.split "&" (querystring p) =
      [ "apikey=an-api-key-should-go-here";
        "market=BTC-LTC";
        "nonce=AwoRGB8mLTQ7QklQV15lbA%3D%3D" ].
Proof.
  assert (H1 : own_credentials <> VNull) by discriminate.
  assert (H2 : forall params,
             js_get (default_to own_credentials (VObj [])) "params" sample_world
               = (Resolved params, sample_world) ->
             is_function params = false /\
             NoDup (keys (own_props (heap sample_world) params))).
  { intros params E. injection E as <-. split; [reflexivity |].
    repeat constructor; simpl; intuition discriminate. }
  split; [exact H1 |].
  destruct (http_query_credentials (answer 200 (VStr "OK") ticker_body) sample_client
              "/public/getticker" own_credentials sample_world H1 H2)
    as (p & w' & P & _).
  exists p, w'. split; [exact P |].
  assert (E : prepare sample_client "/public/getticker" own_credentials sample_world
              = (Resolved p, w')) by exact P.
  cbv -[Utils.getHmac] in E. injection E as <- _. reflexivity.
Defined.


Lemma segment_public : segment "public".
Proof. split; [discriminate | reflexivity]. Qed.

Lemma segment_getmarkets : segment "getmarkets".
Proof. split; [discriminate | reflexivity]. Qed.

Lemma segment_v2_0 : segment "v2.0".
Proof. split; [discriminate | reflexivity]. Qed.

Lemma http_url_joined_witness :
  exists (p : Prepared) (w' : World),
    prepare v2_client "//public/getmarkets/" VUndefined sample_world = (Resolved p, w') /\
    fullUrl p = "https://bittrex.com/api/v2.0/public/getmarkets?" ++ querystring p.
Proof.
  assert (H1 : VUndefined <> VNull) by discriminate.
  assert (H2 : has "url" (own_props (heap sample_world) VUndefined) = false)
    by reflexivity.
  assert (H3 : "//public/getmarkets/"
               = Str.repeat "/" 2 ++ Str.join "/" ["public"; "getmarkets"] ++ Str.repeat "/" 1)
    by reflexivity.
  assert (H4 : ["public"; "getmarkets"] <> []) by discriminate.
  assert (H5 : Forall segment ["public"; "getmarkets"])
    by (repeat constructor; [apply segment_public | apply segment_getmarkets]).
  assert (H6 : 0 < 1 -> joint (last ["public"; "getmarkets"] EmptyString) = true)
    by reflexivity.
  destruct (http_url_joined (answer 200 (VStr "OK") ticker_body) v2_client
              "//public/getmarkets/" VUndefined sample_world 2 1
              ["public"; "getmarkets"] H1 H2 H3 H4 H5 H6)
    as (p & w' & P & _ & _ & _ & U & _).
  exists p, w'. split; [exact P |].
  apply (U "v2.0" eq_refl segment_v2_0). reflexivity.
Defined.

Lemma wrappers_return_witness :
  exists w',
    getMarketSummary (answer 200 (VStr "OK") (VObj summary_body)) sample_client
      "BTC" "LTC" sample_world
    = (Resolved (VObj [("MarketName", VStr "BTC-LTC"); ("Last", VNum 3)]), w').
Proof.
  assert (H1 : forall o,
             answer 200 (VStr "OK") (VObj summary_body) (axios sample_client) o
             = Responded (mkResponse 200 (VStr "OK") [] (VObj summary_body)))
    by reflexivity.
  assert (H2 : status (mkResponse 200 (VStr "OK") [] (VObj summary_body)) = 200%Z)
    by reflexivity.
  assert (H3 : data (mkResponse 200 (VStr "OK") [] (VObj summary_body)) = VObj summary_body)
    by reflexivity.
  assert (H4 : truthy (prop "success" summary_body) = true) by reflexivity.
  destruct (wrappers_return (answer 200 (VStr "OK") (VObj summary_body)) sample_client
              (GetMarketSummary "BTC" "LTC") sample_world _ _ H1 H2 H3 H4)
    as (w' & R).
  exists w'. apply (R _ []). reflexivity.
Defined.

End Witnesses.

(** ** What a call leaves behind *)

Section Effects.

Import Js RestClient.

Variable request : AxiosInstance -> Obj -> TransportResult.

Lemma length_store (h : Heap) (l : nat) (o : Obj) :
  List.length (store h l o) = List.length h.
Proof.
  revert l. induction h as [|x h IH]; intros [|l]; simpl; try reflexivity.
  now rewrite IH.
Qed.

Lemma store_deref (h : Heap) (l : nat) : store h l (deref h l) = h.
Proof.
  unfold deref. revert l. induction h as [|x h IH]; intros [|l]; simpl; try reflexivity.
  now rewrite IH.
Qed.

Lemma deref_outside (h : Heap) (l : nat) : List.length h <= l -> deref h l = [].
Proof. intros H. unfold deref. now apply nth_overflow. Qed.

Lemma js_get_cases (v : Value) (k : string) (w : World) :
  (exists x, js_get v k w = (Resolved x, w)) \/
  (exists what, js_get v k w = (Rejected (TypeError what), w)).
Proof. destruct v; try (left; eexists; reflexivity); right; eexists; reflexivity. Qed.

Lemma js_get_world (v : Value) (k : string) (w : World) : snd (js_get v k w) = w.
Proof. destruct v; reflexivity. Qed.

Lemma settle_world (answer : TransportResult) (w : World) : snd (settle answer w) = w.
Proof.
  destruct answer as [e | r]; [reflexivity |].
  unfold settle. destruct (negb (status r =? 200)%Z); [reflexivity |].
  unfold bind.
  destruct (js_get_cases (data r) "success" w) as [[x ->] | [what ->]]; [| reflexivity].
  destruct (truthy x); [reflexivity |].
  destruct (js_get_cases (data r) "message" w) as [[m ->] | [what ->]]; reflexivity.
Qed.

Lemma bind_world {A B : Type} (m : M A) (k : A -> M B) (w : World) :
  (forall a w', snd (k a w') = w') -> snd (bind m k w) = snd (m w).
Proof.
  intros H. unfold bind. destruct (m w) as [[a | e] w']; [apply H | reflexivity].
Qed.

Lemma js_delete_eq (v : Value) (k : string) (h : Heap) (e : nat -> ascii) (c : nat) :
  js_delete v k (mkWorld h e c)
  = (Resolved (after_delete v k), mkWorld (heap_after_delete h v k) e c).
Proof. destruct v; reflexivity. Qed.

Lemma prepare_eq (this : t) (path : string) (opts params : Value) (w : World) :
  js_get (default_to opts (VObj [])) "params" w = (Resolved params, w) ->
  exists p,
    prepare this path opts w
    = (Resolved p, mkWorld (heap_after_http this w opts params) (entropy w) (cursor w + 16)) /\
    requestOptions p
    = assign (request_literal (fullUrl p) (signature p)) (final_options this w opts params).
Proof.
  destruct w as [h e c]. intros G.
  unfold prepare, bind. rewrite G.
  cbv beta iota. unfold Utils.getNonce. cbv beta iota zeta.
  cbn [heap entropy cursor].
  rewrite js_assign_eq. cbv beta iota zeta.
  fold (credentials this (mkWorld h e c)).
  rewrite js_delete_eq. cbv beta iota zeta. unfold ret. cbn [heap].
  eexists. split; [reflexivity |].
  cbn [requestOptions fullUrl signature]. unfold final_options, heap_after_http.
  cbn [heap]. fold (credentials this (mkWorld h e c)). reflexivity.
Qed.

Lemma http_world (this : t) (path : string) (opts params : Value) (w : World) :
  js_get (default_to opts (VObj [])) "params" w = (Resolved params, w) ->
  snd (http request this path opts w)
  = mkWorld (heap_after_http this w opts params) (entropy w) (cursor w + 16).
Proof.
  intros G. destruct (prepare_eq this path opts params w G) as (p & P & _).
  unfold http, bind. rewrite P. apply settle_world.
Qed.

Lemma http_null (this : t) (path : string) (w : World) :
  http request this path VNull w
  = (Rejected (TypeError "Cannot read property 'params' of null"), w).
Proof. reflexivity. Qed.

Lemma length_heap_after_http (this : t) (w : World) (opts params : Value) :
  List.length (heap_after_http this w opts params) = List.length (heap w).
Proof.
  unfold heap_after_http, heap_after_delete, heap_after_assign.
  destruct (default_to opts (VObj [])); destruct (or_else params (VObj []));
    rewrite ?length_store; reflexivity.
Qed.

Lemma deref_heap_after_http (this : t) (w : World) (opts params : Value) (l : nat) :
  opts <> VRef l -> params <> VRef l ->
  deref (heap_after_http this w opts params) l = deref (heap w) l.
Proof.
  intros Ho Hp. unfold heap_after_http.
  assert (Hd : default_to opts (VObj []) <> VRef l) by (destruct opts; simpl; congruence).
  assert (Ht : or_else params (VObj []) <> VRef l)
    by (unfold or_else; destruct (truthy params); congruence).
  set (h1 := heap_after_assign _ _ _).
  assert (E1 : deref h1 l = deref (heap w) l).
  { subst h1. unfold heap_after_assign.
    destruct (or_else params (VObj [])); try reflexivity.
    apply deref_store_other. congruence. }
  unfold heap_after_delete. destruct (default_to opts (VObj [])); try exact E1.
  rewrite deref_store_other by congruence. exact E1.
Qed.

(** X1. A call of [http] is rejected before anything is drawn or sent - a
    [TypeError] for reading [params], in a world left as it was - exactly
    when the options passed are [null]. With any other options one nonce is
    drawn, whatever the outcome of the call. *)
Theorem http_null_options (this : t) (path : string) (opts : Value) (w : World) :
  (http request this path opts w
   = (Rejected (TypeError "Cannot read property 'params' of null"), w)
   <-> opts = VNull) /\
  (cursor (snd (http request this path opts w)) = cursor w <-> opts = VNull).
Proof.
  assert (N : opts <> VNull -> cursor (snd (http request this path opts w)) = cursor w + 16).
  { intros Hn. destruct (prepare_total this path opts w Hn) as (params & G).
    now rewrite (http_world this path opts params w G). }
  split; split.
  - intros E. destruct opts; try (specialize (N ltac:(discriminate)); rewrite E in N;
      simpl in N; lia). reflexivity.
  - intros ->. apply http_null.
  - intros E. destruct opts; try (specialize (N ltac:(discriminate)); lia). reflexivity.
  - intros ->. reflexivity.
Qed.

(** X2. Whatever the transport answers, a call of [http] with options that
    are not [null] draws exactly sixteen bytes of entropy, keeps the heap's
    size, and leaves every shared object other than the options and their
    [params] as it was. *)
Theorem http_effects (this : t) (path : string) (opts : Value) (w : World) :
  opts <> VNull ->
  exists params,
    js_get (default_to opts (VObj [])) "params" w = (Resolved params, w) /\
    let w' := snd (http request this path opts w) in
    entropy w' = entropy w /\ cursor w' = cursor w + 16 /\
    List.length (heap w') = List.length (heap w) /\
    forall l, opts <> VRef l -> params <> VRef l ->
              deref (heap w') l = deref (heap w) l.
Proof.
  intros Hn. destruct (prepare_total this path opts w Hn) as (params & G).
  exists params. split; [exact G |].
  rewrite (http_world this path opts params w G). cbn [entropy cursor heap].
  split; [reflexivity |]. split; [reflexivity |].
  split; [apply length_heap_after_http |].
  intros l. apply deref_heap_after_http.
Qed.

(** X3. A caller's own parameter object - shared, and not the options object
    itself - holds after the call what it held before with [apikey] and
    [nonce] written over it: the two credentials are there, every other key
    is as it was, and no other object but the options has changed. *)
Theorem http_marks_params (this : t) (path : string) (opts : Value) (l : nat) (w : World) :
  l < List.length (heap w) ->
  js_get (default_to opts (VObj [])) "params" w = (Resolved (VRef l), w) ->
  opts <> VRef l ->
  let w' := snd (http request this path opts w) in
  deref (heap w') l = assign (deref (heap w) l) (credentials this w) /\
  lookup "apikey" (deref (heap w') l) = Some (VStr (apikey (options this))) /\
  lookup "nonce" (deref (heap w') l)
    = Some (VStr (Crypto.base64 (Crypto.randomBytes 16 (entropy w) (cursor w)))) /\
  (forall k, k <> "apikey" -> k <> "nonce" ->
             lookup k (deref (heap w') l) = lookup k (deref (heap w) l)) /\
  (forall l', l' <> l -> opts <> VRef l' -> deref (heap w') l' = deref (heap w) l').
Proof.
  intros Hl G Ho w'.
  assert (E : deref (heap w') l = assign (deref (heap w) l) (credentials this w)).
  { subst w'. rewrite (http_world this path opts _ w G). cbn [heap].
    unfold heap_after_http. cbn [or_else truthy heap_after_assign own_props].
    assert (Hd : default_to opts (VObj []) <> VRef l) by (destruct opts; simpl; congruence).
    unfold heap_after_delete. destruct (default_to opts (VObj []));
      try (now apply deref_store_same).
    rewrite deref_store_other by congruence. now apply deref_store_same. }
  split; [exact E |].
  destruct (credentials_lookup this w (deref (heap w) l)) as [La Ln].
  rewrite E. split; [exact La |]. split; [exact Ln |]. split.
  - intros k Ka Kn. apply lookup_assign_absent.
    unfold has, credentials. cbn [lookup].
    apply String.eqb_neq in Ka, Kn. now rewrite Ka, Kn.
  - intros l' Hne Ho'. subst w'. rewrite (http_world this path opts _ w G). cbn [heap].
    apply deref_heap_after_http; congruence.
Qed.

End Effects.

(** X4. What a call of [http] does to the shared objects and to the entropy
    does not depend on the transport: two transports leave the same world. *)
Theorem http_world_any_transport
    (request1 request2 : AxiosInstance -> Obj -> TransportResult)
    (this : RestClient.t) (path : string) (opts : Value) (w : World) :
  snd (http request1 this path opts w) = snd (http request2 this path opts w).
Proof.
  destruct (js_get_cases (default_to opts (VObj [])) "params" w) as [[params G] | [what G]].
  - now rewrite !(http_world _ this path opts params w G).
  - unfold http, prepare, bind. now rewrite G.
Qed.

(** ** Every outcome of the executor and of the wrappers *)

Section Wrappers.

Import Js RestClient.

Variable request : AxiosInstance -> Obj -> TransportResult.

Lemma http_world_literal (this : t) (path : string) (params : Value) (w : World) :
  snd (http request this path (VObj [("params", params)]) w)
  = mkWorld
      (heap_after_assign (heap w) (or_else params (VObj []))
         (assign (own_props (heap w) (or_else params (VObj []))) (credentials this w)))
      (entropy w) (cursor w + 16).
Proof.
  now rewrite (http_world request this path (VObj [("params", params)]) params w eq_refl).
Qed.

Lemma http_world_params (this : t) (path : string) (params : Obj) (w : World) :
  snd (http request this path (with_params params) w)
  = mkWorld (heap w) (entropy w) (cursor w + 16).
Proof. unfold with_params. now rewrite http_world_literal. Qed.

Lemma http_world_omitted (this : t) (path : string) (w : World) :
  snd (http request this path VUndefined w) = mkWorld (heap w) (entropy w) (cursor w + 16).
Proof. now rewrite (http_world request this path VUndefined VUndefined w eq_refl). Qed.

Lemma http_world_market (this : t) (path : string) (a b : option string) (w : World) :
  snd (http request this path (market_opts a b) w)
  = mkWorld (heap w) (entropy w) (cursor w + 16).
Proof.
  unfold market_opts. destruct (_ && _); [apply http_world_params | apply http_world_omitted].
Qed.

Lemma result_world (r : AxiosResponse) (w : World) : snd (result_of r w) = w.
Proof. apply js_get_world. Qed.

Lemma first_world (r : AxiosResponse) (w : World) :
  snd ((result <- result_of r ;; js_get result "0") w) = w.
Proof. rewrite bind_world; [apply result_world | intros; apply js_get_world]. Qed.

Lemma invoke_world (this : t) (call : Call) (w : World) :
  exists path opts,
    snd (invoke request this call w) = snd (http request this path opts w) /\
    opts = match call with
           | GetMarkets | GetCurrencies | GetMarketSummaries | GetBalances => VUndefined
           | GetOrderHistory a b | GetOpenOrders a b => market_opts a b
           | Withdraw params => VObj [("params", params)]
           | GetTicker a b | GetMarketSummary a b | GetMarketHistory a b =>
               with_params [("market", VStr (market_of a b))]
           | GetOrderBook a b ty =>
               with_params [("market", VStr (market_of a b)); ("type", VStr (toLowerCase ty))]
           | GetBalance c | GetDepositAddress c => with_params [("currency", VStr c)]
           | GetDepositHistory c | GetWithdrawlHistory c =>
               with_params [("currency", optional c)]
           | GetOrder u | CancelOrder u => with_params [("uuid", VStr u)]
           | BuyLimit a b q r | SellLimit a b q r =>
               with_params [ ("market", VStr (market_of a b));
                             ("quantity", VStr q); ("rate", VStr r) ]
           end.
Proof.
  destruct call; cbn [invoke];
    unfold getMarkets, getCurrencies, getTicker, getMarketSummaries, getMarketSummary,
           getOrderBook, getMarketHistory, getBalances, getBalance, getOrderHistory,
           getDepositHistory, getDepositAddress, getOrder, withdraw, getWithdrawlHistory,
           buyLimit, sellLimit, cancelOrder, getOpenOrders;
    do 2 eexists;
    (split; [apply bind_world; intros;
             first [apply result_world | apply first_world | reflexivity]
            | reflexivity]).
Qed.

(** X5. Every wrapper draws exactly one nonce, whatever the outcome of the
    call, and leaves the shared objects as they were; [withdraw] alone
    writes, into the parameter object its caller passed, the API key and the
    nonce. *)
Theorem wrappers_effects (this : t) (call : Call) (w : World) :
  let w' := snd (invoke request this call w) in
  entropy w' = entropy w /\ cursor w' = cursor w + 16 /\
  match call with
  | Withdraw params =>
      heap w' = heap_after_assign (heap w) (or_else params (VObj []))
                  (assign (own_props (heap w) (or_else params (VObj [])))
                          (credentials this w))
  | _ => heap w' = heap w
  end.
Proof.
  intros w'. subst w'.
  destruct (invoke_world this call w) as (path & opts & -> & ->).
  destruct call;
    rewrite ?http_world_literal, ?http_world_params, ?http_world_omitted, ?http_world_market;
    repeat split.
Qed.

Lemma invoke_options_not_null (this : t) (call : Call) (w : World) :
  exists path opts (k : AxiosResponse -> M Value),
    invoke request this call w = bind (http request this path opts) k w /\ opts <> VNull.
Proof.
  destruct call; cbn [invoke];
    unfold getMarkets, getCurrencies, getTicker, getMarketSummaries, getMarketSummary,
           getOrderBook, getMarketHistory, getBalances, getBalance, getOrderHistory,
           getDepositHistory, getDepositAddress, getOrder, withdraw, getWithdrawlHistory,
           buyLimit, sellLimit, cancelOrder, getOpenOrders;
    do 3 eexists;
    (split; [reflexivity | try apply market_opts_not_null; discriminate]).
Qed.

Lemma http_settles (this : t) (path : string) (opts : Value) (w : World)
    (ans : TransportResult) :
  (forall o, request (axios this) o = ans) -> opts <> VNull ->
  http request this path opts w = settle ans (snd (http request this path opts w)).
Proof.
  intros Hreq Hn.
  destruct (prepare_total this path opts w Hn) as (params & G).
  destruct (prepare_eq this path opts params w G) as (p & P & _).
  rewrite (http_world request this path opts params w G).
  rewrite (http_unfold request _ _ _ _ _ _ P). now rewrite Hreq.
Qed.

(** X6. No wrapper catches or rewraps a failure: when the transport's answer
    makes the executor reject - the transport threw, the status is not 200,
    or the body reports no success - every one of the nineteen wrappers
    rejects with that same error. *)
Theorem wrappers_reject (this : t) (call : Call) (w : World)
    (ans : TransportResult) (e : Exn) :
  (forall o, request (axios this) o = ans) ->
  (forall w0, settle ans w0 = (Rejected e, w0)) ->
  exists w', invoke request this call w = (Rejected e, w').
Proof.
  intros Hreq Hrej.
  destruct (invoke_options_not_null this call w) as (path & opts & k & -> & Hn).
  exists (snd (http request this path opts w)).
  unfold bind. rewrite (http_settles this path opts w ans Hreq Hn), Hrej. reflexivity.
Qed.

(** X7. On a 200 answer whose body is an object, the executor tests
    [success] for truthiness, whatever its type: a truthy value - [true], a
    non-empty string, a number other than zero, an object - resolves with
    the response, and a falsy or missing one rejects with a
    [BittrexRestApiError] that carries the body's [message], which reads
    [bittrex returned "undefined" error] when the body has none. *)
Theorem http_success_truthy (this : t) (path : string) (opts : Value) (w : World)
    (r : AxiosResponse) (body : Obj) :
  opts <> VNull ->
  (forall o, request (axios this) o = Responded r) ->
  status r = 200%Z -> data r = VObj body ->
  exists w',
    http request this path opts w
    = (if truthy (prop "success" body) then Resolved r
       else Rejected (ApiFailure (BittrexRestApiError.new (prop "message" body))), w') /\
    (has "message" body = false ->
     BittrexRestApiError.message (BittrexRestApiError.new (prop "message" body))
     = "bittrex returned " ++ Str.dquote ++ "undefined" ++ Str.dquote ++ " error").
Proof.
  intros Hn Hreq Hs Hd.
  exists (snd (http request this path opts w)). split.
  - rewrite (http_settles this path opts w _ Hreq Hn) at 1.
    unfold settle. rewrite Hs. cbn [Z.eqb Pos.eqb negb]. rewrite Hd.
    unfold bind, js_get. destruct (truthy (prop "success" body)); reflexivity.
  - unfold has, prop. destruct (lookup "message" body); [discriminate | reflexivity].
Qed.

(** X8. On a 200 answer whose body is not an object, the executor fails in
    one of two ways: reading [success] of [null] or [undefined] throws a
    [TypeError], which no error class of the library wraps, and any other
    primitive - an empty or unparsed text, a number - or an array gives a
    [BittrexRestApiError] whose message is [undefined]. *)
Theorem http_body_not_object (this : t) (path : string) (opts : Value) (w : World)
    (r : AxiosResponse) :
  opts <> VNull ->
  (forall o, request (axios this) o = Responded r) ->
  status r = 200%Z ->
  (forall props, data r <> VObj props) -> (forall l, data r <> VRef l) ->
  exists w',
    http request this path opts w
    = (Rejected
         match data r with
         | VNull => TypeError "Cannot read property 'success' of null"
         | VUndefined => TypeError "Cannot read property 'success' of undefined"
         | _ => ApiFailure (BittrexRestApiError.new VUndefined)
         end, w').
Proof.
  intros Hn Hreq Hs Hobj Href.
  exists (snd (http request this path opts w)).
  rewrite (http_settles this path opts w _ Hreq Hn) at 1.
  unfold settle. rewrite Hs. cbn [Z.eqb Pos.eqb negb].
  destruct (data r) as [| | b | n | s | items | props | l | f];
    try reflexivity.
  - now elim (Hobj props).
  - now elim (Href l).
Qed.

(** X9. After a successful call [getMarketSummary] returns [result[0]] as
    JavaScript reads it: [undefined] when the array is empty, and a
    [TypeError] instead of a value when the envelope has no [result] or a
    [null] one. *)
Theorem getMarketSummary_edges (this : t) (tickerA tickerB : string) (w : World)
    (r : AxiosResponse) (body : Obj) :
  (forall o, request (axios this) o = Responded r) ->
  status r = 200%Z -> data r = VObj body -> truthy (prop "success" body) = true ->
  exists w',
    getMarketSummary request this tickerA tickerB w = js_get (prop "result" body) "0" w' /\
    (prop "result" body = VArr [] ->
     getMarketSummary request this tickerA tickerB w = (Resolved VUndefined, w')) /\
    (has "result" body = false ->
     getMarketSummary request this tickerA tickerB w
     = (Rejected (TypeError "Cannot read property '0' of undefined"), w')) /\
    (prop "result" body = VNull ->
     getMarketSummary request this tickerA tickerB w
     = (Rejected (TypeError "Cannot read property '0' of null"), w')).
Proof.
  intros Hreq Hs Hd Ht.
  destruct (http_success request this "/public/getmarketsummary"
              (with_params [("market", VStr (market_of tickerA tickerB))]) w r body
              Hreq Hs Hd Ht ltac:(discriminate)) as (w' & H).
  exists w'.
  assert (E : getMarketSummary request this tickerA tickerB w
              = js_get (prop "result" body) "0" w').
  { unfold getMarketSummary, bind. rewrite H. unfold result_of. rewrite Hd. reflexivity. }
  split; [exact E |]. rewrite E. split; [| split].
  - intros ->. reflexivity.
  - unfold has, prop. destruct (lookup "result" body); [discriminate | reflexivity].
  - intros ->. reflexivity.
Qed.

End Wrappers.

(** ** What the wrappers send *)

Section Sent.

Import Js RestClient.

Variable request : AxiosInstance -> Obj -> TransportResult.

Lemma credentials_fields (this : t) (w : World) :
  fields (credentials this w)
  = "apikey=" ++ escape (apikey (options this)) ++ "&nonce="
    ++ escape (Crypto.base64 (Crypto.randomBytes 16 (entropy w) (cursor w))).
Proof.
  unfold credentials. cbn [fields is_nil stringifyPrimitive].
  change (escape "apikey") with "apikey". change (escape "nonce") with "nonce".
  rewrite !append_assoc, !append_nil_r. cbn [append]. reflexivity.
Qed.

(** X10. [getOrderHistory] and [getOpenOrders] send a [market] field only
    when both tickers are given and neither is empty; with one ticker alone
    the filter is dropped, and the query string holds the credentials and
    nothing else, as it does with no ticker at all. *)
Theorem orders_market_filter (this : t) (tickerA tickerB : option string) (w : World) :
  getOrderHistory request this tickerA tickerB =
    (r <- http request this "/account/getorderhistory" (market_opts tickerA tickerB) ;;
     result_of r) /\
  getOpenOrders request this tickerA tickerB =
    (r <- http request this "/market/getopenorders" (market_opts tickerA tickerB) ;;
     result_of r) /\
  forall path,
  exists (p : Prepared) (w' : World),
    prepare this path (market_opts tickerA tickerB) w = (Resolved p, w') /\
    querystring p =
      market_field tickerA tickerB
      ++ "apikey=" ++ escape (apikey (options this)) ++ "&nonce="
      ++ escape (Crypto.base64 (Crypto.randomBytes 16 (entropy w) (cursor w))).
Proof.
  split; [reflexivity |]. split; [reflexivity |]. intros path.
  assert (Omitted : forall x, x = VUndefined ->
            exists p w', prepare this path x w = (Resolved p, w') /\
              querystring p = fields (credentials this w)).
  { intros x ->.
    destruct (prepare_spec this path VUndefined VUndefined w eq_refl)
      as (p & w' & final & P & Q & _).
    exists p, w'. split; [exact P |]. rewrite Q. reflexivity. }
  assert (Given : forall a b,
            exists p w', prepare this path
                           (with_params [("market", VStr (market_of a b))]) w
                         = (Resolved p, w') /\
              querystring p
              = ("market=" ++ escape (a ++ "-" ++ b) ++ "&") ++ fields (credentials this w)).
  { intros a b.
    destruct (prepare_spec this path (with_params [("market", VStr (market_of a b))])
                (VObj [("market", VStr (market_of a b))]) w eq_refl)
      as (p & w' & final & P & Q & _).
    exists p, w'. split; [exact P |]. rewrite Q.
    unfold QueryString.stringify, credentials, market_of.
    cbn [or_else truthy own_props assign fold_left fst snd set String.eqb Ascii.eqb Bool.eqb
         is_function negb].
    cbn [fields is_nil stringifyPrimitive].
    change (escape "market") with "market".
    rewrite !append_assoc, !append_nil_r. cbn [append]. reflexivity. }
  rewrite <- credentials_fields.
  unfold market_opts, market_field.
  destruct tickerA as [a |], tickerB as [b |]; cbn [optional truthy to_string andb];
    try (apply Omitted; reflexivity).
  - destruct (Str.is_empty a); cbn [negb andb orb]; [apply Omitted; reflexivity |].
    destruct (Str.is_empty b); cbn [negb andb orb]; [apply Omitted; reflexivity |].
    apply Given.
  - destruct (negb (Str.is_empty a)); apply Omitted; reflexivity.
Qed.

Lemma lower_idempotent (c : ascii) : lower (lower c) = lower c.
Proof.
  apply Ascii.eqb_eq.
  apply (forall_ascii (fun c => Ascii.eqb (lower (lower c)) (lower c))).
  vm_compute. reflexivity.
Qed.

Lemma lower_not_upper (c : ascii) : negb (is_upper (lower c)) = true.
Proof.
  apply (forall_ascii (fun c => negb (is_upper (lower c)))).
  vm_compute. reflexivity.
Qed.

Lemma toLowerCase_idempotent (s : string) : toLowerCase (toLowerCase s) = toLowerCase s.
Proof.
  induction s as [|c s IH]; [reflexivity |].
  cbn [toLowerCase]. now rewrite lower_idempotent, IH.
Qed.

(** X11. [getOrderBook] sends the book type in lower case: the text sent has
    no letter [A-Z] and as many characters as the one given, and a type
    given in any mix of cases makes the same call as its lower-case form. *)
Theorem getOrderBook_type_case (this : t) (tickerA tickerB type : string) :
  getOrderBook request this tickerA tickerB (toLowerCase type)
  = getOrderBook request this tickerA tickerB type /\
  Str.all (fun c => negb (is_upper c)) (toLowerCase type) = true /\
  String.length (toLowerCase type) = String.length type /\
  forall (path : string) (w : World),
  exists (p : Prepared) (w' : World),
    prepare this path
      (with_params [ ("market", VStr (market_of tickerA tickerB));
                     ("type", VStr (toLowerCase type)) ]) w = (Resolved p, w') /\
    In ("type=" ++ escape (toLowerCase type)) (Str.split "&" (querystring p)).
Proof.
  split; [| split; [| split]].
  - unfold getOrderBook. now rewrite toLowerCase_idempotent.
  - induction type as [|c s IH]; [reflexivity |].
    cbn [toLowerCase Str.all]. now rewrite lower_not_upper, IH.
  - induction type as [|c s IH]; [reflexivity |]. cbn [toLowerCase String.length].
    now rewrite IH.
  - intros path w.
    destruct (prepare_spec this path
                (with_params [ ("market", VStr (market_of tickerA tickerB));
                               ("type", VStr (toLowerCase type)) ])
                (VObj [ ("market", VStr (market_of tickerA tickerB));
                        ("type", VStr (toLowerCase type)) ]) w eq_refl)
      as (p & w' & final & P & Q & _).
    exists p, w'. split; [exact P |]. rewrite Q.
    cbn [or_else truthy is_function negb own_props].
    apply (field_present "type" (VStr (toLowerCase type)) _ (not_array_string _)).
    rewrite lookup_assign_absent by reflexivity. reflexivity.
Qed.

End Sent.

(** ** Construction *)

Section Construction.

Import Js RestClient.

Lemma lookup_absent (k : string) (o : Obj) : ~ In k (keys o) -> lookup k o = None.
Proof.
  induction o as [|[k' v'] o IH]; intros H; simpl in *; [reflexivity |].
  destruct (String.eqb_spec k k') as [-> | Hne]; [tauto |].
  apply IH. tauto.
Qed.

Lemma lookup_assign (k : string) (source target : Obj) :
  NoDup (keys source) ->
  lookup k (assign target source)
  = match lookup k source with
    | Some v => Some v
    | None => lookup k target
    end.
Proof.
  unfold assign. revert target.
  induction source as [|[k' v'] s IH]; intros target Hnd; [reflexivity |].
  cbn [fold_left fst snd lookup]. cbn [keys map fst] in Hnd.
  apply NoDup_cons_iff in Hnd. destruct Hnd as [Hnotin Hnd].
  rewrite (IH _ Hnd).
  destruct (String.eqb_spec k k') as [-> | Hne].
  - rewrite (lookup_absent k' s Hnotin). apply lookup_set_same.
  - destruct (lookup k s); [reflexivity |]. now apply lookup_set_other.
Qed.

(** X12. A client's transport defaults are the shared [AXIOS_DEFAULTS] with
    the client's overrides written over them, key by key; the constructor
    leaves that merged object in the shared defaults, touches no other shared
    object and draws no entropy, and without overrides it changes nothing. *)
Theorem constructor_merge (opts : BittrexApiOptions) (w : World) :
  AXIOS_DEFAULTS < List.length (heap w) ->
  NoDup (keys (overrides opts)) ->
  exists (c : t) (w' : World),
    constructor opts w = (Resolved c, w') /\
    options c = opts /\
    (forall k, lookup k (defaults (axios c))
               = match lookup k (overrides opts) with
                 | Some v => Some v
                 | None => lookup k (deref (heap w) AXIOS_DEFAULTS)
                 end) /\
    deref (heap w') AXIOS_DEFAULTS = defaults (axios c) /\
    (forall l, l <> AXIOS_DEFAULTS -> deref (heap w') l = deref (heap w) l) /\
    entropy w' = entropy w /\ cursor w' = cursor w /\
    (overrides opts = [] -> w' = w).
Proof.
  intros Hin Hnd. destruct w as [h e c]. cbn [heap entropy cursor] in *.
  unfold constructor, bind, get_heap, put_heap, ret. cbn [heap entropy cursor].
  fold (overrides opts).
  eexists. eexists. split; [reflexivity |].
  cbn [options axios defaults axios_create heap entropy cursor].
  split; [reflexivity |]. split; [intros k; now apply lookup_assign |].
  split; [now apply deref_store_same |].
  split; [intros l Hl; now apply deref_store_other |].
  split; [reflexivity |]. split; [reflexivity |].
  intros ->. cbn [assign fold_left]. now rewrite store_deref.
Qed.

End Construction.

(** ** The error classes *)

Section ErrorClasses.

Import Js Errors.

Lemma new_stack (msg : Msg) :
  match msg_stack msg with
  | VStr s => if truthy (VStr s) then TraceOf s else OwnTrace
  | _ => OwnTrace
  end
  = match msg with
    | MsgText _ => OwnTrace
    | MsgError e => kept_trace (stack e)
    end.
Proof.
  destruct msg as [s | e]; [reflexivity |].
  unfold msg_stack, kept_trace. destruct (stack e) as [s |]; [| reflexivity].
  cbn [truthy]. now destruct (Str.is_empty s).
Qed.

Lemma toString_named (c : ascii) (name message : string) :
  toString (String c name) message
  = if Str.is_empty message then String c name else String c name ++ ": " ++ message.
Proof. reflexivity. Qed.

(** X13. An error of the library displays as its class name, a colon and its
    message, or as the name alone when the message is empty; the message of
    a [BittrexRestApiError] is never empty, and no [BittrexHttpError]
    displays as a [BittrexRestApiError] does. A [BittrexHttpError] made
    from an error that was thrown has its text - name and message - as its
    message, and its trace unless that is missing or empty. *)
Theorem error_displays (msg : Msg) (bittexMessage statusCode m : Value) :
  let h := BittrexHttpError.new msg bittexMessage statusCode in
  let a := BittrexRestApiError.new m in
  BittrexHttpError.toString h
    = (if Str.is_empty (msg_text msg) then "HTTPError"
       else "HTTPError: " ++ msg_text msg) /\
  BittrexRestApiError.toString a
    = "BittrexRestApiError: bittrex returned " ++ Str.dquote ++ to_string m
      ++ Str.dquote ++ " error" /\
  BittrexHttpError.toString h <> BittrexRestApiError.toString a /\
  BittrexHttpError.stack h
    = match msg with
      | MsgText _ => OwnTrace
      | MsgError e => kept_trace (stack e)
      end /\
  (forall e, msg = MsgError e ->
             BittrexHttpError.message h = toString (name e) (message e)).
Proof.
  intros h a.
  assert (H : BittrexHttpError.toString h
              = if Str.is_empty (msg_text msg) then "HTTPError"
                else "HTTPError: " ++ msg_text msg) by reflexivity.
  assert (A : BittrexRestApiError.toString a
              = "BittrexRestApiError: bittrex returned " ++ Str.dquote ++ to_string m
                ++ Str.dquote ++ " error") by reflexivity.
  split; [exact H |]. split; [exact A |]. split; [| split].
  - rewrite H, A. destruct (Str.is_empty (msg_text msg)); discriminate.
  - apply new_stack.
  - intros e ->. reflexivity.
Qed.

(** X14. The earlier class [RestApiError] and [BittrexHttpError] wrap alike:
    made from the same argument they have the same message and the same
    trace, and they differ in the name they display - the earlier one
    displays as [BittrexRestApiError: ] followed by the message. *)
Theorem wrapping_classes_agree (msg : Msg) (bittexMessage statusCode : Value) :
  let old := RestApiError.new msg in
  let h := BittrexHttpError.new msg bittexMessage statusCode in
  RestApiError.message old = BittrexHttpError.message h /\
  RestApiError.stack old = BittrexHttpError.stack h /\
  RestApiError.name old = "BittrexRestApiError" /\
  BittrexHttpError.name h = "HTTPError" /\
  RestApiError.toString old
    = (if Str.is_empty (msg_text msg) then "BittrexRestApiError"
       else "BittrexRestApiError: " ++ msg_text msg) /\
  RestApiError.toString old <> BittrexHttpError.toString h.
Proof.
  intros old h. repeat (split; [reflexivity |]).
  unfold RestApiError.toString, BittrexHttpError.toString. subst old h.
  cbn [RestApiError.name RestApiError.message RestApiError.new
       BittrexHttpError.name BittrexHttpError.message BittrexHttpError.new].
  rewrite !toString_named. destruct (Str.is_empty (msg_text msg)); discriminate.
Qed.

End ErrorClasses.

(** ** The shape of a nonce *)

Section NonceShape.

Lemma b64_char_alphabet (n : Z) : (0 <= n < 64)%Z -> is_b64 (Crypto.b64_char n) = true.
Proof.
  intros H.
  assert (A : forallb (fun i => is_b64 (Crypto.b64_char (Z.of_nat i))) (seq 0 64) = true)
    by (vm_compute; reflexivity).
  rewrite forallb_forall in A. specialize (A (Z.to_nat n)).
  rewrite Z2Nat.id in A by lia. apply A, in_seq. lia.
Qed.

Lemma length_append (a b : string) :
  String.length (a ++ b) = String.length a + String.length b.
Proof. induction a as [|c a IH]; simpl; [reflexivity | now rewrite IH]. Qed.

Lemma base64_shape (n : nat) :
  forall b : list ascii,
    List.length b = 3 * n + 1 ->
    exists body, Crypto.base64 b = body ++ "==" /\ String.length body = 4 * n + 2 /\
                 Str.all is_b64 body = true.
Proof.
  induction n as [|n IH]; intros b Hb.
  - destruct b as [|x [|y b]]; try discriminate Hb.
    destruct (sextet_ranges (Crypto.byte_val x) 0 0 (byte_val_range x))
      as (R1 & R2 & _); try lia.
    eexists (String _ (String _ EmptyString)). split; [reflexivity |].
    split; [reflexivity |]. cbn [Str.all]. now rewrite !b64_char_alphabet.
  - destruct b as [|x [|y [|z b]]]; try (cbn [List.length] in Hb; lia).
    destruct (IH b) as (body & E & L & A); [cbn [List.length] in Hb; lia |].
    destruct (sextet_ranges (Crypto.byte_val x) (Crypto.byte_val y) (Crypto.byte_val z)
                (byte_val_range x) (byte_val_range y) (byte_val_range z))
      as (R1 & _ & R2 & _ & R3 & R4).
    eexists (String _ (String _ (String _ (String _ body)))).
    split; [cbn [Crypto.base64]; rewrite E; reflexivity |].
    split; [cbn [String.length]; lia |].
    cbn [Str.all]. now rewrite !b64_char_alphabet, A.
Qed.

Lemma escape_append (a b : string) : escape (a ++ b) = escape a ++ escape b.
Proof.
  induction a as [|c a IH]; [reflexivity |].
  cbn [append escape]. rewrite IH. destruct (unreserved c); [reflexivity |].
  now rewrite append_assoc.
Qed.

(** X15. Every nonce is twenty-two characters of the base64 alphabet
    followed by [==], and goes into the query string with that padding
    written [%3D%3D]. *)
Theorem getNonce_format (w : World) :
  exists body : string,
    fst (Utils.getNonce w) = Resolved (body ++ "==") /\
    String.length body = 22 /\
    Str.all is_b64 body = true /\
    escape (body ++ "==") = escape body ++ "%3D%3D".
Proof.
  destruct (base64_shape 5 (Crypto.randomBytes 16 (entropy w) (cursor w))
              (randomBytes_length 16 _ _)) as (body & E & L & A).
  exists body. unfold Utils.getNonce. cbn [fst]. rewrite E.
  split; [reflexivity |]. split; [exact L |]. split; [exact A |].
  apply escape_append.
Qed.

End NonceShape.

(** ** Where requests go *)

Section Host.

Import Js RestClient.

Variable request : AxiosInstance -> Obj -> TransportResult.

Lemma protocol_slashes_origin (rest : string) :
  protocol_slashes ("https://bittrex.com/api//" ++ rest)
  = "https:///bittrex.com/api//" ++ protocol_slashes rest.
Proof. reflexivity. Qed.

Lemma consecutive_slashes_origin (rest : string) :
  consecutive_slashes false ("https:///bittrex.com/api//" ++ rest)
  = "https://bittrex.com/api/" ++ consecutive_slashes true rest.
Proof. reflexivity. Qed.

Lemma trailing_slash_origin (rest : string) :
  trailing_slash (origin ++ rest) = origin ++ trailing_slash rest.
Proof. reflexivity. Qed.

Lemma question_marks_origin (rest : string) :
  question_marks Outside (origin ++ rest) = origin ++ question_marks Outside rest.
Proof. reflexivity. Qed.

Lemma prefix_append (a rest : string) : String.prefix a (a ++ rest) = true.
Proof.
  induction a as [|c a IH]; [now destruct rest |].
  cbn [append String.prefix]. destruct (ascii_dec c c) as [_ | N]; [exact IH | now elim N].
Qed.

Lemma url_origin (ver path query : string) :
  exists rest, url ["https://bittrex.com/api/"; ver; path; query] = origin ++ rest.
Proof.
  unfold url, normalize. cbn [Str.join].
  change ("https://bittrex.com/api/" ++ "/" ++ ?r) with ("https://bittrex.com/api//" ++ r).
  rewrite protocol_slashes_origin, consecutive_slashes_origin.
  change ("https://bittrex.com/api/" ++ ?r) with (origin ++ String "/" r).
  rewrite trailing_slash_origin, question_marks_origin.
  eexists. reflexivity.
Qed.

(** X16. Whatever path, API version, options and parameters are given, the
    URL that [http] builds and signs starts with [https://bittrex.com/api]:
    none of them can make a request go to another scheme or host. *)
Theorem http_url_origin (this : t) (path : string) (opts : Value) (w : World) :
  opts <> VNull ->
  exists (p : Prepared) (w' : World),
    prepare this path opts w = (Resolved p, w') /\
    http request this path opts w = settle (request (axios this) (requestOptions p)) w' /\
    String.prefix "https://bittrex.com/api" (fullUrl p) = true /\
    signature p = Utils.getHmac (fullUrl p) (apisecret (options this)).
Proof.
  intros Hn.
  destruct (prepare_total this path opts w Hn) as (params & G).
  destruct (prepare_spec this path opts params w G)
    as (p & w' & final & P & _ & U & S & _).
  exists p, w'. split; [exact P |]. split; [now apply http_unfold |].
  split; [| exact S].
  destruct (url_origin (or_default (apiVersion (options this)) "v1.1") path
              ("?" ++ querystring p)) as (rest & E).
  rewrite U, E. apply prefix_append.
Qed.

End Host.

(** ** What the transport is handed *)

Section Handed.

Import Js RestClient.

Variable request : AxiosInstance -> Obj -> TransportResult.

Lemma lookup_delete_same (k : string) (o : Obj) : lookup k (delete k o) = None.
Proof.
  induction o as [|[k' v'] o IH]; simpl; [reflexivity |].
  destruct (String.eqb k k') eqn:E; [exact IH |]. simpl. now rewrite E.
Qed.

Lemma string_of_uint_digits (u : Decimal.uint) :
  Str.all is_digit (NilEmpty.string_of_uint u) = true.
Proof. induction u; simpl; try rewrite IHu; reflexivity. Qed.

Lemma of_nat_digits (n : nat) : Str.all is_digit (Str.of_nat n) = true.
Proof.
  unfold Str.of_nat, NilZero.string_of_uint.
  destruct (Nat.to_uint n) eqn:E; try reflexivity; rewrite <- E; apply string_of_uint_digits.
Qed.

Lemma lookup_indexed (k : string) (items : list Value) (i : nat) :
  Str.all is_digit k = false -> lookup k (indexed_from i items) = None.
Proof.
  intros Hk. revert i. induction items as [|v items IH]; intros i; [reflexivity |].
  cbn [indexed_from lookup].
  destruct (String.eqb_spec k (Str.of_nat i)) as [-> | _]; [| apply IH].
  now rewrite of_nat_digits in Hk.
Qed.

Lemma final_without_params (this : t) (w : World) (opts params : Value) :
  lookup "params" (final_options this w opts params) = None.
Proof.
  unfold final_options, heap_after_http.
  set (h1 := heap_after_assign _ _ _).
  destruct opts as [| | b | n | s | items | props | l | f]; cbn [default_to after_delete];
    try reflexivity.
  - now apply lookup_indexed.
  - now apply lookup_indexed.
  - apply lookup_delete_same.
  - cbn [heap_after_delete own_props].
    destruct (Nat.lt_ge_cases l (List.length h1)) as [Hin | Hout].
    + rewrite deref_store_same by assumption. apply lookup_delete_same.
    + rewrite store_outside by assumption. now rewrite deref_outside.
Qed.

Lemma untouched_validateStatus : untouched "validateStatus".
Proof. repeat split; discriminate. Qed.

(** X17. The request handed to the transport never has a [params] entry,
    whatever the options held: the parameters travel in the URL alone. And
    unless the per-call options bring a [validateStatus] of their own, the
    request carries the one that accepts every status, so that no status
    makes the transport throw. *)
Theorem request_without_params (this : t) (path : string) (opts : Value) (w : World) :
  opts <> VNull ->
  exists (p : Prepared) (w' : World),
    prepare this path opts w = (Resolved p, w') /\
    http request this path opts w = settle (request (axios this) (requestOptions p)) w' /\
    has "params" (requestOptions p) = false /\
    (has "validateStatus" (own_props (heap w) opts) = false ->
     prop "validateStatus" (requestOptions p) = VFun AlwaysTrue).
Proof.
  intros Hn.
  destruct (prepare_total this path opts w Hn) as (params & G).
  destruct (prepare_spec this path opts params w G)
    as (p & w' & final & P & _ & _ & _ & R & Frame & _).
  destruct (prepare_eq this path opts params w G) as (p' & P' & R').
  rewrite P in P'. injection P' as <- _.
  exists p, w'. split; [exact P |]. split; [now apply http_unfold |]. split.
  - unfold has. rewrite R', lookup_assign_absent; [reflexivity |].
    unfold has. now rewrite final_without_params.
  - intros Hv. unfold prop. rewrite R, lookup_assign_absent; [reflexivity |].
    unfold has. rewrite (Frame _ untouched_validateStatus). exact Hv.
Qed.

End Handed.

(** ** One field for each parameter *)

Section OneField.

Import Js RestClient.

Variable request : AxiosInstance -> Obj -> TransportResult.

Lemma split_fields_scalar (o : Obj) :
  o <> [] -> Forall scalar o -> Str.split amp (fields o) = map entry_field o.
Proof.
  induction o as [|[k v] o IH]; intros Hne Hs; [now elim Hne |].
  apply Forall_cons_iff in Hs. destruct Hs as [Hv Hs]. cbn [scalar snd] in Hv.
  destruct o as [|kv o].
  - rewrite fields_scalar_last by exact Hv. cbn [map entry_field fst snd].
    apply split_whole, field_not_amp.
  - rewrite fields_scalar_more by exact Hv. rewrite split_append.
    rewrite (split_whole (field k v)) by apply field_not_amp.
    rewrite IH; [reflexivity | discriminate | exact Hs].
Qed.

Lemma scalar_set (k : string) (v : Value) (o : Obj) :
  scalar (k, v) -> Forall scalar o -> Forall scalar (set k v o).
Proof.
  intros Hv. induction o as [|[k' v'] o IH]; intros Hs; cbn [set].
  - now constructor.
  - apply Forall_cons_iff in Hs. destruct Hs as [H1 H2].
    destruct (String.eqb k k'); constructor; auto.
Qed.

Lemma set_not_nil (k : string) (v : Value) (o : Obj) : set k v o <> [].
Proof. destruct o as [|[k' v'] o]; cbn [set]; [| destruct (String.eqb k k')]; discriminate. Qed.

Lemma scalar_string (k s : string) : scalar (k, VStr s).
Proof. intros items. discriminate. Qed.

Lemma or_else_scalar (h : Heap) (params : Value) :
  Forall scalar (own_props h params) ->
  Forall scalar (own_props h (or_else params (VObj []))).
Proof.
  intros H. unfold or_else. destruct (truthy params); [exact H | constructor].
Qed.

Lemma set_absent (k : string) (v : Value) (o : Obj) :
  has k o = false -> set k v o = (o ++ [(k, v)])%list.
Proof.
  unfold has. induction o as [|[k' v'] o IH]; intros H; cbn [set lookup app] in *;
    [reflexivity |].
  destruct (String.eqb k k'); [discriminate H |]. now rewrite IH.
Qed.

Lemma has_app (k : string) (o o' : Obj) :
  has k o = false -> has k o' = false -> has k (o ++ o')%list = false.
Proof.
  unfold has. induction o as [|[k' v'] o IH]; intros H H'; cbn [lookup app] in *;
    [exact H' |].
  destruct (String.eqb k k'); [discriminate H |]. now apply IH.
Qed.

Lemma assign_credentials (this : t) (w : World) (o : Obj) :
  has "apikey" o = false -> has "nonce" o = false ->
  assign o (credentials this w) = (o ++ credentials this w)%list.
Proof.
  intros Ha Hb. unfold assign, credentials. cbn [fold_left fst snd].
  rewrite (set_absent "apikey") by exact Ha.
  rewrite (set_absent "nonce") by (apply has_app; [exact Hb | reflexivity]).
  now rewrite <- app_assoc.
Qed.

(** X18. When no parameter value is an array, the query string has exactly
    one field for each key of the merged parameters, in the order of the
    keys, each [key=value] with both sides escaped; so no key or value,
    whatever characters it holds, adds a field, and there are at least the
    two fields of the credentials. When the caller's parameters name neither
    [apikey] nor [nonce], the merged parameters are the caller's, in their
    order, then [apikey], then [nonce]. *)
Theorem http_query_fields (this : t) (path : string) (opts : Value) (w : World) :
  opts <> VNull ->
  (forall params,
      js_get (default_to opts (VObj [])) "params" w = (Resolved params, w) ->
      is_function params = false /\ Forall scalar (own_props (heap w) params)) ->
  exists (params : Value) (p : Prepared) (w' : World),
    js_get (default_to opts (VObj [])) "params" w = (Resolved params, w) /\
    prepare this path opts w = (Resolved p, w') /\
    let merged := assign (own_props (heap w) (or_else params (VObj [])))
                         (credentials this w) in
    Str.split "&" (querystring p) = map entry_field merged /\
    List.length (Str.split "&" (querystring p)) = List.length merged /\
    2 <= List.length merged /\
    (has "apikey" (own_props (heap w) params) = false ->
     has "nonce" (own_props (heap w) params) = false ->
     merged = (own_props (heap w) (or_else params (VObj [])) ++ credentials this w)%list).
Proof.
  intros Hn Hwf.
  destruct (prepare_total this path opts w Hn) as (params & G).
  destruct (prepare_spec this path opts params w G) as (p & w' & final & P & Q & _).
  destruct (Hwf params G) as [Hfun Hsc].
  exists params, p, w'. split; [exact G |]. split; [exact P |].
  intros merged.
  assert (E : Str.split "&" (querystring p) = map entry_field merged).
  { rewrite Q, (or_else_object params Hfun). cbn [negb QueryString.stringify].
    apply split_fields_scalar.
    - unfold merged, assign, credentials. cbn [fold_left fst snd]. apply set_not_nil.
    - unfold merged, assign, credentials. cbn [fold_left fst snd].
      apply scalar_set; [apply scalar_string |].
      apply scalar_set; [apply scalar_string |].
      now apply or_else_scalar. }
  split; [exact E |]. split; [rewrite E; apply length_map |].
  destruct (credentials_lookup this w (own_props (heap w) (or_else params (VObj []))))
    as [La Ln].
  fold merged in La, Ln. apply lookup_in in La, Ln.
  split.
  - destruct merged as [|x [|y m]]; cbn [List.length]; try lia.
    + destruct La.
    + destruct La as [La | []]. destruct Ln as [Ln | []]. congruence.
  - intros Ha Hb. unfold merged. apply assign_credentials.
    + unfold or_else. destruct (truthy params); [exact Ha | reflexivity].
    + unfold or_else. destruct (truthy params); [exact Hb | reflexivity].
Qed.

End OneField.

(** ** Statuses other than 200 *)

Section Statuses.

Import Js RestClient.

Variable request : AxiosInstance -> Obj -> TransportResult.

(** X19. Every status other than 200 - another 2xx as much as a 404 - is a
    failure, whatever the body says: the call is rejected with a
    [BittrexHttpError] that displays as [HTTPError: received http], the
    status, [from bittrex with message] and the status text in quotes, and
    that carries the status, the status text and a trace of its own. *)
Theorem http_status_display (this : t) (path : string) (opts : Value) (w : World)
    (r : AxiosResponse) :
  opts <> VNull ->
  (forall o, request (axios this) o = Responded r) ->
  status r <> 200%Z ->
  exists (e : BittrexHttpError.t) (w' : World),
    http request this path opts w = (Rejected (HttpFailure e), w') /\
    BittrexHttpError.toString e
      = "HTTPError: received http " ++ Str.of_Z (status r)
        ++ " from bittrex with message " ++ Str.dquote
        ++ to_string (statusText r) ++ Str.dquote /\
    BittrexHttpError.statusCode e = VNum (status r) /\
    BittrexHttpError.bittexMessage e = statusText r /\
    BittrexHttpError.stack e = Errors.OwnTrace.
Proof.
  intros Hn Hreq Hs.
  eexists. exists (snd (http request this path opts w)). split.
  - rewrite (http_settles request this path opts w _ Hreq Hn) at 1.
    unfold settle. apply Z.eqb_neq in Hs. rewrite Hs. reflexivity.
  - repeat split.
Qed.

End Statuses.

(** ** Options used twice *)

Section Twice.

Import Js RestClient.

Variable request : AxiosInstance -> Obj -> TransportResult.

(** X20. A shared options object loses its [params] in the call and keeps
    its other entries; a second call made with the same object therefore
    sends no parameter of the caller's, only the API key and a nonce, which
    is drawn from the sixteen bytes after those of the first call. *)
Theorem http_consumes_options (this : t) (path : string) (l : nat) (w : World) :
  l < List.length (heap w) ->
  prop "params" (deref (heap w) l) <> VRef l ->
  let w1 := snd (http request this path (VRef l) w) in
  deref (heap w1) l = delete "params" (deref (heap w) l) /\
  has "params" (deref (heap w1) l) = false /\
  (forall k, k <> "params" -> lookup k (deref (heap w1) l) = lookup k (deref (heap w) l)) /\
  forall path2,
  exists (p : Prepared) (w2 : World),
    prepare this path2 (VRef l) w1 = (Resolved p, w2) /\
    querystring p
    = "apikey=" ++ escape (apikey (options this)) ++ "&nonce="
      ++ escape (Crypto.base64 (Crypto.randomBytes 16 (entropy w) (cursor w + 16))).
Proof.
  intros Hl Hself w1.
  assert (G : js_get (default_to (VRef l) (VObj [])) "params" w
              = (Resolved (prop "params" (deref (heap w) l)), w)) by reflexivity.
  assert (W : w1 = mkWorld (heap_after_http this w (VRef l) (prop "params" (deref (heap w) l)))
                           (entropy w) (cursor w + 16))
    by (subst w1; now rewrite (http_world request this path _ _ w G)).
  assert (E : deref (heap w1) l = delete "params" (deref (heap w) l)).
  { rewrite W. cbn [heap]. unfold heap_after_http. cbn [default_to heap_after_delete].
    set (h1 := heap_after_assign _ _ _).
    assert (L1 : List.length h1 = List.length (heap w)).
    { subst h1. unfold heap_after_assign.
      destruct (or_else _ _); try reflexivity. apply length_store. }
    assert (D1 : deref h1 l = deref (heap w) l).
    { subst h1. unfold heap_after_assign, or_else.
      destruct (truthy (prop "params" (deref (heap w) l))); [| reflexivity].
      destruct (prop "params" (deref (heap w) l)) as [| | | | | | | l' |]; try reflexivity.
      apply deref_store_other. congruence. }
    rewrite deref_store_same by lia. now rewrite D1. }
  split; [exact E |].
  assert (N : lookup "params" (deref (heap w1) l) = None)
    by (rewrite E; apply lookup_delete_same).
  split; [unfold has; now rewrite N |].
  split; [intros k Hk; rewrite E; now apply lookup_delete_other |].
  intros path2.
  assert (G2 : js_get (default_to (VRef l) (VObj [])) "params" w1 = (Resolved VUndefined, w1))
    by (cbn [default_to js_get]; unfold prop; now rewrite N).
  destruct (prepare_spec this path2 (VRef l) VUndefined w1 G2)
    as (p & w2 & final & P & Q & _).
  exists p, w2. split; [exact P |]. rewrite Q.
  cbn [or_else truthy is_function negb own_props QueryString.stringify].
  change (assign [] (credentials this w1)) with (credentials this w1).
  rewrite credentials_fields. rewrite W. reflexivity.
Qed.

End Twice.

(** ** The URL of every wrapper *)

Section Endpoints.

Import Js RestClient.

Variable request : AxiosInstance -> Obj -> TransportResult.

Lemma endpoint_segments (c : Call) : endpoint c <> [] /\ Forall segment (endpoint c).
Proof.
  destruct c; (split; [discriminate |]);
    repeat constructor; try discriminate; reflexivity.
Qed.

(** X21. Every wrapper calls the executor with the path of its endpoint - a
    slash, a group ([public], [account] or [market]), a slash and a method -
    and with options that are not [null]. The URL it requests is
    [https://bittrex.com/api/], the version, [/group/method?] and the query
    string: with the configured version when that is a plain segment that
    does not end in [A], [%] or U+0003, and with [v1.1] when none or an empty
    one is configured. *)
Theorem wrappers_urls (this : t) (call : Call) (w : World) :
  exists (opts : Value) (k : AxiosResponse -> M Value) (p : Prepared) (w' : World),
    invoke request this call
    = bind (http request this ("/" ++ Str.join "/" (endpoint call)) opts) k /\
    prepare this ("/" ++ Str.join "/" (endpoint call)) opts w = (Resolved p, w') /\
    (forall v, apiVersion (options this) = Some v -> segment v -> joint v = true ->
               fullUrl p = "https://bittrex.com/api/" ++ v ++ "/"
                           ++ Str.join "/" (endpoint call) ++ "?" ++ querystring p) /\
    (apiVersion (options this) = None \/ apiVersion (options this) = Some EmptyString ->
     fullUrl p = "https://bittrex.com/api/v1.1/" ++ Str.join "/" (endpoint call)
                 ++ "?" ++ querystring p).
Proof.
  assert (H : forall opts, opts <> VNull ->
            exists p w',
              prepare this ("/" ++ Str.join "/" (endpoint call)) opts w = (Resolved p, w') /\
              (forall v, apiVersion (options this) = Some v -> segment v -> joint v = true ->
                         fullUrl p = "https://bittrex.com/api/" ++ v ++ "/"
                                     ++ Str.join "/" (endpoint call) ++ "?" ++ querystring p) /\
              (apiVersion (options this) = None \/
               apiVersion (options this) = Some EmptyString ->
               fullUrl p = "https://bittrex.com/api/v1.1/" ++ Str.join "/" (endpoint call)
                           ++ "?" ++ querystring p)).
  { intros opts Hn.
    destruct (prepare_total this ("/" ++ Str.join "/" (endpoint call)) opts w Hn)
      as (params & G).
    destruct (prepare_spec this ("/" ++ Str.join "/" (endpoint call)) opts params w G)
      as (p & w' & final & P & Q & U & _).
    exists p, w'. split; [exact P |].
    destruct (endpoint_segments call) as [Hne Hsegs].
    assert (Hpath : "/" ++ Str.join "/" (endpoint call)
                    = Str.repeat "/" 1 ++ Str.join "/" (endpoint call) ++ Str.repeat "/" 0)
      by (cbn [Str.repeat]; now rewrite append_nil_r).
    assert (Hqs : Str.all quiet (querystring p) = true)
      by (rewrite Q; apply (all_impl qs_char);
          [apply qs_char_quiet | apply stringify_qs_char]).
    assert (H0 : 0 < 0 -> joint (last (endpoint call) EmptyString) = true) by lia.
    split.
    - intros v Hv Hseg Hj. rewrite U, Hv, (or_default_given v (proj1 Hseg)), Hpath.
      apply url_shape; try assumption. intros _. exact Hj.
    - intros Hv. rewrite U, (or_default_missing _ Hv), Hpath.
      apply (url_shape "v1.1" 1 0 (endpoint call) (querystring p)); try assumption.
      + exact segment_v1_1.
      + intros _. exact joint_v1_1. }
  destruct call; cbn [invoke];
    unfold getMarkets, getCurrencies, getTicker, getMarketSummaries, getMarketSummary,
           getOrderBook, getMarketHistory, getBalances, getBalance, getOrderHistory,
           getDepositHistory, getDepositAddress, getOrder, withdraw, getWithdrawlHistory,
           buyLimit, sellLimit, cancelOrder, getOpenOrders;
    match goal with
    | |- context [bind (http request this ?path ?opts) ?k] =>
        let Hn := fresh in
        assert (Hn : opts <> VNull) by (try apply market_opts_not_null; discriminate);
        destruct (H opts Hn) as (p & w' & P & U1 & U2);
        exists opts, k, p, w'; split; [reflexivity | split; [exact P | split; assumption]]
    end.
Qed.

End Endpoints.

(** ** Secrets that sign alike *)

Section Padding.

Local Open Scope Z_scope.

Lemma utf8_append (a b : string) : Str.utf8 (a ++ b) = (Str.utf8 a ++ Str.utf8 b)%list.
Proof.
  induction a as [|c a IH]; [reflexivity |].
  cbn [append Str.utf8]. now rewrite IH, app_assoc.
Qed.

Lemma hmac_zero_padding (key msg : list Z) :
  (List.length key < 128)%nat ->
  Crypto.hmac_sha512 (key ++ [0])%list msg = Crypto.hmac_sha512 key msg.
Proof.
  intros H. unfold Crypto.hmac_sha512. cbv zeta.
  assert (L0 : List.length (key ++ [0])%list = (List.length key + 1)%nat)
    by (now rewrite length_app).
  destruct (Z.ltb_spec 128 (Z.of_nat (List.length (key ++ [0])%list))) as [L | _]; [lia |].
  destruct (Z.ltb_spec 128 (Z.of_nat (List.length key))) as [L | _]; [lia |].
  rewrite L0.
  replace ((key ++ [0]) ++ repeat 0 (128 - (List.length key + 1)))%list
    with (key ++ repeat 0 (128 - List.length key))%list; [reflexivity |].
  rewrite <- app_assoc. f_equal.
  replace (128 - List.length key)%nat with (S (128 - (List.length key + 1))) by lia.
  reflexivity.
Qed.

(** X22. A secret shorter than 128 bytes and the same secret followed by a
    NUL character sign alike: [getHmac] gives both the same signature for
    every URL, since HMAC fills a short key with zero bytes. *)
Theorem getHmac_nul_padding (uri apisecret : string) :
  (List.length (Str.utf8 apisecret) < 128)%nat ->
  Utils.getHmac uri (apisecret ++ nul) = Utils.getHmac uri apisecret.
Proof.
  intros H. unfold Utils.getHmac. rewrite utf8_append.
  unfold Crypto.bytes. rewrite map_app.
  change (map Crypto.byte_val (Str.utf8 nul)) with [0].
  now rewrite hmac_zero_padding by (now rewrite length_map).
Qed.

End Padding.

(** ** Reading a query string back *)

Section Unambiguous.

Import Js.

Local Open Scope N_scope.

Lemma code_range (c : ascii) : Str.code c < 256.
Proof. apply N_ascii_bounded. Qed.

Lemma code_inj (a b : ascii) : Str.code a = Str.code b -> a = b.
Proof.
  unfold Str.code. intros H.
  rewrite <- (ascii_N_embedding a), <- (ascii_N_embedding b). now rewrite H.
Qed.

Lemma HEX_digit_inj (n m : N) : n < 16 -> m < 16 -> HEX_digit n = HEX_digit m -> n = m.
Proof.
  intros Hn Hm H.
  assert (A : forallb (fun i => forallb (fun j =>
                implb (Ascii.eqb (HEX_digit (N.of_nat i)) (HEX_digit (N.of_nat j)))
                      (Nat.eqb i j)) (seq 0 16)) (seq 0 16) = true)
    by (vm_compute; reflexivity).
  rewrite forallb_forall in A. specialize (A (N.to_nat n)).
  rewrite forallb_forall in A.
  assert (In1 : In (N.to_nat n) (seq 0 16)) by (apply in_seq; lia).
  assert (In2 : In (N.to_nat m) (seq 0 16)) by (apply in_seq; lia).
  specialize (A In1 (N.to_nat m) In2). rewrite !N2Nat.id, H, Ascii.eqb_refl in A.
  apply Nat.eqb_eq in A. lia.
Qed.

Lemma percent_inj (a b : ascii) (r r' : string) :
  (percent a ++ r = percent b ++ r')%string -> a = b /\ r = r'.
Proof.
  unfold percent. cbn [append]. intros H. injection H as H1 H2 H3.
  pose proof (code_range a) as Ra. pose proof (code_range b) as Rb.
  apply HEX_digit_inj in H1; [| apply N.Div0.div_lt_upper_bound; lia ..].
  apply HEX_digit_inj in H2; [| apply N.mod_lt; lia ..].
  split; [| exact H3]. apply code_inj.
  rewrite (N.div_mod (Str.code a) 16), (N.div_mod (Str.code b) 16) by lia.
  now rewrite H1, H2.
Qed.

Lemma enc_cases (c : ascii) :
  (Str.code c < 128 /\ enc c = percent c) \/
  (128 <= Str.code c /\
   enc c = (percent (ascii_of_N (192 + Str.code c / 64))
            ++ percent (ascii_of_N (128 + Str.code c mod 64)))%string).
Proof.
  unfold enc, Str.utf8_unit.
  destruct (N.ltb_spec (Str.code c) 128) as [L | L]; [left | right]; (split; [exact L |]).
  - cbn [percent_all]. apply append_nil_r.
  - cbn [percent_all]. now rewrite append_nil_r.
Qed.

Lemma enc_inj (a b : ascii) (r r' : string) :
  (enc a ++ r = enc b ++ r')%string -> a = b /\ r = r'.
Proof.
  pose proof (code_range a) as Ra. pose proof (code_range b) as Rb.
  assert (E : forall n, n < 256 -> Str.code (ascii_of_N n) = n)
    by (intros n Hn; now apply N_ascii_embedding).
  destruct (enc_cases a) as [[La ->] | [La ->]], (enc_cases b) as [[Lb ->] | [Lb ->]];
    rewrite ?append_assoc; intros H.
  - now apply percent_inj in H.
  - apply percent_inj in H. destruct H as [H _].
    apply (f_equal Str.code) in H. rewrite E in H by (zify; euclid).
    zify; euclid.
  - apply percent_inj in H. destruct H as [H _].
    apply (f_equal Str.code) in H. rewrite E in H by (zify; euclid).
    zify; euclid.
  - apply percent_inj in H. destruct H as [H1 H].
    apply percent_inj in H. destruct H as [H2 H3].
    apply (f_equal Str.code) in H1, H2.
    rewrite !E in H1, H2 by (zify; euclid).
    split; [| exact H3]. apply code_inj. zify; euclid.
Qed.

Local Close Scope N_scope.

Lemma append_cancel_l (a r r' : string) : a ++ r = a ++ r' -> r = r'.
Proof.
  induction a as [|c a IH]; cbn [append]; intros H; [exact H |].
  injection H as H. now apply IH.
Qed.

Lemma escape_cons (c : ascii) (t : string) :
  escape (String c t) = if unreserved c then String c (escape t) else enc c ++ escape t.
Proof. reflexivity. Qed.

Lemma enc_head (c : ascii) : exists t, enc c = String "%" t.
Proof. apply percent_all_head. Qed.

Lemma escape_inj (a b : string) : escape a = escape b -> a = b.
Proof.
  revert b. induction a as [|c a IH]; intros [|d b]; rewrite ?escape_cons.
  - reflexivity.
  - cbn [escape]. destruct (unreserved d); [discriminate |].
    destruct (enc_head d) as (t & ->). discriminate.
  - cbn [escape]. destruct (unreserved c); [discriminate |].
    destruct (enc_head c) as (t & ->). discriminate.
  - destruct (unreserved c) eqn:Uc, (unreserved d) eqn:Ud; intros H.
    + injection H as -> H. now rewrite (IH b H).
    + destruct (enc_head d) as (t & E). rewrite E in H. cbn [append] in H.
      injection H as -> _. discriminate Uc.
    + destruct (enc_head c) as (t & E). rewrite E in H. cbn [append] in H.
      injection H as <- _. discriminate Ud.
    + apply enc_inj in H. destruct H as [-> H]. now rewrite (IH b H).
Qed.

Lemma cut_at_eq (x x' y y' : string) :
  Str.all not_eq x = true -> Str.all not_eq x' = true ->
  (x ++ "=") ++ y = (x' ++ "=") ++ y' -> x = x' /\ y = y'.
Proof.
  revert x'. induction x as [|c x IH]; intros [|c' x'] Hx Hx'; cbn [append Str.all] in *.
  - intros H. injection H as H. now split.
  - intros H. injection H as <- _. now destruct (andb_prop _ _ Hx').
  - intros H. injection H as -> _. now destruct (andb_prop _ _ Hx).
  - intros H. injection H as -> H.
    apply andb_prop in Hx, Hx'. destruct Hx as [_ Hx], Hx' as [_ Hx'].
    destruct (IH x' Hx Hx' H) as [-> ->]. now split.
Qed.

Lemma field_inj (k k' : string) (v v' : Value) :
  field k v = field k' v' -> k = k' /\ stringifyPrimitive v = stringifyPrimitive v'.
Proof.
  unfold field. intros H.
  apply cut_at_eq in H;
    [| apply (all_impl escaped); [apply escaped_not_eq | apply escape_escaped] ..].
  destruct H as [H1 H2]. split; now apply escape_inj.
Qed.

Lemma fields_nil (o : Obj) : Forall scalar o -> fields o = EmptyString -> o = [].
Proof.
  destruct o as [|[k v] o]; [reflexivity |]. intros Hs H.
  apply Forall_cons_iff in Hs. destruct Hs as [Hv _]. cbn [scalar snd] in Hv.
  destruct o as [|kv o].
  - rewrite fields_scalar_last in H by exact Hv. unfold field in H.
    destruct (escape k); discriminate H.
  - rewrite fields_scalar_more in H by exact Hv. unfold field in H.
    destruct (escape k); discriminate H.
Qed.

(** X23. A query string spells its parameters without ambiguity: when no
    value is an array, two parameter mappings that serialize to the same
    query string have the same keys, in the same order, with values that are
    written as the same text. *)
Theorem query_string_unambiguous (o o' : Obj) :
  Forall scalar o -> Forall scalar o' ->
  QueryString.stringify true o = QueryString.stringify true o' ->
  map entry_text o = map entry_text o'.
Proof.
  cbn [QueryString.stringify]. intros Hs Hs' H.
  destruct o as [|kv o].
  - symmetry in H. now rewrite (fields_nil o' Hs' H).
  - destruct o' as [|kv' o']; [now rewrite (fields_nil _ Hs H) |].
    apply (f_equal (Str.split amp)) in H.
    rewrite !split_fields_scalar in H by (discriminate || assumption).
    clear Hs Hs'. revert H. generalize (kv' :: o'). generalize (kv :: o). clear.
    intros a. induction a as [|[k v] a IH]; intros [|[k' v'] b] H;
      try discriminate H; [reflexivity |].
    cbn [map] in H. injection H as H1 H2. unfold entry_field in H1. cbn [fst snd] in H1.
    apply field_inj in H1. destruct H1 as [-> Hv].
    cbn [map]. unfold entry_text at 1 3. cbn [fst snd].
    f_equal; [f_equal; exact Hv | exact (IH b H2)].
Qed.

End Unambiguous.

(** ** The further theorems at concrete inputs *)

Section MoreWitnesses.

Import Js RestClient.

Lemma http_effects_witness :
  VRef 2 <> VNull /\
  let w' := snd (http not_found sample_client "/public/getticker" (VRef 2) caller_world) in
  cursor w' = 16 /\ List.length (heap w') = 3 /\
  deref (heap w') AXIOS_DEFAULTS = [("timeout", VNum 15000)].
Proof.
  assert (H1 : VRef 2 <> VNull) by discriminate.
  split; [exact H1 |].
  destruct (http_effects not_found sample_client "/public/getticker" (VRef 2) caller_world H1)
    as (params & G & _ & C & L & F).
  assert (G' : js_get (default_to (VRef 2) (VObj [])) "params" caller_world
               = (Resolved (VRef 1), caller_world)) by reflexivity.
  rewrite G' in G. injection G as <-.
  split; [exact C |]. split; [exact L |].
  apply (F AXIOS_DEFAULTS); discriminate.
Defined.

Lemma http_marks_params_witness :
  1 < List.length (heap caller_world) /\
  VRef 2 <> VRef 1 /\
  let w' := snd (http not_found sample_client "/public/getticker" (VRef 2) caller_world) in
  lookup "nonce" (deref (heap w') 1) = Some (VStr "AwoRGB8mLTQ7QklQV15lbA==") /\
  lookup "market" (deref (heap w') 1) = Some (VStr "BTC-LTC").
Proof.
  assert (H1 : 1 < List.length (heap caller_world)) by (simpl; lia).
  assert (H2 : js_get (default_to (VRef 2) (VObj [])) "params" caller_world
               = (Resolved (VRef 1), caller_world)) by reflexivity.
  assert (H3 : VRef 2 <> VRef 1) by discriminate.
  split; [exact H1 |]. split; [exact H3 |].
  destruct (http_marks_params not_found sample_client "/public/getticker" (VRef 2) 1
              caller_world H1 H2 H3) as (_ & _ & N & K & _).
  split; [exact N |]. rewrite K by discriminate. reflexivity.
Defined.

Lemma wrappers_reject_witness :
  let e := HttpFailure
             (BittrexHttpError.new
                (Errors.MsgText
                   ("received http 404 from bittrex with message "
                    ++ Str.dquote ++ "null" ++ Str.dquote))
                VNull (VNum 404)) in
  exists w', invoke not_found sample_client GetBalances sample_world = (Rejected e, w').
Proof.
  intros e.
  assert (H1 : forall o, not_found (axios sample_client) o
                         = Responded (mkResponse 404 VNull [] (VObj [])))
    by reflexivity.
  assert (H2 : forall w0, settle (Responded (mkResponse 404 VNull [] (VObj []))) w0
                          = (Rejected e, w0)) by reflexivity.
  exact (wrappers_reject not_found sample_client GetBalances sample_world _ e H1 H2).
Defined.

Lemma http_success_truthy_witness :
  let body := [("success", VStr "false")] in
  let r := mkResponse 200 (VStr "OK") [] (VObj body) in
  VUndefined <> VNull /\
  exists w',
    http (answer 200 (VStr "OK") (VObj body)) sample_client "/public/getmarkets"
         VUndefined sample_world = (Resolved r, w').
Proof.
  intros body r.
  assert (H1 : VUndefined <> VNull) by discriminate.
  assert (H2 : forall o, answer 200 (VStr "OK") (VObj body) (axios sample_client) o
                         = Responded r) by reflexivity.
  assert (H3 : status r = 200%Z) by reflexivity.
  assert (H4 : data r = VObj body) by reflexivity.
  split; [exact H1 |].
  destruct (http_success_truthy (answer 200 (VStr "OK") (VObj body)) sample_client
              "/public/getmarkets" VUndefined sample_world r body H1 H2 H3 H4)
    as (w' & E & _).
  exists w'. exact E.
Defined.

Lemma http_body_not_object_witness :
  let r := mkResponse 200 (VStr "OK") [] (VStr EmptyString) in
  VUndefined <> VNull /\
  exists w',
    http (answer 200 (VStr "OK") (VStr EmptyString)) sample_client "/public/getmarkets"
         VUndefined sample_world
    = (Rejected (ApiFailure (BittrexRestApiError.new VUndefined)), w').
Proof.
  intros r.
  assert (H1 : VUndefined <> VNull) by discriminate.
  assert (H2 : forall o, answer 200 (VStr "OK") (VStr EmptyString) (axios sample_client) o
                         = Responded r) by reflexivity.
  assert (H3 : status r = 200%Z) by reflexivity.
  assert (H4 : forall props, data r <> VObj props) by discriminate.
  assert (H5 : forall l, data r <> VRef l) by discriminate.
  split; [exact H1 |].
  exact (http_body_not_object (answer 200 (VStr "OK") (VStr EmptyString)) sample_client
           "/public/getmarkets" VUndefined sample_world r H1 H2 H3 H4 H5).
Defined.

Lemma getMarketSummary_edges_witness :
  let body := [("success", VBool true); ("result", VArr [])] in
  exists w',
    getMarketSummary (answer 200 (VStr "OK") (VObj body)) sample_client "BTC" "LTC"
      sample_world = (Resolved VUndefined, w').
Proof.
  intros body.
  assert (H1 : forall o, answer 200 (VStr "OK") (VObj body) (axios sample_client) o
                         = Responded (mkResponse 200 (VStr "OK") [] (VObj body)))
    by reflexivity.
  assert (H2 : status (mkResponse 200 (VStr "OK") [] (VObj body)) = 200%Z) by reflexivity.
  assert (H3 : data (mkResponse 200 (VStr "OK") [] (VObj body)) = VObj body) by reflexivity.
  assert (H4 : truthy (prop "success" body) = true) by reflexivity.
  destruct (getMarketSummary_edges (answer 200 (VStr "OK") (VObj body)) sample_client
              "BTC" "LTC" sample_world _ body H1 H2 H3 H4) as (w' & _ & E & _).
  exists w'. apply E. reflexivity.
Defined.

Lemma constructor_merge_witness :
  let opts := mkOptions "key-1" "secret-1"
                (Some [("timeout", VNum 100); ("maxRedirects", VNum 0)]) None in
  AXIOS_DEFAULTS < List.length (heap sample_world) /\
  exists (c : t) (w' : World),
    constructor opts sample_world = (Resolved c, w') /\
    lookup "timeout" (defaults (axios c)) = Some (VNum 100) /\
    deref (heap w') AXIOS_DEFAULTS = defaults (axios c).
Proof.
  intros opts.
  assert (H1 : AXIOS_DEFAULTS < List.length (heap sample_world))
    by (unfold AXIOS_DEFAULTS; simpl; lia).
  assert (H2 : NoDup (keys (overrides opts)))
    by (repeat constructor; simpl; intuition discriminate).
  split; [exact H1 |].
  destruct (constructor_merge opts sample_world H1 H2) as (c & w' & E & _ & K & D & _).
  exists c, w'. split; [exact E |]. split; [| exact D].
  rewrite K. reflexivity.
Defined.

Lemma http_url_origin_witness :
  VUndefined <> VNull /\
  exists (p : Prepared) (w' : World),
    prepare sample_client "@elsewhere.example/?" VUndefined sample_world = (Resolved p, w') /\
    String.prefix "https://bittrex.com/api" (fullUrl p) = true.
Proof.
  assert (H1 : VUndefined <> VNull) by discriminate.
  split; [exact H1 |].
  destruct (http_url_origin not_found sample_client "@elsewhere.example/?" VUndefined
              sample_world H1) as (p & w' & P & _ & U & _).
  exists p, w'. split; [exact P | exact U].
Defined.

Lemma request_without_params_witness :
  own_credentials <> VNull /\
  exists (p : Prepared) (w' : World),
    prepare sample_client "/public/getticker" own_credentials sample_world
      = (Resolved p, w') /\
    has "params" (requestOptions p) = false /\
    prop "validateStatus" (requestOptions p) = VFun AlwaysTrue.
Proof.
  assert (H1 : own_credentials <> VNull) by discriminate.
  split; [exact H1 |].
  destruct (request_without_params not_found sample_client "/public/getticker"
              own_credentials sample_world H1) as (p & w' & P & _ & N & V).
  exists p, w'. split; [exact P |]. split; [exact N |]. apply V. reflexivity.
Defined.

Lemma http_query_fields_witness :
  let opts := with_params [("market", VStr "BTC-LTC"); ("note", VStr "a&b=c")] in
  opts <> VNull /\
  exists (p : Prepared) (w' : World),
    prepare sample_client "/public/getticker" opts sample_world = (Resolved p, w') /\
    List.length (Str.split "&" (querystring p)) = 4.
Proof.
  intros opts.
  assert (H1 : opts <> VNull) by discriminate.
  assert (H2 : forall params,
             js_get (default_to opts (VObj [])) "params" sample_world
               = (Resolved params, sample_world) ->
             is_function params = false /\
             Forall scalar (own_props (heap sample_world) params)).
  { intros params E. injection E as <-. split; [reflexivity |].
    repeat constructor; intros items; discriminate. }
  split; [exact H1 |].
  destruct (http_query_fields sample_client "/public/getticker" opts sample_world H1 H2)
    as (params & p & w' & G & P & _ & L & _).
  injection G as <-.
  exists p, w'. split; [exact P |]. rewrite L. reflexivity.
Defined.

Lemma http_status_display_witness :
  let r := mkResponse 201 (VStr "Created") [] ticker_body in
  VUndefined <> VNull /\ status r <> 200%Z /\
  exists (e : BittrexHttpError.t) (w' : World),
    http (answer 201 (VStr "Created") ticker_body) sample_client "/public/getticker"
         VUndefined sample_world = (Rejected (HttpFailure e), w') /\
    BittrexHttpError.toString e
      = "HTTPError: received http 201 from bittrex with message "
        ++ Str.dquote ++ "Created" ++ Str.dquote.
Proof.
  intros r.
  assert (H1 : VUndefined <> VNull) by discriminate.
  assert (H2 : forall o, answer 201 (VStr "Created") ticker_body (axios sample_client) o
                         = Responded r) by reflexivity.
  assert (H3 : status r <> 200%Z) by discriminate.
  split; [exact H1 |]. split; [exact H3 |].
  destruct (http_status_display (answer 201 (VStr "Created") ticker_body) sample_client
              "/public/getticker" VUndefined sample_world r H1 H2 H3)
    as (e & w' & E & D & _).
  exists e, w'. split; [exact E | exact D].
Defined.

Lemma http_consumes_options_witness :
  2 < List.length (heap caller_world) /\
  prop "params" (deref (heap caller_world) 2) <> VRef 2 /\
  let w1 := snd (http not_found sample_client "/public/getticker" (VRef 2) caller_world) in
  deref (heap w1) 2 = [("timeout", VNum 5000)].
Proof.
  assert (H1 : 2 < List.length (heap caller_world)) by (simpl; lia).
  assert (H2 : prop "params" (deref (heap caller_world) 2) <> VRef 2) by discriminate.
  split; [exact H1 |]. split; [exact H2 |].
  destruct (http_consumes_options not_found sample_client "/public/getticker" 2
              caller_world H1 H2) as (E & _).
  exact E.
Defined.

Lemma wrappers_urls_witness :
  exists (opts : Value) (p : Prepared) (w' : World),
    prepare v2_client "/account/getwithdrawalhistory" opts sample_world
      = (Resolved p, w') /\
    fullUrl p
    = "https://bittrex.com/api/v2.0/account/getwithdrawalhistory?" ++ querystring p.
Proof.
  destruct (wrappers_urls not_found v2_client (GetWithdrawlHistory None) sample_world)
    as (opts & k & p & w' & _ & P & U & _).
  exists opts, p, w'. split; [exact P |].
  apply (U "v2.0" eq_refl segment_v2_0). reflexivity.
Defined.

Lemma getHmac_nul_padding_witness :
  List.length (Str.utf8 "an-api-secret-should-go-here") < 128 /\
  Utils.getHmac "https://bittrex.com/api/v1.1/public/getmarkets"
    ("an-api-secret-should-go-here" ++ nul)
  = Utils.getHmac "https://bittrex.com/api/v1.1/public/getmarkets"
      "an-api-secret-should-go-here".
Proof.
  assert (H1 : List.length (Str.utf8 "an-api-secret-should-go-here") < 128)
    by (simpl; lia).
  split; [exact H1 |].
  exact (getHmac_nul_padding "https://bittrex.com/api/v1.1/public/getmarkets"
           "an-api-secret-should-go-here" H1).
Defined.

Lemma query_string_unambiguous_witness :
  let o := [("quantity", VStr "1"); ("rate", VStr "a b")] in
  let o' := [("quantity", VNum 1); ("rate", VStr "a b")] in
  QueryString.stringify true o = QueryString.stringify true o' /\
  map entry_text o = map entry_text o'.
Proof.
  intros o o'.
  assert (H1 : Forall scalar o) by (repeat constructor; intros items; discriminate).
  assert (H2 : Forall scalar o') by (repeat constructor; intros items; discriminate).
  assert (H3 : QueryString.stringify true o = QueryString.stringify true o') by reflexivity.
  split; [exact H3 |].
  exact (query_string_unambiguous o o' H1 H2 H3).
Defined.

End MoreWitnesses.
